(** * link-lib: a shallow embedding of the smart [npm link] helper

    The repository holds two variants of one script:
    - [src/index.js]            (one positional argument, global-slot detection);
    - [src/unnamed/part_000]    (two positional arguments, unconditional
                                 [npm link] in the library).
    Both are embedded below, over one interface to the Node runtime
    ([node:fs], [node:path], [node:child_process]) and to the [semver]
    package, none of which belongs to the repository. *)

From Stdlib Require Import String Ascii List ZArith Bool Lia.
From stdpp Require Import base option list strings gmap.

Import ListNotations.
Local Open Scope string_scope.
Local Open Scope list_scope.

(** ** JavaScript values met in the script *)

(** The values that flow through the [&&] / [||] chains of the unlink flow. *)
Inductive jsval : Type :=
| JUndefined
| JNull
| JBool (b : bool)
| JStr (s : string).

Definition str_nonempty (s : string) : bool :=
  match s with EmptyString => false | String _ _ => true end.

(** ToBoolean. *)
Definition truthy (v : jsval) : bool :=
  match v with
  | JUndefined | JNull => false
  | JBool b => b
  | JStr s => str_nonempty s
  end.

(** [a && b] and [a || b]; the operands of the script are free of effects. *)
Definition js_and (a b : jsval) : jsval := if truthy a then b else a.
Definition js_or (a b : jsval) : jsval := if truthy a then a else b.

(** ** Strings *)

(** [s.startsWith(p)]. *)
Fixpoint startsWith (s p : string) : bool :=
  match p with
  | EmptyString => true
  | String c p' =>
      match s with
      | EmptyString => false
      | String d s' => if Ascii.eqb c d then startsWith s' p' else false
      end
  end.

Definition between (lo hi c : ascii) : bool :=
  (nat_of_ascii lo <=? nat_of_ascii c)%nat && (nat_of_ascii c <=? nat_of_ascii hi)%nat.

(** The character class [\w] of a JavaScript regular expression. *)
Definition is_word_char (c : ascii) : bool :=
  between "a" "z" c || between "A" "Z" c || between "0" "9" c || Ascii.eqb c "_".

(** [/-\w+/.test(s)]: some hyphen of [s] is directly followed by a word
    character. *)
Fixpoint hyphen_word (s : string) : bool :=
  match s with
  | EmptyString => false
  | String c rest =>
      match rest with
      | String d _ => (Ascii.eqb c "-" && is_word_char d) || hyphen_word rest
      | EmptyString => false
      end
  end.

Definition is_sep (c : ascii) : bool := Ascii.eqb c "/" || Ascii.eqb c "\".

(** [s.replace(/[\\/]+$/, '')]: drop the trailing path separators. *)
Fixpoint stripTrailingSeps (s : string) : string :=
  match s with
  | EmptyString => EmptyString
  | String c rest =>
      match stripTrailingSeps rest with
      | EmptyString => if is_sep c then EmptyString else String c EmptyString
      | r => String c r
      end
  end.

Definition is_space (c : ascii) : bool :=
  let n := nat_of_ascii c in
  (n =? 32)%nat || ((9 <=? n)%nat && (n <=? 13)%nat).

Fixpoint trimStart (s : string) : string :=
  match s with
  | EmptyString => EmptyString
  | String c rest => if is_space c then trimStart rest else s
  end.

Fixpoint trimEnd (s : string) : string :=
  match s with
  | EmptyString => EmptyString
  | String c rest =>
      match trimEnd rest with
      | EmptyString => if is_space c then EmptyString else String c EmptyString
      | r => String c r
      end
  end.

(** [s.trim()] on the ASCII white space. *)
Definition trim (s : string) : string := trimEnd (trimStart s).

(** [args.includes(x)]. *)
Definition includes (args : list string) (x : string) : bool :=
  existsb (String.eqb x) args.

(** [xs.join(sep)]. *)
Fixpoint join (sep : string) (xs : list string) : string :=
  match xs with
  | [] => ""
  | [x] => x
  | x :: rest => x ++ sep ++ join sep rest
  end.

(** ** Manifests *)

(** A parsed [package.json]: the fields the script reads.  A dependency
    section is absent ([None]) or an object from package names to spec
    strings; only own properties are modelled.  [peerDependencies] keeps the
    order of [Object.entries]. *)
Record Manifest : Type := {
  name : option string;
  dependencies : option (gmap string string);
  devDependencies : option (gmap string string);
  optionalDependencies : option (gmap string string);
  peerDependencies : option (list (string * string))
}.

(** [sec && k in sec]. *)
Definition has_key (sec : option (gmap string string)) (k : string) : jsval :=
  match sec with
  | None => JUndefined
  | Some m => JBool (bool_decide (is_Some (m !! k)))
  end.

(** [sec[k]]; the script reads it only behind [has_key], where [sec] is an
    object. *)
Definition member (sec : option (gmap string string)) (k : string) : jsval :=
  match sec with
  | None => JUndefined
  | Some m => match m !! k with Some s => JStr s | None => JUndefined end
  end.

(** [{ ...a, ...b, ...c }]: a later spread overwrites an earlier one. *)
Definition spread3 (a b c : option (gmap string string)) : gmap string string :=
  default ∅ c ∪ (default ∅ b ∪ default ∅ a).

(** ** Errors, notices and events *)

Inductive exn : Type :=
| CommandFailed (cmd : string) (args : list string) (output : string)
| NoAppManifest (dir : string)
| NoLibManifest (dir : string)
| NoLibName (path : string)
| FsError (code : string)
| JsonError
| TypeError.

(** Link status of a slot, as the status banner prints it. *)
Inductive slot : Type := SlotLinked | SlotElsewhere | SlotAbsent.

(** Console messages, by content; their wording and emoji are left out. *)
Inductive notice : Type :=
| NUsage
| NUnlinking (lib : string)
| NUnlinkFailed (lib : string) (e : exn)
| NReinstalling
| NRestored
| NRemovingGlobal (lib : string)
| NGlobalUnlinkFailed (lib : string) (e : exn)
| NCleanupFailed (e : exn)
| NGlobalRemoved
| NStatus (global app : slot)
| NStatusApp (app : slot)
| NCreatingGlobal (lib : string)
| NEnsuringGlobal
| NGlobalReady
| NGlobalAlreadySet
| NGlobalLinkError (e : exn)
| NAppAlreadyLinked
| NRemovingInstall (path : string)
| NLinking (lib : string)
| NFirstLinkFailed (lib : string)
| NVerified (lib dir : string)
| NVerifyFailed
| NMissingPeers (lines : list string)
| NPeerMismatch (lines : list string)
| NStartingWatcher
| NFatal (e : exn).

(** What a run does to the outside, in order. *)
Inductive event : Type :=
| Spawned (cmd : string) (args : list string) (cwd : option string)
| Removed (path : string)
| Watcher (cmd : string) (args : list string) (cwd : string) (shell : bool)
| Log (n : notice)
| Warn (n : notice)
| Error (n : notice).

(** ** The runtime interface *)

Record Stats : Type := { isSymbolicLink : bool }.

Record SpawnResult : Type := {
  status : option Z;
  stdout : string;
  stderr : string
}.

(** Node's file system, path and child-process modules and the [semver]
    package.  [World] is everything outside the process: the file system and
    whatever the package manager keeps. *)
Class Env : Type := {
  World : Type;
  isWin : bool;
  cwd : string;
  path_join : list string -> string;
  path_resolve : list string -> string;
  path_dirname : string -> string;
  existsSync : World -> string -> bool;
  readFileJson : World -> string -> exn + Manifest;
  lstatSync : World -> string -> exn + Stats;
  readlinkSync : World -> string -> exn + string;
  realpathSync : World -> string -> exn + string;
  rmSync : string -> World -> option exn * World;
  spawnSync : string -> list string -> option string -> World -> SpawnResult * World;
  semver_valid : string -> bool;
  semver_validRange : string -> bool;
  semver_intersects : string -> string -> bool
}.

(** ** The effect monad of the script

    A computation reads and changes the world, emits events, and ends by
    returning, by throwing, or by [process.exit]. *)

Inductive outcome (A : Type) : Type :=
| Ret (a : A)
| Throw (e : exn)
| Halt (code : Z).

Arguments Ret {A} a.
Arguments Throw {A} e.
Arguments Halt {A} code.

Section Runtime.
Context `{E : Env}.

Definition M (A : Type) : Type := World -> outcome A * World * list event.

Definition ret {A} (a : A) : M A := fun w => (Ret a, w, []).

Definition bind {A B} (m : M A) (k : A -> M B) : M B := fun w =>
  match m w with
  | (Ret a, w1, t1) => let '(r, w2, t2) := k a w1 in (r, w2, t1 ++ t2)
  | (Throw e, w1, t1) => (Throw e, w1, t1)
  | (Halt c, w1, t1) => (Halt c, w1, t1)
  end.

Definition throw {A} (e : exn) : M A := fun w => (Throw e, w, []).

(** [process.exit(code)]: no handler catches it. *)
Definition exit {A} (code : Z) : M A := fun w => (Halt code, w, []).

(** [try { body } catch (e) { handler e }]. *)
Definition try_catch {A} (body : M A) (handler : exn -> M A) : M A := fun w =>
  match body w with
  | (Throw e, w1, t1) => let '(r, w2, t2) := handler e w1 in (r, w2, t1 ++ t2)
  | r => r
  end.

Definition emit (ev : event) : M unit := fun w => (Ret tt, w, [ev]).

(** A synchronous read of the file system. *)
Definition read {A} (f : World -> A) : M A := fun w => (Ret (f w), w, []).

Definition read_or_throw {A} (f : World -> exn + A) : M A := fun w =>
  match f w with
  | inl e => (Throw e, w, [])
  | inr a => (Ret a, w, [])
  end.

End Runtime.

Declare Scope js_scope.
Delimit Scope js_scope with js.
Notation "'let!' x ':=' m 'in' k" := (bind m (fun x => k))
  (at level 10, x name, m at level 100, k at level 200) : js_scope.
Notation "m ';;' k" := (bind m (fun _ => k))
  (at level 100, k at level 200, right associativity) : js_scope.
Local Open Scope js_scope.

Definition when `{E : Env} (b : bool) (m : M unit) : M unit := if b then m else ret tt.

(** ** Helpers shared by the two variants *)

Section Helpers.
Context `{E : Env}.

Definition npmExe : string := if isWin then "npm.cmd" else "npm".

Definition log (n : notice) : M unit := emit (Log n).
Definition warn (n : notice) : M unit := emit (Warn n).

(** [spawnSync(cmd, args, { ..., ...opts })], waited for. *)
Definition spawn_sync (cmd : string) (args : list string) (dir : option string) : M SpawnResult :=
  fun w => let '(res, w') := spawnSync cmd args dir w in (Ret res, w', [Spawned cmd args dir]).

Definition succeeded (res : SpawnResult) : bool :=
  match status res with Some 0%Z => true | _ => false end.

Definition run (cmd : string) (args : list string) (dir : option string) : M unit :=
  let! res := spawn_sync cmd args dir in
  if succeeded res then ret tt else throw (CommandFailed cmd args "").

Definition runCapture (cmd : string) (args : list string) (dir : option string) : M string :=
  let! res := spawn_sync cmd args dir in
  if succeeded res then ret (trim (stdout res))
  else
    let msg := if str_nonempty (stderr res) then stderr res else stdout res in
    throw (CommandFailed cmd args msg).

Definition readJson (p : string) : M Manifest := read_or_throw (fun w => readFileJson w p).

Definition realEquals (aPath bPath : string) : M bool :=
  try_catch
    (let! a := read_or_throw (fun w => realpathSync w aPath) in
     let! b := read_or_throw (fun w => realpathSync w bPath) in
     ret (String.eqb a b))
    (fun _ => ret false).

Definition isSymlinkTo (linkPath expectedTargetAbs : string) : M bool :=
  try_catch
    (let! st := read_or_throw (fun w => lstatSync w linkPath) in
     if negb (isSymbolicLink st) then ret false
     else
       let! link := read_or_throw (fun w => readlinkSync w linkPath) in
       let resolved := path_resolve [path_dirname linkPath; link] in
       realEquals resolved expectedTargetAbs)
    (fun _ => ret false).

Definition npmRootGlobal : M string :=
  let! prefix := runCapture npmExe ["config"; "get"; "prefix"] None in
  ret (path_join [prefix; "node_modules"]).

Definition missingLine (name range : string) : string := name ++ "@" ++ range.

Definition outOfRangeLine (name installed range : string) : string :=
  name ++ " (app has " ++ installed ++ ", lib expects " ++ range ++ ")".

(** The [for ... of Object.entries(libPkg.peerDependencies)] loop, with its
    two arrays. *)
Fixpoint peerLoop (appDeps : gmap string string) (entries : list (string * string))
    (missing outOfRange : list string) : list string * list string :=
  match entries with
  | [] => (missing, outOfRange)
  | (name, range) :: rest =>
      match appDeps !! name with
      | None => peerLoop appDeps rest (missing ++ [missingLine name range]) outOfRange
      | Some installed =>
          if negb (str_nonempty installed) then
            peerLoop appDeps rest (missing ++ [missingLine name range]) outOfRange
          else if semver_validRange range && semver_validRange installed then
            if negb (semver_intersects range installed) then
              peerLoop appDeps rest missing
                (outOfRange ++ [outOfRangeLine name installed range])
            else peerLoop appDeps rest missing outOfRange
          else peerLoop appDeps rest missing outOfRange
      end
  end.

Definition nonempty {A} (l : list A) : bool :=
  match l with [] => false | _ :: _ => true end.

Definition warnPeerDeps (appPkg libPkg : Manifest) : M unit :=
  match peerDependencies libPkg with
  | None => ret tt
  | Some entries =>
      let appDeps :=
        spread3 (dependencies appPkg) (devDependencies appPkg) (optionalDependencies appPkg) in
      let '(missing, outOfRange) := peerLoop appDeps entries [] [] in
      when (nonempty missing) (warn (NMissingPeers missing)) ;;
      when (nonempty outOfRange) (warn (NPeerMismatch outOfRange))
  end.

(** The [installArgs] array of the unlink flow, the same in both variants.
    [originalSpec.startsWith] exists on strings only. *)
Definition installArgs (appPkg : Manifest) (libName : string) : exn + list string :=
  let inDeps := has_key (dependencies appPkg) libName in
  let inDevDeps := has_key (devDependencies appPkg) libName in
  let originalSpec :=
    js_or (js_or (js_and inDeps (member (dependencies appPkg) libName))
                 (js_and inDevDeps (member (devDependencies appPkg) libName)))
          JNull in
  let installArgs := ["install"] in
  let installArgs :=
    if truthy inDevDeps then installArgs ++ ["--save-dev"]
    else installArgs ++ ["--save-prod"] in
  if truthy originalSpec then
    match originalSpec with
    | JStr spec =>
        if negb (startsWith spec "file:") then
          let installArgs := installArgs ++ [(libName ++ "@" ++ spec)%string] in
          let isExact := semver_valid spec || hyphen_word spec in
          if isExact then inr (installArgs ++ ["--save-exact"]) else inr installArgs
        else inr (installArgs ++ [libName])
    | _ => inl TypeError
    end
  else inr (installArgs ++ [libName]).

(** [fs.rmSync(p, { recursive: true, force: true })]. *)
Definition rm (p : string) : M unit := fun w =>
  let '(r, w') := rmSync p w in
  (match r with Some e => Throw e | None => Ret tt end, w', [Removed p]).

(** [spawn(cmd, args, { cwd, stdio: 'inherit', shell })]: the child is
    started and not waited for. *)
Definition spawn (cmd : string) (args : list string) (dir : string) (shell : bool) : M unit :=
  emit (Watcher cmd args dir shell).

Definition slotOf (linked present : bool) : slot :=
  if linked then SlotLinked else if present then SlotElsewhere else SlotAbsent.

(** The [.catch] of the top level: a rejection prints the error and exits
    with 1; a normal return leaves the exit code 0. *)
Definition toplevel (body : M unit) (w : World) : Z * World * list event :=
  match body w with
  | (Ret _, w', t) => (0%Z, w', t)
  | (Throw e, w', t) => (1%Z, w', t ++ [Error (NFatal e)])
  | (Halt c, w', t) => (c, w', t)
  end.

End Helpers.

(** ** [src/index.js] *)

Module Index.

(** The constants [main] computes before it branches. *)
Record Ctx : Type := {
  appDir : string;
  libDir : string;
  appPkg : Manifest;
  libPkg : Manifest;
  libName : string;
  appNodeModulesLib : string;
  globalLinkPath : string;
  doWatch : bool;
  doUnlink : bool;
  doUnlinkGlobal : bool
}.

Section Main.
Context `{E : Env}.

Definition usageAndExit : M unit := log NUsage ;; exit 1.

(** [main] up to [// --- unlink flows ---], on [process.argv.slice(2)]. *)
Definition setup (args : list string) : M Ctx :=
  when (length args <? 1)%nat usageAndExit ;;
  let appDir := cwd in
  let libRel := stripTrailingSeps (nth 0 args "") in
  let doWatch := includes args "--watch" in
  let doUnlink := includes args "--unlink" in
  let doUnlinkGlobal := includes args "--unlink-global" in
  let libDir := path_resolve [appDir; libRel] in
  let appPkgPath := path_join [appDir; "package.json"] in
  let libPkgPath := path_join [libDir; "package.json"] in
  let! appOk := read (fun w => existsSync w appPkgPath) in
  if negb appOk then throw (NoAppManifest appDir)
  else
    let! libOk := read (fun w => existsSync w libPkgPath) in
    if negb libOk then throw (NoLibManifest libDir)
    else
      let! appPkg := readJson appPkgPath in
      let! libPkg := readJson libPkgPath in
      match name libPkg with
      | None => throw (NoLibName libPkgPath)
      | Some libName =>
          if negb (str_nonempty libName) then throw (NoLibName libPkgPath)
          else
            let appNodeModulesLib := path_join [appDir; "node_modules"; libName] in
            let! globalRoot := npmRootGlobal in
            let globalLinkPath := path_join [globalRoot; libName] in
            ret {| appDir := appDir; libDir := libDir; appPkg := appPkg; libPkg := libPkg;
                   libName := libName; appNodeModulesLib := appNodeModulesLib;
                   globalLinkPath := globalLinkPath; doWatch := doWatch;
                   doUnlink := doUnlink; doUnlinkGlobal := doUnlinkGlobal |}
      end.

(** The block [if (doUnlinkGlobal) { ... }]. *)
Definition unlinkGlobal (c : Ctx) : M unit :=
  log (NRemovingGlobal (libName c)) ;;
  try_catch (run npmExe ["unlink"; "-g"; libName c] (Some (appDir c)))
            (fun e => warn (NGlobalUnlinkFailed (libName c) e)) ;;
  try_catch (let! present := read (fun w => existsSync w (globalLinkPath c)) in
             when present (rm (globalLinkPath c)))
            (fun e => warn (NCleanupFailed e)) ;;
  log NGlobalRemoved.

(** The block [// --- unlink flows ---]. *)
Definition unlinkFlow (c : Ctx) : M unit :=
  log (NUnlinking (libName c)) ;;
  try_catch (run npmExe ["unlink"; libName c] (Some (appDir c)))
            (fun e => warn (NUnlinkFailed (libName c) e)) ;;
  let! args := read_or_throw (fun _ => installArgs (appPkg c) (libName c)) in
  log NReinstalling ;;
  run npmExe args (Some (appDir c)) ;;
  log NRestored ;;
  when (doUnlinkGlobal c) (unlinkGlobal c).

(** The block [// --- detection ---] with its status banner. *)
Definition detect (c : Ctx) : M (bool * bool * bool) :=
  let! globalIsLinkedToLib := isSymlinkTo (globalLinkPath c) (libDir c) in
  let! appIsLinkedToLib := isSymlinkTo (appNodeModulesLib c) (libDir c) in
  let! appPresent := read (fun w => existsSync w (appNodeModulesLib c)) in
  let appHasInstalledFolder := appPresent && negb appIsLinkedToLib in
  let! globalPresent :=
    if globalIsLinkedToLib then ret false
    else read (fun w => existsSync w (globalLinkPath c)) in
  log (NStatus (slotOf globalIsLinkedToLib globalPresent)
               (slotOf appIsLinkedToLib appHasInstalledFolder)) ;;
  ret (globalIsLinkedToLib, appIsLinkedToLib, appHasInstalledFolder).

(** The block [// --- ensure global link ---]. *)
Definition ensureGlobalLink (c : Ctx) (globalIsLinkedToLib : bool) : M unit :=
  if negb globalIsLinkedToLib then
    log (NCreatingGlobal (libName c)) ;;
    run npmExe ["link"] (Some (libDir c)) ;;
    log NGlobalReady
  else log NGlobalAlreadySet.

(** The block [// --- ensure app link ---]. *)
Definition ensureAppLink (c : Ctx) (appIsLinkedToLib appHasInstalledFolder : bool) : M unit :=
  if appIsLinkedToLib then log NAppAlreadyLinked
  else
    when appHasInstalledFolder
      (log (NRemovingInstall (appNodeModulesLib c)) ;;
       try_catch (rm (appNodeModulesLib c)) (fun e => warn (NCleanupFailed e))) ;;
    log (NLinking (libName c)) ;;
    try_catch (run npmExe ["link"; libName c] (Some (appDir c)))
      (fun _ =>
         warn (NFirstLinkFailed (libName c)) ;;
         try_catch (run npmExe ["unlink"; libName c] (Some (appDir c)))
                   (fun e => warn (NUnlinkFailed (libName c) e)) ;;
         run npmExe ["link"; libName c] (Some (appDir c))) ;;
    let! ok := isSymlinkTo (appNodeModulesLib c) (libDir c) in
    if ok then log (NVerified (libName c) (libDir c)) else warn NVerifyFailed.

Definition startWatcher (c : Ctx) : M unit :=
  when (doWatch c)
    (log NStartingWatcher ;;
     spawn npmExe ["run"; "build"; "--"; "--watch"] (libDir c) true).

(** [main] from [// --- detection ---] on, for a run without [--unlink]. *)
Definition linkFlow (c : Ctx) : M unit :=
  let! d := detect c in
  let '(globalIsLinkedToLib, appIsLinkedToLib, appHasInstalledFolder) := d in
  ensureGlobalLink c globalIsLinkedToLib ;;
  ensureAppLink c appIsLinkedToLib appHasInstalledFolder ;;
  warnPeerDeps (appPkg c) (libPkg c) ;;
  startWatcher c.

Definition main (args : list string) : M unit :=
  let! c := setup args in
  if doUnlink c then unlinkFlow c else linkFlow c.

(** The process: [main] under the top-level [.catch]. *)
Definition process (args : list string) (w : World) : Z * World * list event :=
  toplevel (main args) w.

End Main.
End Index.

(** ** [src/unnamed/part_000] *)

Module Part000.

Record Ctx : Type := {
  appDir : string;
  libDir : string;
  appPkg : Manifest;
  libPkg : Manifest;
  libName : string;
  appNodeModulesLib : string;
  doWatch : bool;
  doUnlink : bool;
  doUnlinkGlobal : bool
}.

Section Main.
Context `{E : Env}.

Definition usageAndExit : M unit := log NUsage ;; exit 1.

(** [main] up to [// ---------- unlink flow ----------]. *)
Definition setup (args : list string) : M Ctx :=
  when (length args <? 2)%nat usageAndExit ;;
  let appDir := path_resolve [cwd; nth 0 args ""] in
  let libDir := path_resolve [cwd; nth 1 args ""] in
  let doWatch := includes args "--watch" in
  let doUnlink := includes args "--unlink" in
  let doUnlinkGlobal := includes args "--unlink-global" in
  let appPkgPath := path_join [appDir; "package.json"] in
  let libPkgPath := path_join [libDir; "package.json"] in
  let! appOk := read (fun w => existsSync w appPkgPath) in
  if negb appOk then throw (NoAppManifest appDir)
  else
    let! libOk := read (fun w => existsSync w libPkgPath) in
    if negb libOk then throw (NoLibManifest libDir)
    else
      let! appPkg := readJson appPkgPath in
      let! libPkg := readJson libPkgPath in
      match name libPkg with
      | None => throw (NoLibName libPkgPath)
      | Some libName =>
          if negb (str_nonempty libName) then throw (NoLibName libPkgPath)
          else
            let appNodeModulesLib := path_join [appDir; "node_modules"; libName] in
            ret {| appDir := appDir; libDir := libDir; appPkg := appPkg; libPkg := libPkg;
                   libName := libName; appNodeModulesLib := appNodeModulesLib;
                   doWatch := doWatch; doUnlink := doUnlink;
                   doUnlinkGlobal := doUnlinkGlobal |}
      end.

(** The block [if (doUnlinkGlobal) { ... }]. *)
Definition unlinkGlobal (c : Ctx) : M unit :=
  log (NRemovingGlobal (libName c)) ;;
  try_catch (run npmExe ["unlink"; "-g"; libName c] None)
            (fun e => warn (NGlobalUnlinkFailed (libName c) e)) ;;
  log NGlobalRemoved.

(** The block [// ---------- unlink flow ----------]. *)
Definition unlinkFlow (c : Ctx) : M unit :=
  log (NUnlinking (libName c)) ;;
  try_catch (run npmExe ["unlink"; libName c] (Some (appDir c)))
            (fun e => warn (NUnlinkFailed (libName c) e)) ;;
  let! args := read_or_throw (fun _ => installArgs (appPkg c) (libName c)) in
  log NReinstalling ;;
  run npmExe args (Some (appDir c)) ;;
  log NRestored ;;
  when (doUnlinkGlobal c) (unlinkGlobal c).

(** The block [// ---------- detection (app link) ----------]. *)
Definition detect (c : Ctx) : M (bool * bool) :=
  let! appIsLinkedToLib := isSymlinkTo (appNodeModulesLib c) (libDir c) in
  let! appPresent := read (fun w => existsSync w (appNodeModulesLib c)) in
  let appHasInstalledFolder := appPresent && negb appIsLinkedToLib in
  log (NStatusApp (slotOf appIsLinkedToLib appHasInstalledFolder)) ;;
  ret (appIsLinkedToLib, appHasInstalledFolder).

(** The block [// ---------- ensure global link ----------]. *)
Definition ensureGlobalLink (c : Ctx) : M unit :=
  try_catch
    (log NEnsuringGlobal ;;
     run npmExe ["link"] (Some (libDir c)) ;;
     log NGlobalReady)
    (fun e => warn (NGlobalLinkError e)).

(** The block [// ---------- ensure app link ----------]. *)
Definition ensureAppLink (c : Ctx) (appIsLinkedToLib appHasInstalledFolder : bool) : M unit :=
  if appIsLinkedToLib then log NAppAlreadyLinked
  else
    when appHasInstalledFolder
      (log (NRemovingInstall (appNodeModulesLib c)) ;;
       try_catch (rm (appNodeModulesLib c)) (fun e => warn (NCleanupFailed e))) ;;
    log (NLinking (libName c)) ;;
    try_catch (run npmExe ["link"; libName c] (Some (appDir c)))
      (fun _ =>
         warn (NFirstLinkFailed (libName c)) ;;
         try_catch (run npmExe ["unlink"; libName c] (Some (appDir c))) (fun _ => ret tt) ;;
         run npmExe ["link"; libName c] (Some (appDir c))) ;;
    let! ok := isSymlinkTo (appNodeModulesLib c) (libDir c) in
    if ok then log (NVerified (libName c) (libDir c)) else warn NVerifyFailed.

Definition startWatcher (c : Ctx) : M unit :=
  when (doWatch c)
    (log NStartingWatcher ;;
     spawn npmExe ["run"; "build"; "--"; "--watch"] (libDir c) false).

(** [main] from the detection on, for a run without [--unlink]. *)
Definition linkFlow (c : Ctx) : M unit :=
  let! d := detect c in
  let '(appIsLinkedToLib, appHasInstalledFolder) := d in
  ensureGlobalLink c ;;
  ensureAppLink c appIsLinkedToLib appHasInstalledFolder ;;
  warnPeerDeps (appPkg c) (libPkg c) ;;
  startWatcher c.

Definition main (args : list string) : M unit :=
  let! c := setup args in
  if doUnlink c then unlinkFlow c else linkFlow c.

(** The process: [main] under the top-level [.catch]. *)
Definition process (args : list string) (w : World) : Z * World * list event :=
  toplevel (main args) w.

End Main.
End Part000.

(** ** A fragment of the [semver] package

    The theorems below hold for every [Env], whatever its three [semver]
    functions are.  To run the script on concrete manifests, this module
    decides the package's answers on a fragment of its input language:
    versions [X.Y.Z] with an optional prerelease and build part, and the
    ranges [*], the empty string, [X.Y.Z], [^X.Y.Z] and [~X.Y.Z].  It
    rejects every other string, so it answers as the package does on the
    fragment and on the strings the package rejects, and the runs below stay
    within those. *)

Module Semver.

Definition is_digit (c : ascii) : bool := between "0" "9" c.

Fixpoint all_chars (p : ascii -> bool) (s : string) : bool :=
  match s with
  | EmptyString => true
  | String c rest => p c && all_chars p rest
  end.

Fixpoint digits_value (s : string) (acc : N) : N :=
  match s with
  | EmptyString => acc
  | String c rest => digits_value rest (acc * 10 + (N_of_ascii c - 48))%N
  end.

(** A numeric identifier: [0], or digits without a leading zero. *)
Definition numeric (s : string) : option N :=
  match s with
  | EmptyString => None
  | String c rest =>
      if all_chars is_digit s && (negb (Ascii.eqb c "0") || negb (str_nonempty rest))
      then Some (digits_value s 0%N) else None
  end.

Fixpoint split (sep : ascii) (s : string) : list string :=
  match s with
  | EmptyString => [EmptyString]
  | String c rest =>
      if Ascii.eqb c sep then EmptyString :: split sep rest
      else
        match split sep rest with
        | piece :: pieces => String c piece :: pieces
        | [] => [String c EmptyString]
        end
  end.

(** [s] cut at the first occurrence of [sep]. *)
Fixpoint cut (sep : ascii) (s : string) : string * option string :=
  match s with
  | EmptyString => (EmptyString, None)
  | String c rest =>
      if Ascii.eqb c sep then (EmptyString, Some rest)
      else let '(a, b) := cut sep rest in (String c a, b)
  end.

Definition core (s : string) : option (N * N * N) :=
  match split "." s with
  | [a; b; c] =>
      match numeric a, numeric b, numeric c with
      | Some x, Some y, Some z => Some (x, y, z)
      | _, _, _ => None
      end
  | _ => None
  end.

Definition is_ident_char (c : ascii) : bool :=
  between "a" "z" c || between "A" "Z" c || is_digit c || Ascii.eqb c "-".

Definition prerelease_ident (s : string) : bool :=
  str_nonempty s && all_chars is_ident_char s
  && (negb (all_chars is_digit s) || bool_decide (is_Some (numeric s))).

Definition build_ident (s : string) : bool :=
  str_nonempty s && all_chars is_ident_char s.

(** Truthiness of [semver.valid(s)]. *)
Definition valid (s : string) : bool :=
  let '(main, build) := cut "+" s in
  let '(c, pre) := cut "-" main in
  bool_decide (is_Some (core c))
  && match pre with None => true | Some p => forallb prerelease_ident (split "." p) end
  && match build with None => true | Some b => forallb build_ident (split "." b) end.

Definition triple_lt (a b : N * N * N) : bool :=
  let '(a1, a2, a3) := a in
  let '(b1, b2, b3) := b in
  (a1 <? b1)%N || ((a1 =? b1)%N && ((a2 <? b2)%N || ((a2 =? b2)%N && (a3 <? b3)%N))).

(** A range of the fragment: the versions from [lo] up to, not including,
    [hi]; no [hi] means no upper bound. *)
Definition interval : Type := (N * N * N) * option (N * N * N).

Definition caret (v : N * N * N) : interval :=
  let '(x, y, z) := v in
  if (0 <? x)%N then (v, Some ((x + 1)%N, 0%N, 0%N))
  else if (0 <? y)%N then (v, Some (0%N, (y + 1)%N, 0%N))
  else (v, Some (0%N, 0%N, (z + 1)%N)).

Definition tilde (v : N * N * N) : interval :=
  let '(x, y, z) := v in (v, Some (x, (y + 1)%N, 0%N)).

Definition exactly (v : N * N * N) : interval :=
  let '(x, y, z) := v in (v, Some (x, y, (z + 1)%N)).

Definition range (s : string) : option interval :=
  match s with
  | EmptyString => Some ((0%N, 0%N, 0%N), None)
  | String c rest =>
      if Ascii.eqb c "*" then
        if str_nonempty rest then None else Some ((0%N, 0%N, 0%N), None)
      else if Ascii.eqb c "^" then caret <$> core rest
      else if Ascii.eqb c "~" then tilde <$> core rest
      else exactly <$> core s
  end.

(** Truthiness of [semver.validRange(s)]. *)
Definition validRange (s : string) : bool := bool_decide (is_Some (range s)).

Definition below (lo : N * N * N) (hi : option (N * N * N)) : bool :=
  match hi with None => true | Some h => triple_lt lo h end.

(** [semver.intersects(r1, r2)]. *)
Definition intersects (r1 r2 : string) : bool :=
  match range r1, range r2 with
  | Some (lo1, hi1), Some (lo2, hi2) => below lo1 hi2 && below lo2 hi1
  | _, _ => false
  end.

End Semver.

(** ** A small world to run the script in

    A flat file system (a path names a node, and only the node itself may be
    a link), POSIX paths, and a package manager that keeps its global
    aliases under [globalRoot] and fails on demand.  It instantiates [Env]
    for the runs that accompany the theorems. *)

Module Sim.

Inductive node : Type :=
| File (json : option Manifest)
| Dir
| Link (target : string).

Record world : Type := {
  fs : gmap string node;
  prefix : string;
  globalRoot : string;
  faults : list bool
}.

Definition push_segment (stack : list string) (seg : string) : list string :=
  if String.eqb seg "" || String.eqb seg "." then stack
  else if String.eqb seg ".." then tail stack
  else seg :: stack.

Definition segments (p : string) : list string :=
  rev (fold_left push_segment (Semver.split "/" p) []).

Definition normalize (p : string) : string := ("/" ++ join "/" (segments p))%string.

Definition sim_join (parts : list string) : string := normalize (join "/" parts).

Definition sim_resolve (parts : list string) : string :=
  normalize
    (fold_left (fun acc part => if startsWith part "/" then part else (acc ++ "/" ++ part)%string)
               parts "").

Definition sim_dirname (p : string) : string :=
  ("/" ++ join "/" (rev (tail (rev (segments p)))))%string.

Fixpoint realpath (fuel : nat) (files : gmap string node) (p : string) : exn + string :=
  match fuel with
  | O => inl (FsError "ELOOP")
  | S fuel' =>
      match files !! p with
      | None => inl (FsError "ENOENT")
      | Some (Link target) => realpath fuel' files (sim_resolve [sim_dirname p; target])
      | Some _ => inr p
      end
  end.

Definition sim_realpath (w : world) (p : string) : exn + string :=
  realpath 16 (fs w) (normalize p).

Definition sim_exists (w : world) (p : string) : bool :=
  match sim_realpath w p with inr _ => true | inl _ => false end.

Definition sim_lstat (w : world) (p : string) : exn + Stats :=
  match fs w !! normalize p with
  | None => inl (FsError "ENOENT")
  | Some (Link _) => inr {| isSymbolicLink := true |}
  | Some _ => inr {| isSymbolicLink := false |}
  end.

Definition sim_readlink (w : world) (p : string) : exn + string :=
  match fs w !! normalize p with
  | None => inl (FsError "ENOENT")
  | Some (Link target) => inr target
  | Some _ => inl (FsError "EINVAL")
  end.

Definition sim_readJson (w : world) (p : string) : exn + Manifest :=
  match sim_realpath w p with
  | inl e => inl e
  | inr q =>
      match fs w !! q with
      | Some (File (Some m)) => inr m
      | Some (File None) => inl JsonError
      | _ => inl (FsError "EISDIR")
      end
  end.

Definition with_fs (w : world) (files : gmap string node) : world :=
  {| fs := files; prefix := prefix w; globalRoot := globalRoot w; faults := faults w |}.

Definition under (p q : string) : bool :=
  String.eqb q p || startsWith q (p ++ "/").

Definition sim_rm (p : string) (w : world) : option exn * world :=
  (None, with_fs w (filter (fun kv => under (normalize p) kv.1 = false) (fs w))).

Definition ok (out : string) : SpawnResult :=
  {| status := Some 0%Z; stdout := out; stderr := "" |}.

Definition failed : SpawnResult :=
  {| status := Some 1%Z; stdout := ""; stderr := "npm error" |}.

Definition newline : string := String (ascii_of_nat 10) EmptyString.

(** The package named by an argument of [npm install]: the text before the
    last [@], unless that [@] opens a scope. *)
Definition package_of (arg : string) : string :=
  match rev (Semver.split "@" arg) with
  | _ :: (_ :: _) as front =>
      let n := join "@" (rev front) in if str_nonempty n then n else arg
  | _ => arg
  end.

(** What the package manager does for one command. *)
Definition npm (args : list string) (dir : option string) (w : world) : SpawnResult * world :=
  match args, dir with
  | ["config"; "get"; "prefix"], _ => (ok (prefix w ++ newline), w)
  | ["link"], Some d =>
      match sim_readJson w (sim_join [d; "package.json"]) with
      | inr {| name := Some n |} =>
          (ok "", with_fs w (<[sim_join [globalRoot w; n] := Link d]> (fs w)))
      | _ => (failed, w)
      end
  | ["link"; n], Some d =>
      if sim_exists w (sim_join [globalRoot w; n]) then
        (ok "", with_fs w (<[sim_join [d; "node_modules"; n] := Link (sim_join [globalRoot w; n])]>
                             (fs w)))
      else (failed, w)
  | ["unlink"; "-g"; n], _ => (ok "", with_fs w (delete (sim_join [globalRoot w; n]) (fs w)))
  | ["unlink"; n], Some d =>
      (ok "", with_fs w (delete (sim_join [d; "node_modules"; n]) (fs w)))
  | "install" :: rest, Some d =>
      match filter (fun a => startsWith a "--" = false) rest with
      | [arg] =>
          (ok "", with_fs w (<[sim_join [d; "node_modules"; package_of arg] := Dir]>
                               (snd (sim_rm (sim_join [d; "node_modules"; package_of arg]) w)).(fs)))
      | _ => (failed, w)
      end
  | _, _ => (failed, w)
  end.

Definition sim_spawnSync (cmd : string) (args : list string) (dir : option string)
    (w : world) : SpawnResult * world :=
  if negb (String.eqb cmd "npm") then
    ({| status := None; stdout := ""; stderr := "" |}, w)
  else
    match faults w with
    | true :: rest =>
        (failed, {| fs := fs w; prefix := prefix w; globalRoot := globalRoot w; faults := rest |})
    | later =>
        npm args dir
          {| fs := fs w; prefix := prefix w; globalRoot := globalRoot w; faults := tail later |}
    end.

Definition env : Env := {|
  World := world;
  isWin := false;
  cwd := "/work/app";
  path_join := sim_join;
  path_resolve := sim_resolve;
  path_dirname := sim_dirname;
  existsSync := sim_exists;
  readFileJson := sim_readJson;
  lstatSync := sim_lstat;
  readlinkSync := sim_readlink;
  realpathSync := sim_realpath;
  rmSync := sim_rm;
  spawnSync := sim_spawnSync;
  semver_valid := Semver.valid;
  semver_validRange := Semver.validRange;
  semver_intersects := Semver.intersects
|}.

(** The manifests and worlds of the scenarios. *)
Definition manifest (n : string) : Manifest :=
  {| name := Some n; dependencies := None; devDependencies := None;
     optionalDependencies := None; peerDependencies := None |}.

Definition app_declaring (deps dev opt : option (gmap string string)) : Manifest :=
  {| name := Some "app"; dependencies := deps; devDependencies := dev;
     optionalDependencies := opt; peerDependencies := None |}.

Definition lib_expecting (peers : list (string * string)) : Manifest :=
  {| name := Some "widgets"; dependencies := None; devDependencies := None;
     optionalDependencies := None; peerDependencies := Some peers |}.

(** An application in [/work/app] and the library [widgets] in
    [/work/widgets], nothing linked or installed. *)
Definition world_of (app lib : Manifest) (root : string) (fail : list bool) : world :=
  {| fs := {[ "/work/app" := Dir;
              "/work/app/package.json" := File (Some app);
              "/work/widgets" := Dir;
              "/work/widgets/package.json" := File (Some lib) ]};
     prefix := "/usr/local";
     globalRoot := root;
     faults := fail |}.

Definition fresh (root : string) (fail : list bool) : world :=
  world_of (manifest "app") (manifest "widgets") root fail.

(** The same world with other answers to come from the package manager. *)
Definition failing (fail : list bool) (w : world) : world :=
  {| fs := fs w; prefix := prefix w; globalRoot := globalRoot w; faults := fail |}.

(** The world a run leaves. *)
Definition after (r : Z * world * list event) : world := r.1.2.

(** The same world with one more node. *)
Definition put (p : string) (n : node) (w : world) : world := with_fs w (<[p := n]> (fs w)).

End Sim.

(** ** Vocabulary of the statements *)

(** What a section of the application manifest declares for a package. *)
Definition declared (sec : option (gmap string string)) (pkg : string) : option string :=
  match sec with
  | None => None
  | Some m => m !! pkg
  end.

Definition nonblank (o : option string) : option string :=
  match o with
  | Some s => if str_nonempty s then Some s else None
  | None => None
  end.

(** The spec the restore step works with: the [dependencies] string of the
    library unless it is missing or empty, else the [devDependencies]
    string unless that is missing or empty. *)
Definition originalSpec (appPkg : Manifest) (lib : string) : option string :=
  match nonblank (declared (dependencies appPkg) lib) with
  | Some s => Some s
  | None => nonblank (declared (devDependencies appPkg) lib)
  end.

Definition sectionFlag (appPkg : Manifest) (lib : string) : string :=
  match declared (devDependencies appPkg) lib with
  | Some _ => "--save-dev"
  | None => "--save-prod"
  end.

(** The merged declaration the peer check compares with. *)
Definition installedFor (appPkg : Manifest) (pkg : string) : option string :=
  spread3 (dependencies appPkg) (devDependencies appPkg) (optionalDependencies appPkg) !! pkg.

(** The synchronous commands of a trace, in order. *)
Definition commands (t : list event) : list event :=
  List.filter (fun ev => match ev with Spawned _ _ _ => true | _ => false end) t.

(** The direct removals of a trace. *)
Definition removals (t : list event) : list event :=
  List.filter (fun ev => match ev with Removed _ => true | _ => false end) t.

Section Vocabulary.
Context `{E : Env}.

(** The answer of [isSymlinkTo] in a world. *)
Definition linkedTo (w : World) (linkPath target : string) : bool :=
  match isSymlinkTo linkPath target w with
  | (Ret b, _, _) => b
  | _ => false
  end.

(** The outcome of the loop body of [warnPeerDeps] for one entry. *)
Inductive verdict : Type := Missing | OutOfRange | Quiet.

Definition peerVerdict (installed : option string) (range : string) : verdict :=
  match nonblank installed with
  | None => Missing
  | Some inst =>
      if semver_validRange range && semver_validRange inst then
        if semver_intersects range inst then Quiet else OutOfRange
      else Quiet
  end.

Definition missingLines (appPkg : Manifest) (entries : list (string * string)) : list string :=
  omap (fun '(pkg, range) =>
          match peerVerdict (installedFor appPkg pkg) range with
          | Missing => Some (missingLine pkg range)
          | _ => None
          end) entries.

Definition outOfRangeLines (appPkg : Manifest) (entries : list (string * string)) : list string :=
  omap (fun '(pkg, range) =>
          match peerVerdict (installedFor appPkg pkg) range, installedFor appPkg pkg with
          | OutOfRange, Some inst => Some (outOfRangeLine pkg inst range)
          | _, _ => None
          end) entries.

Definition peerWarnings (appPkg libPkg : Manifest) : list event :=
  match peerDependencies libPkg with
  | None => []
  | Some entries =>
      (if nonempty (missingLines appPkg entries)
       then [Warn (NMissingPeers (missingLines appPkg entries))] else [])
      ++ (if nonempty (outOfRangeLines appPkg entries)
          then [Warn (NPeerMismatch (outOfRangeLines appPkg entries))] else [])
  end.

(** What the reinstall command is asked to install for a spec the restore
    step works with. *)
Definition restoreTarget (lib spec : string) : list string :=
  if startsWith spec "file:" then [lib]
  else [(lib ++ "@" ++ spec)%string]
       ++ (if semver_valid spec || hyphen_word spec then ["--save-exact"] else []).

(** The argument array of the reinstall command, in closed form. *)
Definition restoreArgs (appPkg : Manifest) (lib : string) : list string :=
  ["install"; sectionFlag appPkg lib]
  ++ match originalSpec appPkg lib with
     | None => [lib]
     | Some spec => restoreTarget lib spec
     end.

(** The removal of an installed copy ahead of the application link: the
    world it leaves and its events. *)
Definition cleanup (w : World) (slotPath : string) (has : bool) : World * list event :=
  if has then
    let '(failure, w') := rmSync slotPath w in
    (w', [Log (NRemovingInstall slotPath); Removed slotPath]
         ++ match failure with Some e => [Warn (NCleanupFailed e)] | None => [] end)
  else (w, []).

(** The events of the optional watcher launch. *)
Definition watcherEvents (lib : string) (shell watch : bool) : list event :=
  if watch then
    [Log NStartingWatcher; Watcher npmExe ["run"; "build"; "--"; "--watch"] lib shell]
  else [].

(** The last step of the application-link block: the verification notice. *)
Definition verifyNotice (w : World) (slotPath lib dir : string) : event :=
  if linkedTo w slotPath dir then Log (NVerified lib dir) else Warn NVerifyFailed.

End Vocabulary.

(** ** Vocabulary of the further statements *)

Fixpoint only_seps (s : string) : bool :=
  match s with
  | EmptyString => true
  | String c rest => is_sep c && only_seps rest
  end.

Fixpoint ends_with_sep (s : string) : bool :=
  match s with
  | EmptyString => false
  | String c EmptyString => is_sep c
  | String _ rest => ends_with_sep rest
  end.

Fixpoint only_spaces (s : string) : bool :=
  match s with
  | EmptyString => true
  | String c rest => is_space c && only_spaces rest
  end.

Definition starts_with_space (s : string) : bool :=
  match s with
  | EmptyString => false
  | String c _ => is_space c
  end.

Fixpoint ends_with_space (s : string) : bool :=
  match s with
  | EmptyString => false
  | String c EmptyString => is_space c
  | String _ rest => ends_with_space rest
  end.

(** The fatal errors and the watcher launches of a trace. *)
Definition errors (t : list event) : list event :=
  List.filter (fun ev => match ev with Error _ => true | _ => false end) t.

Definition watchers (t : list event) : list event :=
  List.filter (fun ev => match ev with Watcher _ _ _ _ => true | _ => false end) t.

Section Alphabets.
Context `{E : Env}.

(** A computation whose events all satisfy [P] and that never calls
    [process.exit]. *)
Definition behaves {A} (P : event -> Prop) (m : M A) : Prop :=
  forall w, Forall P (m w).2 /\ (forall code, (m w).1.1 <> Halt code).

(** The events a link flow may produce, for a library [lib] in [libDir], an
    application in [appDir] and its slot [slotPath]. *)
Definition link_event (lib appDir libDir slotPath : string) (shell : bool)
    (ev : event) : Prop :=
  match ev with
  | Log _ | Warn _ => True
  | Spawned cmd args dir =>
      cmd = npmExe
      /\ ((args = ["link"] /\ dir = Some libDir)
          \/ (args = ["link"; lib] /\ dir = Some appDir)
          \/ (args = ["unlink"; lib] /\ dir = Some appDir))
  | Removed p => p = slotPath
  | Watcher cmd args dir sh =>
      cmd = npmExe /\ args = ["run"; "build"; "--"; "--watch"] /\ dir = libDir /\ sh = shell
  | Error _ => False
  end.

(** The events an unlink flow may produce; [globalDir] is the working
    directory of the global unlink and [globalPath] the path the flow may
    remove itself, if any. *)
Definition unlink_event (lib appDir : string) (reinstall : list string)
    (globalDir : option string) (globalPath : option string) (ev : event) : Prop :=
  match ev with
  | Log _ => True
  | Warn (NUnlinkFailed _ _) | Warn (NGlobalUnlinkFailed _ _) | Warn (NCleanupFailed _) => True
  | Warn _ => False
  | Spawned cmd args dir =>
      cmd = npmExe
      /\ ((args = ["unlink"; lib] /\ dir = Some appDir)
          \/ (args = reinstall /\ dir = Some appDir)
          \/ (args = ["unlink"; "-g"; lib] /\ dir = globalDir))
  | Removed p => globalPath = Some p
  | Watcher _ _ _ _ => False
  | Error _ => False
  end.


End Alphabets.

(** * Properties *)

Section InstallArgs.
Context `{E : Env}.

Lemma has_key_truthy (sec : option (gmap string string)) (k : string) :
  truthy (has_key sec k) = bool_decide (is_Some (declared sec k)).
Proof. destruct sec as [m|]; reflexivity. Qed.

Lemma guarded_member (sec : option (gmap string string)) (k : string) :
  js_and (has_key sec k) (member sec k) =
    match declared sec k with
    | Some s => JStr s
    | None => has_key sec k
    end.
Proof.
  unfold js_and. rewrite has_key_truthy.
  destruct sec as [m|]; simpl; [|reflexivity].
  destruct (m !! k) as [s|] eqn:Hk; simpl; reflexivity.
Qed.

Lemma guarded_member_truthy (sec : option (gmap string string)) (k : string) :
  truthy (js_and (has_key sec k) (member sec k)) = bool_decide (is_Some (nonblank (declared sec k))).
Proof.
  rewrite guarded_member. destruct sec as [m|]; simpl; [|reflexivity].
  destruct (m !! k) as [s|] eqn:Hk; simpl.
  - destruct s; reflexivity.
  - reflexivity.
Qed.

(** The [||] chain yields the first non-empty declaration, else [null]. *)
Lemma originalSpec_chain (appPkg : Manifest) (lib : string) :
  js_or (js_or (js_and (has_key (dependencies appPkg) lib) (member (dependencies appPkg) lib))
               (js_and (has_key (devDependencies appPkg) lib)
                       (member (devDependencies appPkg) lib)))
        JNull =
    match originalSpec appPkg lib with
    | Some s => JStr s
    | None => JNull
    end
  /\ match originalSpec appPkg lib with Some s => str_nonempty s = true | None => True end.
Proof.
  unfold originalSpec, js_or.
  rewrite !guarded_member_truthy, !guarded_member.
  destruct (dependencies appPkg) as [d|], (devDependencies appPkg) as [v|]; simpl;
    repeat match goal with
           | |- context [?m !! lib] => destruct (m !! lib) as [[|? ?]|] eqn:?; simpl
           end; auto.
Qed.

Lemma sectionFlag_truthy (appPkg : Manifest) (lib : string) :
  (if truthy (has_key (devDependencies appPkg) lib) then ["install"] ++ ["--save-dev"]
   else ["install"] ++ ["--save-prod"]) = ["install"; sectionFlag appPkg lib].
Proof.
  rewrite has_key_truthy. unfold sectionFlag.
  destruct (declared (devDependencies appPkg) lib); reflexivity.
Qed.

(** [installArgs] never raises, and its array in closed form. *)
Lemma installArgs_closed_form (appPkg : Manifest) (lib : string) :
  installArgs appPkg lib = inr (restoreArgs appPkg lib).
Proof.
  unfold installArgs, restoreArgs, restoreTarget. rewrite sectionFlag_truthy.
  destruct (originalSpec_chain appPkg lib) as [-> Hne].
  destruct (originalSpec appPkg lib) as [spec|]; simpl; [|reflexivity].
  rewrite Hne.
  destruct (startsWith spec "file:"); simpl; [reflexivity|].
  destruct (semver_valid spec || hyphen_word spec); reflexivity.
Qed.

End InstallArgs.

Section Detection.
Context `{E : Env}.

Lemma realEquals_total (a b : string) (w : World) :
  exists r, realEquals a b w = (Ret r, w, [])
    /\ (r = true <->
        exists real, realpathSync w a = inr real /\ realpathSync w b = inr real).
Proof.
  unfold realEquals, try_catch, bind, read_or_throw, ret.
  destruct (realpathSync w a) as [ea|ra] eqn:Ha; simpl.
  - exists false. split; [reflexivity|]. split; [discriminate|].
    intros (real & Hr & _). discriminate.
  - destruct (realpathSync w b) as [eb|rb] eqn:Hb; simpl.
    + exists false. split; [reflexivity|]. split; [discriminate|].
      intros (real & _ & Hr). discriminate.
    + exists (String.eqb ra rb). split; [reflexivity|].
      rewrite String.eqb_eq. split.
      * intros ->. exists rb. split; reflexivity.
      * intros (real & Hr1 & Hr2). congruence.
Qed.

(** [isSymlinkTo] returns a boolean in every world, reads only, and says
    [true] exactly for a link whose resolved target has the real path of the
    expected target. *)
Lemma isSymlinkTo_total (linkPath target : string) (w : World) :
  exists r, isSymlinkTo linkPath target w = (Ret r, w, [])
    /\ (r = true <->
        exists st link real,
          lstatSync w linkPath = inr st /\ isSymbolicLink st = true
          /\ readlinkSync w linkPath = inr link
          /\ realpathSync w (path_resolve [path_dirname linkPath; link]) = inr real
          /\ realpathSync w target = inr real).
Proof.
  unfold isSymlinkTo, try_catch, bind, read_or_throw, ret.
  destruct (lstatSync w linkPath) as [e|st] eqn:Hst; simpl.
  - exists false. split; [reflexivity|]. split; [discriminate|].
    intros (? & ? & ? & ? & _). discriminate.
  - destruct (isSymbolicLink st) eqn:Hsym; simpl.
    + destruct (readlinkSync w linkPath) as [e|link] eqn:Hlink; simpl.
      * exists false. split; [reflexivity|]. split; [discriminate|].
        intros (? & ? & ? & _ & _ & ? & _). discriminate.
      * destruct (realEquals_total (path_resolve [path_dirname linkPath; link]) target w)
          as (r & Hr & Hiff).
        rewrite Hr. simpl. exists r. split; [reflexivity|].
        rewrite Hiff. split.
        -- intros (real & H1 & H2). exists st, link, real. auto.
        -- intros (st' & link' & real & _ & _ & Hl & H1 & H2).
           injection Hl as <-. exists real. auto.
    + exists false. split; [reflexivity|]. split; [discriminate|].
      intros (st' & ? & ? & Hs & Hsym' & _). injection Hs as <-. congruence.
Qed.

Lemma isSymlinkTo_linkedTo (linkPath target : string) (w : World) :
  isSymlinkTo linkPath target w = (Ret (linkedTo w linkPath target), w, []).
Proof.
  unfold linkedTo.
  destruct (isSymlinkTo_total linkPath target w) as (r & -> & _). reflexivity.
Qed.

End Detection.



Section PeerCheck.
Context `{E : Env}.

Lemma installedFor_precedence (appPkg : Manifest) (pkg : string) :
  installedFor appPkg pkg =
    match declared (optionalDependencies appPkg) pkg with
    | Some v => Some v
    | None =>
        match declared (devDependencies appPkg) pkg with
        | Some v => Some v
        | None => declared (dependencies appPkg) pkg
        end
    end.
Proof.
  unfold installedFor, spread3, declared.
  rewrite !lookup_union.
  destruct (optionalDependencies appPkg) as [o|], (devDependencies appPkg) as [v|],
    (dependencies appPkg) as [d|]; simpl; rewrite ?lookup_empty;
    repeat match goal with
           | |- context [?m !! pkg] => destruct (m !! pkg) eqn:?; simpl
           end; reflexivity.
Qed.

Lemma peerLoop_lines (appPkg : Manifest) (entries : list (string * string))
    (missing outOfRange : list string) :
  peerLoop (spread3 (dependencies appPkg) (devDependencies appPkg) (optionalDependencies appPkg))
           entries missing outOfRange =
    (missing ++ missingLines appPkg entries, outOfRange ++ outOfRangeLines appPkg entries).
Proof.
  revert missing outOfRange.
  induction entries as [|[pkg range] rest IH]; intros missing outOfRange.
  - simpl. rewrite !app_nil_r. reflexivity.
  - unfold missingLines, outOfRangeLines. simpl. unfold peerVerdict, installedFor.
    destruct (spread3 _ _ _ !! pkg) as [inst|] eqn:Hin; simpl.
    + destruct inst as [|c inst']; simpl.
      * rewrite IH. rewrite <- app_assoc. reflexivity.
      * destruct (semver_validRange range && semver_validRange (String c inst')); simpl.
        -- destruct (semver_intersects range (String c inst')); simpl.
           ++ apply IH.
           ++ rewrite IH. rewrite <- app_assoc. reflexivity.
        -- apply IH.
    + rewrite IH. rewrite <- app_assoc. reflexivity.
Qed.

(** [warnPeerDeps] returns normally, leaves the world as it is and only
    warns. *)
Lemma warnPeerDeps_warnings (appPkg libPkg : Manifest) (w : World) :
  warnPeerDeps appPkg libPkg w = (Ret tt, w, peerWarnings appPkg libPkg).
Proof.
  unfold warnPeerDeps, peerWarnings.
  destruct (peerDependencies libPkg) as [entries|]; [|reflexivity].
  rewrite peerLoop_lines. simpl.
  unfold bind, when, warn, emit, ret.
  destruct (nonempty (missingLines appPkg entries)),
    (nonempty (outOfRangeLines appPkg entries)); reflexivity.
Qed.

Lemma missingLines_elem (appPkg : Manifest) (entries : list (string * string)) (line : string) :
  line ∈ missingLines appPkg entries <->
  exists pkg range,
    (pkg, range) ∈ entries /\ line = missingLine pkg range
    /\ (installedFor appPkg pkg = None \/ installedFor appPkg pkg = Some "").
Proof.
  unfold missingLines. rewrite list_elem_of_omap. split.
  - intros ([pkg range] & Hin & Hv). exists pkg, range.
    unfold peerVerdict in Hv.
    destruct (installedFor appPkg pkg) as [[|c s]|]; simpl in Hv.
    + injection Hv as <-. auto.
    + destruct (semver_validRange range && semver_validRange (String c s));
        [destruct (semver_intersects range (String c s))|]; discriminate.
    + injection Hv as <-. auto.
  - intros (pkg & range & Hin & -> & Hcase). exists (pkg, range). split; [exact Hin|].
    unfold peerVerdict. destruct Hcase as [-> | ->]; reflexivity.
Qed.

Lemma outOfRangeLines_elem (appPkg : Manifest) (entries : list (string * string))
    (line : string) :
  line ∈ outOfRangeLines appPkg entries <->
  exists pkg range inst,
    (pkg, range) ∈ entries /\ installedFor appPkg pkg = Some inst /\ inst <> ""
    /\ semver_validRange range = true /\ semver_validRange inst = true
    /\ semver_intersects range inst = false
    /\ line = outOfRangeLine pkg inst range.
Proof.
  unfold outOfRangeLines. rewrite list_elem_of_omap. split.
  - intros ([pkg range] & Hin & Hv). exists pkg, range.
    unfold peerVerdict in Hv.
    destruct (installedFor appPkg pkg) as [[|c s]|]; simpl in Hv; try discriminate.
    destruct (semver_validRange range) eqn:Hr; simpl in Hv; [|discriminate].
    destruct (semver_validRange (String c s)) eqn:Hi; simpl in Hv; [|discriminate].
    destruct (semver_intersects range (String c s)) eqn:Hx; [discriminate|].
    injection Hv as <-. exists (String c s). repeat split; auto; discriminate.
  - intros (pkg & range & inst & Hin & Hinst & Hne & Hr & Hi & Hx & ->).
    exists (pkg, range). split; [exact Hin|].
    unfold peerVerdict. rewrite Hinst.
    destruct inst as [|c s]; [congruence|]. simpl.
    rewrite Hr, Hi, Hx. reflexivity.
Qed.

End PeerCheck.

Arguments succeeded : simpl never.

(** Equality of two traces up to the bracketing of [++]. *)
Ltac trace_eq :=
  repeat first [progress simpl | rewrite <- app_assoc]; reflexivity.

Section Blocks.
Context `{E : Env}.

Lemma run_result (cmd : string) (args : list string) (dir : option string)
    (w w' : World) (res : SpawnResult) :
  spawnSync cmd args dir w = (res, w') ->
  run cmd args dir w =
    (if succeeded res then Ret tt else Throw (CommandFailed cmd args ""), w',
     [Spawned cmd args dir]).
Proof.
  intros Hs. unfold run, bind, spawn_sync. rewrite Hs.
  destruct (succeeded res); reflexivity.
Qed.

(** A command inside [try { run(...) } catch (e) { console.warn(...) }]. *)
Lemma tolerated_run (cmd : string) (args : list string) (dir : option string)
    (n : exn -> notice) (w w' : World) (res : SpawnResult) :
  spawnSync cmd args dir w = (res, w') ->
  try_catch (run cmd args dir) (fun e => warn (n e)) w =
    (Ret tt, w',
     Spawned cmd args dir
       :: (if succeeded res then [] else [Warn (n (CommandFailed cmd args ""))])).
Proof.
  intros Hs. unfold try_catch. rewrite (run_result _ _ _ _ _ _ Hs).
  destruct (succeeded res); reflexivity.
Qed.

(** A command inside [try { run(...) } catch {}]. *)
Lemma silenced_run (cmd : string) (args : list string) (dir : option string)
    (w w' : World) (res : SpawnResult) :
  spawnSync cmd args dir w = (res, w') ->
  try_catch (run cmd args dir) (fun _ => ret tt) w = (Ret tt, w', [Spawned cmd args dir]).
Proof.
  intros Hs. unfold try_catch. rewrite (run_result _ _ _ _ _ _ Hs).
  destruct (succeeded res); reflexivity.
Qed.

Lemma npmRootGlobal_result (w w' : World) (res : SpawnResult) :
  spawnSync npmExe ["config"; "get"; "prefix"] None w = (res, w') ->
  npmRootGlobal w =
    (if succeeded res then Ret (path_join [trim (stdout res); "node_modules"])
     else Throw (CommandFailed npmExe ["config"; "get"; "prefix"]
                   (if str_nonempty (stderr res) then stderr res else stdout res)),
     w', [Spawned npmExe ["config"; "get"; "prefix"] None]).
Proof.
  intros Hs. unfold npmRootGlobal, runCapture, bind, spawn_sync. rewrite Hs.
  destruct (succeeded res); reflexivity.
Qed.

Lemma bind_Ret {A B} (m : M A) (k : A -> M B) (w w1 : World) (a : A) (t1 : list event) :
  m w = (Ret a, w1, t1) ->
  bind m k w = let '(r, w2, t2) := k a w1 in (r, w2, t1 ++ t2).
Proof. intros Hm. unfold bind. rewrite Hm. reflexivity. Qed.

Lemma bind_Throw {A B} (m : M A) (k : A -> M B) (w w1 : World) (e : exn) (t1 : list event) :
  m w = (Throw e, w1, t1) -> bind m k w = (Throw e, w1, t1).
Proof. intros Hm. unfold bind. rewrite Hm. reflexivity. Qed.

Lemma toplevel_bind_Ret {A} (m : M A) (k : A -> M unit) (w w1 : World) (a : A)
    (t1 : list event) :
  m w = (Ret a, w1, t1) ->
  toplevel (bind m k) w = let '(code, w2, t2) := toplevel (k a) w1 in (code, w2, t1 ++ t2).
Proof.
  intros Hm. unfold toplevel. rewrite (bind_Ret _ _ _ _ _ _ Hm).
  destruct (k a w1) as [[[u|e|c] w2] t2]; simpl; try reflexivity.
  rewrite app_assoc. reflexivity.
Qed.

Lemma toplevel_bind_Throw {A} (m : M A) (k : A -> M unit) (w w1 : World) (e : exn)
    (t1 : list event) :
  m w = (Throw e, w1, t1) ->
  toplevel (bind m k) w = (1%Z, w1, t1 ++ [Error (NFatal e)]).
Proof. intros Hm. unfold toplevel. rewrite (bind_Throw _ _ _ _ _ _ Hm). reflexivity. Qed.

Lemma toplevel_Ret (m : M unit) (w w1 : World) (t1 : list event) :
  m w = (Ret tt, w1, t1) -> toplevel m w = (0%Z, w1, t1).
Proof. intros Hm. unfold toplevel. rewrite Hm. reflexivity. Qed.

Lemma cleanup_result (slotPath : string) (has : bool) (w : World) :
  when has (log (NRemovingInstall slotPath) ;;
            try_catch (rm slotPath) (fun e => warn (NCleanupFailed e))) w =
    (Ret tt, (cleanup w slotPath has).1, (cleanup w slotPath has).2).
Proof.
  unfold when, cleanup. destruct has; [|reflexivity].
  unfold bind, log, emit, try_catch, rm, warn.
  destruct (rmSync slotPath w) as [[e|] w']; reflexivity.
Qed.

Lemma startWatcher_result (lib : string) (shell watch : bool) (w : World) :
  when watch (log NStartingWatcher ;;
              spawn npmExe ["run"; "build"; "--"; "--watch"] lib shell) w =
    (Ret tt, w, watcherEvents lib shell watch).
Proof. destruct watch; reflexivity. Qed.

End Blocks.

Section IndexFlow.
Context `{E : Env}.
Import Index.

(** What a successful [setup] has established. *)
Lemma setup_inv (args : list string) (w w0 : World) (c : Ctx) (t0 : list event) :
  setup args w = (Ret c, w0, t0) ->
  exists res,
    spawnSync npmExe ["config"; "get"; "prefix"] None w = (res, w0)
    /\ succeeded res = true
    /\ t0 = [Spawned npmExe ["config"; "get"; "prefix"] None]
    /\ (1 <= length args)%nat
    /\ existsSync w (path_join [cwd; "package.json"]) = true
    /\ existsSync w (path_join [libDir c; "package.json"]) = true
    /\ readFileJson w (path_join [cwd; "package.json"]) = inr (appPkg c)
    /\ readFileJson w (path_join [libDir c; "package.json"]) = inr (libPkg c)
    /\ name (libPkg c) = Some (libName c)
    /\ str_nonempty (libName c) = true
    /\ appDir c = cwd
    /\ libDir c = path_resolve [cwd; stripTrailingSeps (nth 0 args "")]
    /\ appNodeModulesLib c = path_join [cwd; "node_modules"; libName c]
    /\ globalLinkPath c = path_join [path_join [trim (stdout res); "node_modules"]; libName c]
    /\ doWatch c = includes args "--watch"
    /\ doUnlink c = includes args "--unlink"
    /\ doUnlinkGlobal c = includes args "--unlink-global".
Proof.
  unfold setup, usageAndExit, when, bind, read, readJson, read_or_throw, throw, ret, exit, log,
    emit.
  destruct (length args <? 1)%nat eqn:Hlen; simpl; [discriminate|].
  apply Nat.ltb_ge in Hlen.
  destruct (existsSync w (path_join [cwd; "package.json"])) eqn:Happ; simpl; [|discriminate].
  destruct (existsSync w (path_join [path_resolve [cwd; stripTrailingSeps (nth 0 args "")];
                                     "package.json"])) eqn:Hlib; simpl; [|discriminate].
  destruct (readFileJson w (path_join [cwd; "package.json"])) as [e|app] eqn:Hra; simpl;
    [discriminate|].
  destruct (readFileJson w (path_join [path_resolve [cwd; stripTrailingSeps (nth 0 args "")];
                                       "package.json"])) as [e|lib] eqn:Hrl; simpl;
    [discriminate|].
  destruct (name lib) as [n|] eqn:Hname; simpl; [|discriminate].
  destruct (str_nonempty n) eqn:Hn; simpl; [|discriminate].
  destruct (spawnSync npmExe ["config"; "get"; "prefix"] None w) as [res w1] eqn:Hq.
  rewrite (npmRootGlobal_result _ _ _ Hq).
  destruct (succeeded res) eqn:Hok; simpl; [|discriminate].
  intros H. injection H as <- <- <-. exists res. simpl.
  repeat split; auto.
Qed.

End IndexFlow.

Section IndexLink.
Context `{E : Env}.
Import Index.

Lemma detect_result (c : Ctx) (w : World) :
  let g := linkedTo w (globalLinkPath c) (libDir c) in
  let a := linkedTo w (appNodeModulesLib c) (libDir c) in
  let has := existsSync w (appNodeModulesLib c) && negb a in
  detect c w =
    (Ret (g, a, has), w,
     [Log (NStatus (slotOf g (existsSync w (globalLinkPath c))) (slotOf a has))]).
Proof.
  intros g a has. unfold detect.
  rewrite (bind_Ret _ _ _ _ _ _ (isSymlinkTo_linkedTo _ _ w)).
  rewrite (bind_Ret _ _ _ _ _ _ (isSymlinkTo_linkedTo _ _ w)).
  fold g a. unfold bind, read, ret, log, emit. simpl. fold has.
  destruct g; reflexivity.
Qed.

Lemma ensureGlobalLink_result (c : Ctx) (g : bool) (w w1 : World) (res : SpawnResult) :
  spawnSync npmExe ["link"] (Some (libDir c)) w = (res, w1) ->
  ensureGlobalLink c g w =
    if g then (Ret tt, w, [Log NGlobalAlreadySet])
    else if succeeded res then
      (Ret tt, w1,
       [Log (NCreatingGlobal (libName c)); Spawned npmExe ["link"] (Some (libDir c));
        Log NGlobalReady])
    else
      (Throw (CommandFailed npmExe ["link"] ""), w1,
       [Log (NCreatingGlobal (libName c)); Spawned npmExe ["link"] (Some (libDir c))]).
Proof.
  intros Hs. unfold ensureGlobalLink. destruct g; simpl; [reflexivity|].
  unfold bind at 1. unfold log at 1, emit. unfold bind at 1.
  rewrite (run_result _ _ _ _ _ _ Hs).
  destruct (succeeded res); reflexivity.
Qed.

Lemma verify_result (c : Ctx) (w : World) :
  (let! ok := isSymlinkTo (appNodeModulesLib c) (libDir c) in
   if ok then log (NVerified (libName c) (libDir c)) else warn NVerifyFailed) w =
    (Ret tt, w, [verifyNotice w (appNodeModulesLib c) (libName c) (libDir c)]).
Proof.
  rewrite (bind_Ret _ _ _ _ _ _ (isSymlinkTo_linkedTo _ _ w)).
  unfold verifyNotice. destruct (linkedTo w _ _); reflexivity.
Qed.

Lemma ensureAppLink_result (c : Ctx) (has : bool) (w w3 w4 w5 : World)
    (res1 res2 res3 : SpawnResult) :
  let link := Spawned npmExe ["link"; libName c] (Some (appDir c)) in
  let unlink := Spawned npmExe ["unlink"; libName c] (Some (appDir c)) in
  let w2 := (cleanup w (appNodeModulesLib c) has).1 in
  let pre := (cleanup w (appNodeModulesLib c) has).2 ++ [Log (NLinking (libName c))] in
  let recovery :=
    [link; Warn (NFirstLinkFailed (libName c)); unlink]
    ++ (if succeeded res2 then []
        else [Warn (NUnlinkFailed (libName c)
                      (CommandFailed npmExe ["unlink"; libName c] ""))])
    ++ [link] in
  spawnSync npmExe ["link"; libName c] (Some (appDir c)) w2 = (res1, w3) ->
  spawnSync npmExe ["unlink"; libName c] (Some (appDir c)) w3 = (res2, w4) ->
  spawnSync npmExe ["link"; libName c] (Some (appDir c)) w4 = (res3, w5) ->
  ensureAppLink c false has w =
    if succeeded res1 then
      (Ret tt, w3,
       pre ++ [link; verifyNotice w3 (appNodeModulesLib c) (libName c) (libDir c)])
    else if succeeded res3 then
      (Ret tt, w5,
       pre ++ recovery ++ [verifyNotice w5 (appNodeModulesLib c) (libName c) (libDir c)])
    else (Throw (CommandFailed npmExe ["link"; libName c] ""), w5, pre ++ recovery).
Proof.
  intros link unlink w2 pre recovery H1 H2 H3. unfold ensureAppLink.
  rewrite (bind_Ret _ _ _ _ _ _ (cleanup_result _ _ _)). fold w2.
  assert (Hlog : log (NLinking (libName c)) w2 = (Ret tt, w2, [Log (NLinking (libName c))]))
    by reflexivity.
  rewrite (bind_Ret _ _ _ _ _ _ Hlog).
  destruct (succeeded res1) eqn:Hok1.
  - assert (Htry : try_catch (run npmExe ["link"; libName c] (Some (appDir c)))
             (fun _ =>
                warn (NFirstLinkFailed (libName c)) ;;
                try_catch (run npmExe ["unlink"; libName c] (Some (appDir c)))
                          (fun e => warn (NUnlinkFailed (libName c) e)) ;;
                run npmExe ["link"; libName c] (Some (appDir c))) w2
             = (Ret tt, w3, [link])).
    { unfold try_catch at 1. rewrite (run_result _ _ _ _ _ _ H1), Hok1. reflexivity. }
    rewrite (bind_Ret _ _ _ _ _ _ Htry), verify_result.
    unfold pre. rewrite <- !app_assoc. reflexivity.
  - assert (Hrec : (warn (NFirstLinkFailed (libName c)) ;;
                    try_catch (run npmExe ["unlink"; libName c] (Some (appDir c)))
                              (fun e => warn (NUnlinkFailed (libName c) e)) ;;
                    run npmExe ["link"; libName c] (Some (appDir c))) w3
             = (if succeeded res3 then Ret tt
                else Throw (CommandFailed npmExe ["link"; libName c] ""), w5,
                [Warn (NFirstLinkFailed (libName c)); unlink]
                ++ (if succeeded res2 then []
                    else [Warn (NUnlinkFailed (libName c)
                                  (CommandFailed npmExe ["unlink"; libName c] ""))])
                ++ [link])).
    { unfold bind at 1. unfold warn at 1, emit.
      rewrite (bind_Ret _ _ _ _ _ _ (tolerated_run _ _ _ _ _ _ _ H2)).
      rewrite (run_result _ _ _ _ _ _ H3).
      destruct (succeeded res2), (succeeded res3); reflexivity. }
    assert (Htry : try_catch (run npmExe ["link"; libName c] (Some (appDir c)))
             (fun _ =>
                warn (NFirstLinkFailed (libName c)) ;;
                try_catch (run npmExe ["unlink"; libName c] (Some (appDir c)))
                          (fun e => warn (NUnlinkFailed (libName c) e)) ;;
                run npmExe ["link"; libName c] (Some (appDir c))) w2
             = (if succeeded res3 then Ret tt
                else Throw (CommandFailed npmExe ["link"; libName c] ""), w5, recovery)).
    { unfold try_catch at 1. rewrite (run_result _ _ _ _ _ _ H1), Hok1. cbv beta iota.
      rewrite Hrec. reflexivity. }
    destruct (succeeded res3) eqn:Hok3.
    + rewrite (bind_Ret _ _ _ _ _ _ Htry), verify_result.
      unfold pre. rewrite <- !app_assoc. reflexivity.
    + rewrite (bind_Throw _ _ _ _ _ _ Htry). 
      unfold pre. rewrite <- !app_assoc. reflexivity.
Qed.

End IndexLink.

Section IndexProcess.
Context `{E : Env}.
Import Index.

Lemma process_after_setup (args : list string) (w w0 : World) (c : Ctx) (t0 : list event) :
  setup args w = (Ret c, w0, t0) ->
  process args w =
    let '(code, w', t) := toplevel (if doUnlink c then unlinkFlow c else linkFlow c) w0 in
    (code, w', t0 ++ t).
Proof.
  intros Hs. unfold process, main.
  exact (toplevel_bind_Ret _ (fun c0 => if doUnlink c0 then unlinkFlow c0 else linkFlow c0)
           _ _ _ _ Hs).
Qed.

Lemma link_tail (c : Ctx) (w : World) :
  (warnPeerDeps (appPkg c) (libPkg c) ;; startWatcher c) w =
    (Ret tt, w,
     peerWarnings (appPkg c) (libPkg c) ++ watcherEvents (libDir c) true (doWatch c)).
Proof.
  rewrite (bind_Ret _ _ _ _ _ _ (warnPeerDeps_warnings _ _ w)).
  unfold startWatcher. rewrite startWatcher_result. reflexivity.
Qed.

(** The whole link flow of [index.js], by the answers of the package
    manager. *)
Lemma linkFlow_result (c : Ctx) (w0 wg w3 w4 w5 : World) (resg res1 res2 res3 : SpawnResult) :
  let g := linkedTo w0 (globalLinkPath c) (libDir c) in
  let a := linkedTo w0 (appNodeModulesLib c) (libDir c) in
  let has := existsSync w0 (appNodeModulesLib c) && negb a in
  let banner := Log (NStatus (slotOf g (existsSync w0 (globalLinkPath c))) (slotOf a has)) in
  let globalCmd := Spawned npmExe ["link"] (Some (libDir c)) in
  let link := Spawned npmExe ["link"; libName c] (Some (appDir c)) in
  let unlink := Spawned npmExe ["unlink"; libName c] (Some (appDir c)) in
  let w1 := if g then w0 else wg in
  let w2 := (cleanup w1 (appNodeModulesLib c) has).1 in
  let globalStep :=
    if g then [Log NGlobalAlreadySet]
    else [Log (NCreatingGlobal (libName c)); globalCmd; Log NGlobalReady] in
  let pre :=
    [banner] ++ globalStep
    ++ (cleanup w1 (appNodeModulesLib c) has).2 ++ [Log (NLinking (libName c))] in
  let recovery :=
    [link; Warn (NFirstLinkFailed (libName c)); unlink]
    ++ (if succeeded res2 then []
        else [Warn (NUnlinkFailed (libName c)
                      (CommandFailed npmExe ["unlink"; libName c] ""))])
    ++ [link] in
  let rest := peerWarnings (appPkg c) (libPkg c) ++ watcherEvents (libDir c) true (doWatch c) in
  spawnSync npmExe ["link"] (Some (libDir c)) w0 = (resg, wg) ->
  spawnSync npmExe ["link"; libName c] (Some (appDir c)) w2 = (res1, w3) ->
  spawnSync npmExe ["unlink"; libName c] (Some (appDir c)) w3 = (res2, w4) ->
  spawnSync npmExe ["link"; libName c] (Some (appDir c)) w4 = (res3, w5) ->
  toplevel (linkFlow c) w0 =
    if negb g && negb (succeeded resg) then
      (1%Z, wg,
       [banner; Log (NCreatingGlobal (libName c)); globalCmd;
        Error (NFatal (CommandFailed npmExe ["link"] ""))])
    else if a then (0%Z, w1, [banner] ++ globalStep ++ [Log NAppAlreadyLinked] ++ rest)
    else if succeeded res1 then
      (0%Z, w3,
       pre ++ [link; verifyNotice w3 (appNodeModulesLib c) (libName c) (libDir c)] ++ rest)
    else if succeeded res3 then
      (0%Z, w5,
       pre ++ recovery
       ++ [verifyNotice w5 (appNodeModulesLib c) (libName c) (libDir c)] ++ rest)
    else
      (1%Z, w5,
       pre ++ recovery ++ [Error (NFatal (CommandFailed npmExe ["link"; libName c] ""))]).
Proof.
  intros g a has banner globalCmd link unlink w1 w2 globalStep pre recovery rest Hg H1 H2 H3.
  unfold linkFlow.
  rewrite (toplevel_bind_Ret _ _ _ _ _ _ (detect_result c w0)).
  fold g a has. cbv beta iota.
  subst banner globalCmd link unlink w2 w1 globalStep pre recovery rest.
  clearbody has. clearbody g a.
  pose proof (ensureGlobalLink_result c g _ _ _ Hg) as Hglobal.
  assert (Hlinked : forall w', ensureAppLink c true has w' = (Ret tt, w', [Log NAppAlreadyLinked]))
    by reflexivity.
  destruct g; simpl negb; simpl andb; cbv iota in *.
  - rewrite (toplevel_bind_Ret _ _ _ _ _ _ Hglobal).
    destruct a.
    + rewrite (toplevel_bind_Ret _ _ _ _ _ _ (Hlinked w0)).
      rewrite (toplevel_Ret _ _ _ _ (link_tail c w0)). reflexivity.
    + pose proof (ensureAppLink_result c has w0 _ _ _ _ _ _ H1 H2 H3) as Happ.
      cbv zeta in Happ.
      destruct (succeeded res1); [|destruct (succeeded res3)].
      * rewrite (toplevel_bind_Ret _ _ _ _ _ _ Happ).
        rewrite (toplevel_Ret _ _ _ _ (link_tail c w3)).
        trace_eq.
      * rewrite (toplevel_bind_Ret _ _ _ _ _ _ Happ).
        rewrite (toplevel_Ret _ _ _ _ (link_tail c w5)).
        trace_eq.
      * rewrite (toplevel_bind_Throw _ _ _ _ _ _ Happ).
        trace_eq.
  - destruct (succeeded resg); simpl.
    + rewrite (toplevel_bind_Ret _ _ _ _ _ _ Hglobal).
      destruct a.
      * rewrite (toplevel_bind_Ret _ _ _ _ _ _ (Hlinked wg)).
        rewrite (toplevel_Ret _ _ _ _ (link_tail c wg)). reflexivity.
      * pose proof (ensureAppLink_result c has wg _ _ _ _ _ _ H1 H2 H3) as Happ.
        cbv zeta in Happ.
        destruct (succeeded res1); [|destruct (succeeded res3)].
        -- rewrite (toplevel_bind_Ret _ _ _ _ _ _ Happ).
           rewrite (toplevel_Ret _ _ _ _ (link_tail c w3)).
           trace_eq.
        -- rewrite (toplevel_bind_Ret _ _ _ _ _ _ Happ).
           rewrite (toplevel_Ret _ _ _ _ (link_tail c w5)).
           trace_eq.
        -- rewrite (toplevel_bind_Throw _ _ _ _ _ _ Happ).
           trace_eq.
    + rewrite (toplevel_bind_Throw _ _ _ _ _ _ Hglobal). reflexivity.
Qed.

End IndexProcess.

Section IndexUnlink.
Context `{E : Env}.
Import Index.

Lemma unlinkGlobal_result (c : Ctx) (w w3 w4 : World) (res3 : SpawnResult)
    (failure : option exn) :
  let present := existsSync w3 (globalLinkPath c) in
  spawnSync npmExe ["unlink"; "-g"; libName c] (Some (appDir c)) w = (res3, w3) ->
  rmSync (globalLinkPath c) w3 = (failure, w4) ->
  unlinkGlobal c w =
    (Ret tt, if present then w4 else w3,
     [Log (NRemovingGlobal (libName c));
      Spawned npmExe ["unlink"; "-g"; libName c] (Some (appDir c))]
     ++ (if succeeded res3 then []
         else [Warn (NGlobalUnlinkFailed (libName c)
                       (CommandFailed npmExe ["unlink"; "-g"; libName c] ""))])
     ++ (if present then
           Removed (globalLinkPath c)
             :: match failure with Some e => [Warn (NCleanupFailed e)] | None => [] end
         else [])
     ++ [Log NGlobalRemoved]).
Proof.
  intros present H3 Hrm. unfold unlinkGlobal.
  unfold bind at 1. unfold log at 1, emit.
  rewrite (bind_Ret _ _ _ _ _ _ (tolerated_run _ _ _ _ _ _ _ H3)).
  assert (Hclean :
    try_catch (let! present := read (fun w => existsSync w (globalLinkPath c)) in
               when present (rm (globalLinkPath c)))
              (fun e => warn (NCleanupFailed e)) w3
    = (Ret tt, if present then w4 else w3,
       if present then
         Removed (globalLinkPath c)
           :: match failure with Some e => [Warn (NCleanupFailed e)] | None => [] end
       else [])).
  { unfold try_catch, bind, read, when, rm, warn, emit, ret. fold present.
    destruct present; [|reflexivity]. rewrite Hrm. destruct failure; reflexivity. }
  rewrite (bind_Ret _ _ _ _ _ _ Hclean).
  unfold log, emit. trace_eq.
Qed.

(** The whole unlink flow of [index.js], by the answers of the package
    manager and of the removal. *)
Lemma unlinkFlow_result (c : Ctx) (w w1 w2 w3 w4 : World) (res1 res2 res3 : SpawnResult)
    (failure : option exn) :
  let args := restoreArgs (appPkg c) (libName c) in
  let present := existsSync w3 (globalLinkPath c) in
  let head :=
    [Log (NUnlinking (libName c)); Spawned npmExe ["unlink"; libName c] (Some (appDir c))]
    ++ (if succeeded res1 then []
        else [Warn (NUnlinkFailed (libName c)
                      (CommandFailed npmExe ["unlink"; libName c] ""))])
    ++ [Log NReinstalling; Spawned npmExe args (Some (appDir c))] in
  spawnSync npmExe ["unlink"; libName c] (Some (appDir c)) w = (res1, w1) ->
  spawnSync npmExe args (Some (appDir c)) w1 = (res2, w2) ->
  spawnSync npmExe ["unlink"; "-g"; libName c] (Some (appDir c)) w2 = (res3, w3) ->
  rmSync (globalLinkPath c) w3 = (failure, w4) ->
  toplevel (unlinkFlow c) w =
    if negb (succeeded res2) then
      (1%Z, w2, head ++ [Error (NFatal (CommandFailed npmExe args ""))])
    else if negb (doUnlinkGlobal c) then (0%Z, w2, head ++ [Log NRestored])
    else
      (0%Z, if present then w4 else w3,
       head
       ++ [Log NRestored; Log (NRemovingGlobal (libName c));
           Spawned npmExe ["unlink"; "-g"; libName c] (Some (appDir c))]
       ++ (if succeeded res3 then []
           else [Warn (NGlobalUnlinkFailed (libName c)
                         (CommandFailed npmExe ["unlink"; "-g"; libName c] ""))])
       ++ (if present then
             Removed (globalLinkPath c)
               :: match failure with Some e => [Warn (NCleanupFailed e)] | None => [] end
           else [])
       ++ [Log NGlobalRemoved]).
Proof.
  intros args present head H1 H2 H3 Hrm. unfold unlinkFlow.
  assert (Hlog : log (NUnlinking (libName c)) w = (Ret tt, w, [Log (NUnlinking (libName c))]))
    by reflexivity.
  rewrite (toplevel_bind_Ret _ _ _ _ _ _ Hlog).
  rewrite (toplevel_bind_Ret _ _ _ _ _ _ (tolerated_run _ _ _ _ _ _ _ H1)).
  assert (Hargs : read_or_throw (fun _ : World => installArgs (appPkg c) (libName c)) w1
                  = (Ret args, w1, [])).
  { unfold read_or_throw. rewrite installArgs_closed_form. reflexivity. }
  rewrite (toplevel_bind_Ret _ _ _ _ _ _ Hargs).
  assert (Hlog2 : log NReinstalling w1 = (Ret tt, w1, [Log NReinstalling])) by reflexivity.
  rewrite (toplevel_bind_Ret _ _ _ _ _ _ Hlog2).
  pose proof (run_result _ _ _ _ _ _ H2) as Hrun.
  subst head. destruct (succeeded res2); simpl negb; cbv iota.
  - rewrite (toplevel_bind_Ret _ _ _ _ _ _ Hrun).
    assert (Hlog3 : log NRestored w2 = (Ret tt, w2, [Log NRestored])) by reflexivity.
    rewrite (toplevel_bind_Ret _ _ _ _ _ _ Hlog3).
    destruct (doUnlinkGlobal c); simpl negb; cbv iota.
    + unfold when.
      rewrite (toplevel_Ret _ _ _ _ (unlinkGlobal_result c _ _ _ _ _ H3 Hrm)).
      fold present. trace_eq.
    + unfold when, ret, toplevel. trace_eq.
  - rewrite (toplevel_bind_Throw _ _ _ _ _ _ Hrun). trace_eq.
Qed.

End IndexUnlink.

Section Part000Flow.
Context `{E : Env}.
Import Part000.

(** What a successful [setup] of [part_000] has established; it runs no
    command. *)
Lemma setup000_inv (args : list string) (w w0 : World) (c : Ctx) (t0 : list event) :
  setup args w = (Ret c, w0, t0) ->
  w0 = w /\ t0 = []
  /\ (2 <= length args)%nat
  /\ existsSync w (path_join [appDir c; "package.json"]) = true
  /\ existsSync w (path_join [libDir c; "package.json"]) = true
  /\ readFileJson w (path_join [appDir c; "package.json"]) = inr (appPkg c)
  /\ readFileJson w (path_join [libDir c; "package.json"]) = inr (libPkg c)
  /\ name (libPkg c) = Some (libName c)
  /\ str_nonempty (libName c) = true
  /\ appDir c = path_resolve [cwd; nth 0 args ""]
  /\ libDir c = path_resolve [cwd; nth 1 args ""]
  /\ appNodeModulesLib c = path_join [appDir c; "node_modules"; libName c]
  /\ doWatch c = includes args "--watch"
  /\ doUnlink c = includes args "--unlink"
  /\ doUnlinkGlobal c = includes args "--unlink-global".
Proof.
  unfold setup, usageAndExit, when, bind, read, readJson, read_or_throw, throw, ret, exit, log,
    emit.
  destruct (length args <? 2)%nat eqn:Hlen; simpl; [discriminate|].
  apply Nat.ltb_ge in Hlen.
  destruct (existsSync w (path_join [path_resolve [cwd; nth 0 args ""]; "package.json"]))
    eqn:Happ; simpl; [|discriminate].
  destruct (existsSync w (path_join [path_resolve [cwd; nth 1 args ""]; "package.json"]))
    eqn:Hlib; simpl; [|discriminate].
  destruct (readFileJson w (path_join [path_resolve [cwd; nth 0 args ""]; "package.json"]))
    as [e|app] eqn:Hra; simpl; [discriminate|].
  destruct (readFileJson w (path_join [path_resolve [cwd; nth 1 args ""]; "package.json"]))
    as [e|lib] eqn:Hrl; simpl; [discriminate|].
  destruct (name lib) as [n|] eqn:Hname; simpl; [|discriminate].
  destruct (str_nonempty n) eqn:Hn; simpl; [|discriminate].
  intros H. injection H as <- <- <-. simpl.
  repeat split; auto.
Qed.

Lemma process000_after_setup (args : list string) (w w0 : World) (c : Ctx)
    (t0 : list event) :
  setup args w = (Ret c, w0, t0) ->
  process args w = toplevel (if doUnlink c then unlinkFlow c else linkFlow c) w.
Proof.
  intros Hs. destruct (setup000_inv _ _ _ _ _ Hs) as (-> & -> & _).
  unfold process, main.
  rewrite (toplevel_bind_Ret _ (fun c0 => if doUnlink c0 then unlinkFlow c0 else linkFlow c0)
             _ _ _ _ Hs).
  destruct (toplevel _ w) as [[code w'] t]. reflexivity.
Qed.

Lemma detect000_result (c : Ctx) (w : World) :
  let a := linkedTo w (appNodeModulesLib c) (libDir c) in
  let has := existsSync w (appNodeModulesLib c) && negb a in
  detect c w = (Ret (a, has), w, [Log (NStatusApp (slotOf a has))]).
Proof.
  intros a has. unfold detect.
  rewrite (bind_Ret _ _ _ _ _ _ (isSymlinkTo_linkedTo _ _ w)).
  reflexivity.
Qed.

(** The global step of [part_000] returns normally whatever the command
    answers. *)
Lemma ensureGlobalLink000_result (c : Ctx) (w w1 : World) (res : SpawnResult) :
  spawnSync npmExe ["link"] (Some (libDir c)) w = (res, w1) ->
  ensureGlobalLink c w =
    (Ret tt, w1,
     [Log NEnsuringGlobal; Spawned npmExe ["link"] (Some (libDir c))]
     ++ (if succeeded res then [Log NGlobalReady]
         else [Warn (NGlobalLinkError (CommandFailed npmExe ["link"] ""))])).
Proof.
  intros Hs. unfold ensureGlobalLink, try_catch.
  unfold bind at 1. unfold log at 1, emit. unfold bind at 1.
  rewrite (run_result _ _ _ _ _ _ Hs).
  destruct (succeeded res); reflexivity.
Qed.

Lemma verify000_result (c : Ctx) (w : World) :
  (let! ok := isSymlinkTo (appNodeModulesLib c) (libDir c) in
   if ok then log (NVerified (libName c) (libDir c)) else warn NVerifyFailed) w =
    (Ret tt, w, [verifyNotice w (appNodeModulesLib c) (libName c) (libDir c)]).
Proof.
  rewrite (bind_Ret _ _ _ _ _ _ (isSymlinkTo_linkedTo _ _ w)).
  unfold verifyNotice. destruct (linkedTo w _ _); reflexivity.
Qed.

Lemma ensureAppLink000_result (c : Ctx) (has : bool) (w w3 w4 w5 : World)
    (res1 res2 res3 : SpawnResult) :
  let link := Spawned npmExe ["link"; libName c] (Some (appDir c)) in
  let unlink := Spawned npmExe ["unlink"; libName c] (Some (appDir c)) in
  let w2 := (cleanup w (appNodeModulesLib c) has).1 in
  let pre := (cleanup w (appNodeModulesLib c) has).2 ++ [Log (NLinking (libName c))] in
  let recovery := [link; Warn (NFirstLinkFailed (libName c)); unlink; link] in
  spawnSync npmExe ["link"; libName c] (Some (appDir c)) w2 = (res1, w3) ->
  spawnSync npmExe ["unlink"; libName c] (Some (appDir c)) w3 = (res2, w4) ->
  spawnSync npmExe ["link"; libName c] (Some (appDir c)) w4 = (res3, w5) ->
  ensureAppLink c false has w =
    if succeeded res1 then
      (Ret tt, w3,
       pre ++ [link; verifyNotice w3 (appNodeModulesLib c) (libName c) (libDir c)])
    else if succeeded res3 then
      (Ret tt, w5,
       pre ++ recovery ++ [verifyNotice w5 (appNodeModulesLib c) (libName c) (libDir c)])
    else (Throw (CommandFailed npmExe ["link"; libName c] ""), w5, pre ++ recovery).
Proof.
  intros link unlink w2 pre recovery H1 H2 H3. unfold ensureAppLink.
  rewrite (bind_Ret _ _ _ _ _ _ (cleanup_result _ _ _)). fold w2.
  assert (Hlog : log (NLinking (libName c)) w2 = (Ret tt, w2, [Log (NLinking (libName c))]))
    by reflexivity.
  rewrite (bind_Ret _ _ _ _ _ _ Hlog).
  destruct (succeeded res1) eqn:Hok1.
  - assert (Htry : try_catch (run npmExe ["link"; libName c] (Some (appDir c)))
             (fun _ =>
                warn (NFirstLinkFailed (libName c)) ;;
                try_catch (run npmExe ["unlink"; libName c] (Some (appDir c)))
                          (fun _ => ret tt) ;;
                run npmExe ["link"; libName c] (Some (appDir c))) w2
             = (Ret tt, w3, [link])).
    { unfold try_catch at 1. rewrite (run_result _ _ _ _ _ _ H1), Hok1. reflexivity. }
    rewrite (bind_Ret _ _ _ _ _ _ Htry), verify000_result.
    unfold pre. trace_eq.
  - assert (Hrec : (warn (NFirstLinkFailed (libName c)) ;;
                    try_catch (run npmExe ["unlink"; libName c] (Some (appDir c)))
                              (fun _ => ret tt) ;;
                    run npmExe ["link"; libName c] (Some (appDir c))) w3
             = (if succeeded res3 then Ret tt
                else Throw (CommandFailed npmExe ["link"; libName c] ""), w5,
                [Warn (NFirstLinkFailed (libName c)); unlink; link])).
    { unfold bind at 1. unfold warn at 1, emit.
      rewrite (bind_Ret _ _ _ _ _ _ (silenced_run _ _ _ _ _ _ H2)).
      rewrite (run_result _ _ _ _ _ _ H3).
      destruct (succeeded res3); reflexivity. }
    assert (Htry : try_catch (run npmExe ["link"; libName c] (Some (appDir c)))
             (fun _ =>
                warn (NFirstLinkFailed (libName c)) ;;
                try_catch (run npmExe ["unlink"; libName c] (Some (appDir c)))
                          (fun _ => ret tt) ;;
                run npmExe ["link"; libName c] (Some (appDir c))) w2
             = (if succeeded res3 then Ret tt
                else Throw (CommandFailed npmExe ["link"; libName c] ""), w5, recovery)).
    { unfold try_catch at 1. rewrite (run_result _ _ _ _ _ _ H1), Hok1. cbv beta iota.
      rewrite Hrec. reflexivity. }
    destruct (succeeded res3) eqn:Hok3.
    + rewrite (bind_Ret _ _ _ _ _ _ Htry), verify000_result.
      unfold pre. trace_eq.
    + rewrite (bind_Throw _ _ _ _ _ _ Htry).
      unfold pre. trace_eq.
Qed.

Lemma link000_tail (c : Ctx) (w : World) :
  (warnPeerDeps (appPkg c) (libPkg c) ;; startWatcher c) w =
    (Ret tt, w,
     peerWarnings (appPkg c) (libPkg c) ++ watcherEvents (libDir c) false (doWatch c)).
Proof.
  rewrite (bind_Ret _ _ _ _ _ _ (warnPeerDeps_warnings _ _ w)).
  unfold startWatcher. rewrite startWatcher_result. reflexivity.
Qed.

(** The whole link flow of [part_000], by the answers of the package
    manager. *)
Lemma linkFlow000_result (c : Ctx) (w0 w1 w3 w4 w5 : World)
    (resg res1 res2 res3 : SpawnResult) :
  let a := linkedTo w0 (appNodeModulesLib c) (libDir c) in
  let has := existsSync w0 (appNodeModulesLib c) && negb a in
  let link := Spawned npmExe ["link"; libName c] (Some (appDir c)) in
  let unlink := Spawned npmExe ["unlink"; libName c] (Some (appDir c)) in
  let w2 := (cleanup w1 (appNodeModulesLib c) has).1 in
  let globalStep :=
    [Log NEnsuringGlobal; Spawned npmExe ["link"] (Some (libDir c))]
    ++ (if succeeded resg then [Log NGlobalReady]
        else [Warn (NGlobalLinkError (CommandFailed npmExe ["link"] ""))]) in
  let pre :=
    [Log (NStatusApp (slotOf a has))] ++ globalStep
    ++ (cleanup w1 (appNodeModulesLib c) has).2 ++ [Log (NLinking (libName c))] in
  let recovery := [link; Warn (NFirstLinkFailed (libName c)); unlink; link] in
  let rest := peerWarnings (appPkg c) (libPkg c) ++ watcherEvents (libDir c) false (doWatch c) in
  spawnSync npmExe ["link"] (Some (libDir c)) w0 = (resg, w1) ->
  spawnSync npmExe ["link"; libName c] (Some (appDir c)) w2 = (res1, w3) ->
  spawnSync npmExe ["unlink"; libName c] (Some (appDir c)) w3 = (res2, w4) ->
  spawnSync npmExe ["link"; libName c] (Some (appDir c)) w4 = (res3, w5) ->
  toplevel (linkFlow c) w0 =
    if a then
      (0%Z, w1,
       [Log (NStatusApp (slotOf a has))] ++ globalStep ++ [Log NAppAlreadyLinked] ++ rest)
    else if succeeded res1 then
      (0%Z, w3,
       pre ++ [link; verifyNotice w3 (appNodeModulesLib c) (libName c) (libDir c)] ++ rest)
    else if succeeded res3 then
      (0%Z, w5,
       pre ++ recovery
       ++ [verifyNotice w5 (appNodeModulesLib c) (libName c) (libDir c)] ++ rest)
    else
      (1%Z, w5,
       pre ++ recovery ++ [Error (NFatal (CommandFailed npmExe ["link"; libName c] ""))]).
Proof.
  intros a has link unlink w2 globalStep pre recovery rest Hg H1 H2 H3.
  unfold linkFlow.
  rewrite (toplevel_bind_Ret _ _ _ _ _ _ (detect000_result c w0)).
  fold a has. cbv beta iota.
  subst link unlink w2 globalStep pre recovery rest.
  clearbody has. clearbody a.
  rewrite (toplevel_bind_Ret _ _ _ _ _ _ (ensureGlobalLink000_result c _ _ _ Hg)).
  destruct a.
  - assert (Happ : ensureAppLink c true has w1 = (Ret tt, w1, [Log NAppAlreadyLinked]))
      by reflexivity.
    rewrite (toplevel_bind_Ret _ _ _ _ _ _ Happ).
    rewrite (toplevel_Ret _ _ _ _ (link000_tail c w1)). trace_eq.
  - pose proof (ensureAppLink000_result c has w1 _ _ _ _ _ _ H1 H2 H3) as Happ.
    cbv zeta in Happ.
    destruct (succeeded res1); [|destruct (succeeded res3)].
    + rewrite (toplevel_bind_Ret _ _ _ _ _ _ Happ).
      rewrite (toplevel_Ret _ _ _ _ (link000_tail c w3)). trace_eq.
    + rewrite (toplevel_bind_Ret _ _ _ _ _ _ Happ).
      rewrite (toplevel_Ret _ _ _ _ (link000_tail c w5)). trace_eq.
    + rewrite (toplevel_bind_Throw _ _ _ _ _ _ Happ). trace_eq.
Qed.

(** The whole unlink flow of [part_000]. *)
Lemma unlinkFlow000_result (c : Ctx) (w w1 w2 w3 : World) (res1 res2 res3 : SpawnResult) :
  let args := restoreArgs (appPkg c) (libName c) in
  let head :=
    [Log (NUnlinking (libName c)); Spawned npmExe ["unlink"; libName c] (Some (appDir c))]
    ++ (if succeeded res1 then []
        else [Warn (NUnlinkFailed (libName c)
                      (CommandFailed npmExe ["unlink"; libName c] ""))])
    ++ [Log NReinstalling; Spawned npmExe args (Some (appDir c))] in
  spawnSync npmExe ["unlink"; libName c] (Some (appDir c)) w = (res1, w1) ->
  spawnSync npmExe args (Some (appDir c)) w1 = (res2, w2) ->
  spawnSync npmExe ["unlink"; "-g"; libName c] None w2 = (res3, w3) ->
  toplevel (unlinkFlow c) w =
    if negb (succeeded res2) then
      (1%Z, w2, head ++ [Error (NFatal (CommandFailed npmExe args ""))])
    else if negb (doUnlinkGlobal c) then (0%Z, w2, head ++ [Log NRestored])
    else
      (0%Z, w3,
       head
       ++ [Log NRestored; Log (NRemovingGlobal (libName c));
           Spawned npmExe ["unlink"; "-g"; libName c] None]
       ++ (if succeeded res3 then []
           else [Warn (NGlobalUnlinkFailed (libName c)
                         (CommandFailed npmExe ["unlink"; "-g"; libName c] ""))])
       ++ [Log NGlobalRemoved]).
Proof.
  intros args head H1 H2 H3. unfold unlinkFlow.
  assert (Hlog : log (NUnlinking (libName c)) w = (Ret tt, w, [Log (NUnlinking (libName c))]))
    by reflexivity.
  rewrite (toplevel_bind_Ret _ _ _ _ _ _ Hlog).
  rewrite (toplevel_bind_Ret _ _ _ _ _ _ (tolerated_run _ _ _ _ _ _ _ H1)).
  assert (Hargs : read_or_throw (fun _ : World => installArgs (appPkg c) (libName c)) w1
                  = (Ret args, w1, [])).
  { unfold read_or_throw. rewrite installArgs_closed_form. reflexivity. }
  rewrite (toplevel_bind_Ret _ _ _ _ _ _ Hargs).
  assert (Hlog2 : log NReinstalling w1 = (Ret tt, w1, [Log NReinstalling])) by reflexivity.
  rewrite (toplevel_bind_Ret _ _ _ _ _ _ Hlog2).
  pose proof (run_result _ _ _ _ _ _ H2) as Hrun.
  subst head. destruct (succeeded res2); simpl negb; cbv iota.
  - rewrite (toplevel_bind_Ret _ _ _ _ _ _ Hrun).
    assert (Hlog3 : log NRestored w2 = (Ret tt, w2, [Log NRestored])) by reflexivity.
    rewrite (toplevel_bind_Ret _ _ _ _ _ _ Hlog3).
    destruct (doUnlinkGlobal c); simpl negb; cbv iota.
    + unfold when, unlinkGlobal.
      assert (Hlog4 : log (NRemovingGlobal (libName c)) w2
                      = (Ret tt, w2, [Log (NRemovingGlobal (libName c))])) by reflexivity.
      rewrite (toplevel_bind_Ret _ _ _ _ _ _ Hlog4).
      rewrite (toplevel_bind_Ret _ _ _ _ _ _ (tolerated_run _ _ _ _ _ _ _ H3)).
      unfold log, emit, toplevel. trace_eq.
    + unfold when, ret, toplevel. trace_eq.
  - rewrite (toplevel_bind_Throw _ _ _ _ _ _ Hrun). trace_eq.
Qed.

End Part000Flow.

(** ** The restore step *)

Section RestoreCommand.
Context `{E : Env}.

Lemma commands_app (t1 t2 : list event) : commands (t1 ++ t2) = commands t1 ++ commands t2.
Proof. apply List.filter_app. Qed.

Lemma removals_app (t1 t2 : list event) : removals (t1 ++ t2) = removals t1 ++ removals t2.
Proof. apply List.filter_app. Qed.



End RestoreCommand.






(** C9, as the code has it.  With the library declared in both sections,
    the command carries [--save-dev], and its target comes from the
    [dependencies] string when that string is not empty; an empty
    [dependencies] string hands the choice to the [devDependencies] string,
    and two empty strings leave the bare name. *)
Theorem restore_declared_in_both `{E : Env} (appPkg : Manifest) (lib d v : string) :
  declared (dependencies appPkg) lib = Some d ->
  declared (devDependencies appPkg) lib = Some v ->
  (d <> "" ->
   installArgs appPkg lib = inr (["install"; "--save-dev"] ++ restoreTarget lib d))
  /\ (d = "" -> v <> "" ->
      installArgs appPkg lib = inr (["install"; "--save-dev"] ++ restoreTarget lib v))
  /\ (d = "" -> v = "" -> installArgs appPkg lib = inr ["install"; "--save-dev"; lib]).
Proof.
  intros Hd Hv. rewrite installArgs_closed_form.
  unfold restoreArgs, sectionFlag, originalSpec. rewrite Hd, Hv.
  repeat split.
  - intros Hne. destruct d; [congruence|]. reflexivity.
  - intros -> Hne. destruct v; [congruence|]. reflexivity.
  - intros -> ->. reflexivity.
Qed.

(** [dependencies] says ["^1.2.3"], [devDependencies] says ["2.0.0"]. *)
Lemma restore_declared_in_both_witness :
  @installArgs Sim.env
     (Sim.app_declaring (Some {[ "widgets" := "^1.2.3" ]}) (Some {[ "widgets" := "2.0.0" ]})
        None) "widgets"
    = inr ["install"; "--save-dev"; "widgets@^1.2.3"].
Proof.
  refine (proj1 (@restore_declared_in_both Sim.env
                   (Sim.app_declaring (Some {[ "widgets" := "^1.2.3" ]})
                      (Some {[ "widgets" := "2.0.0" ]}) None)
                   "widgets" "^1.2.3" "2.0.0" _ _) _);
    [reflexivity | reflexivity | discriminate].
Defined.

(** C9 as stated fails on an empty [dependencies] string: the library is
    declared in both sections, and the spec that is reinstalled is the one of
    [devDependencies]. *)
Lemma restore_spec_from_devDependencies :
  let appPkg :=
    Sim.app_declaring (Some {[ "widgets" := "" ]}) (Some {[ "widgets" := "1.0.0" ]}) None in
  declared (dependencies appPkg) "widgets" = Some ""
  /\ declared (devDependencies appPkg) "widgets" = Some "1.0.0"
  /\ @installArgs Sim.env appPkg "widgets"
     = inr ["install"; "--save-dev"; "widgets@1.0.0"; "--save-exact"].
Proof. repeat split. Qed.

(** ** The peer-dependency check *)

(** C10.  The declaration the peer check compares with is the one of
    [optionalDependencies] if there is one, else the one of
    [devDependencies] if there is one, else the one of [dependencies]; the
    warnings of [warnPeerDeps] are computed from that single value for each
    peer ([peerWarnings] reads the manifest through [installedFor] only). *)
Theorem peer_check_merge_precedence `{E : Env} (appPkg libPkg : Manifest) (pkg : string)
    (w : World) :
  installedFor appPkg pkg =
    match declared (optionalDependencies appPkg) pkg with
    | Some v => Some v
    | None =>
        match declared (devDependencies appPkg) pkg with
        | Some v => Some v
        | None => declared (dependencies appPkg) pkg
        end
    end
  /\ warnPeerDeps appPkg libPkg w = (Ret tt, w, peerWarnings appPkg libPkg).
Proof. split; [apply installedFor_precedence | apply warnPeerDeps_warnings]. Qed.

(** [dependencies] holds a range that meets the library's, and
    [optionalDependencies] one that does not: the check reports a mismatch
    against the latter. *)
Lemma peer_check_merge_precedence_witness :
  let appPkg :=
    Sim.app_declaring (Some {[ "left-pad" := "^1.2.0" ]}) None
      (Some {[ "left-pad" := "^2.0.0" ]}) in
  let libPkg := Sim.lib_expecting [("left-pad", "^1.0.0")] in
  installedFor appPkg "left-pad" = Some "^2.0.0"
  /\ @warnPeerDeps Sim.env appPkg libPkg (Sim.fresh "/usr/local/node_modules" [])
     = (Ret tt, Sim.fresh "/usr/local/node_modules" [],
        [Warn (NPeerMismatch ["left-pad (app has ^2.0.0, lib expects ^1.0.0)"])]).
Proof.
  exact (@peer_check_merge_precedence Sim.env
           (Sim.app_declaring (Some {[ "left-pad" := "^1.2.0" ]}) None
              (Some {[ "left-pad" := "^2.0.0" ]}))
           (Sim.lib_expecting [("left-pad", "^1.0.0")]) "left-pad"
           (Sim.fresh "/usr/local/node_modules" [])).
Defined.




(** ** The link flow *)

Section TraceFacts.
Context `{E : Env}.

Lemma peerWarnings_quiet (appPkg libPkg : Manifest) :
  commands (peerWarnings appPkg libPkg) = [] /\ removals (peerWarnings appPkg libPkg) = [].
Proof.
  unfold peerWarnings. destruct (peerDependencies libPkg) as [entries|]; [|split; reflexivity].
  destruct (nonempty (missingLines appPkg entries)),
    (nonempty (outOfRangeLines appPkg entries)); split; reflexivity.
Qed.

Lemma watcherEvents_quiet (lib : string) (shell watch : bool) :
  commands (watcherEvents lib shell watch) = [] /\ removals (watcherEvents lib shell watch) = [].
Proof. destruct watch; split; reflexivity. Qed.

Lemma cleanup_commands (w : World) (slotPath : string) (has : bool) :
  commands (cleanup w slotPath has).2 = [].
Proof.
  unfold cleanup. destruct has; [|reflexivity].
  destruct (rmSync slotPath w) as [[e|] w']; reflexivity.
Qed.

End TraceFacts.




(** C5.  The application-link step of [index.js] has one recovery cycle.
    When the first [npm link <lib>] succeeds, nothing else is tried.  When it
    fails, [npm unlink <lib>] is run once, its own failure only warned about,
    and [npm link <lib>] is run once more.  When that retry fails too, the
    process exits with 1 right after it: the trace ends with the fatal error,
    without verification, peer warnings or watcher, and the commands of the
    whole run are the prefix query, the global link if it was due, and
    link, unlink, link. *)
Theorem app_link_single_recovery `{E : Env} (args : list string) (w w0 wg w3 w4 w5 : World)
    (c : Index.Ctx) (t0 : list event) (resg res1 res2 res3 : SpawnResult) :
  let lib := Index.libName c in
  let slotPath := Index.appNodeModulesLib c in
  let g := linkedTo w0 (Index.globalLinkPath c) (Index.libDir c) in
  let has := existsSync w0 slotPath in
  let query := Spawned npmExe ["config"; "get"; "prefix"] None in
  let banner := Log (NStatus (slotOf g (existsSync w0 (Index.globalLinkPath c)))
                             (slotOf false has)) in
  let globalCmd := Spawned npmExe ["link"] (Some (Index.libDir c)) in
  let link := Spawned npmExe ["link"; lib] (Some (Index.appDir c)) in
  let unlink := Spawned npmExe ["unlink"; lib] (Some (Index.appDir c)) in
  let w1 := if g then w0 else wg in
  let w2 := (cleanup w1 slotPath has).1 in
  let pre :=
    [query; banner]
    ++ (if g then [Log NGlobalAlreadySet]
        else [Log (NCreatingGlobal lib); globalCmd; Log NGlobalReady])
    ++ (cleanup w1 slotPath has).2 ++ [Log (NLinking lib)] in
  let recovery :=
    [link; Warn (NFirstLinkFailed lib); unlink]
    ++ (if succeeded res2 then []
        else [Warn (NUnlinkFailed lib (CommandFailed npmExe ["unlink"; lib] ""))])
    ++ [link] in
  let rest :=
    peerWarnings (Index.appPkg c) (Index.libPkg c)
    ++ watcherEvents (Index.libDir c) true (Index.doWatch c) in
  Index.setup args w = (Ret c, w0, t0) ->
  includes args "--unlink" = false ->
  linkedTo w0 slotPath (Index.libDir c) = false ->
  spawnSync npmExe ["link"] (Some (Index.libDir c)) w0 = (resg, wg) ->
  g = true \/ succeeded resg = true ->
  spawnSync npmExe ["link"; lib] (Some (Index.appDir c)) w2 = (res1, w3) ->
  spawnSync npmExe ["unlink"; lib] (Some (Index.appDir c)) w3 = (res2, w4) ->
  spawnSync npmExe ["link"; lib] (Some (Index.appDir c)) w4 = (res3, w5) ->
  Index.process args w =
    (if succeeded res1 then
       (0%Z, w3, pre ++ [link; verifyNotice w3 slotPath lib (Index.libDir c)] ++ rest)
     else if succeeded res3 then
       (0%Z, w5, pre ++ recovery ++ [verifyNotice w5 slotPath lib (Index.libDir c)] ++ rest)
     else
       (1%Z, w5, pre ++ recovery ++ [Error (NFatal (CommandFailed npmExe ["link"; lib] ""))]))
  /\ (succeeded res1 = false -> succeeded res3 = false ->
      commands (Index.process args w).2 =
        [query] ++ (if g then [] else [globalCmd]) ++ [link; unlink; link]).
Proof.
  intros lib slotPath g has query banner globalCmd link unlink w1 w2 pre recovery rest
    Hsetup Hflag Ha Hsg Hglobal H1 H2 H3.
  destruct (setup_inv _ _ _ _ _ Hsetup) as (res & _ & _ & -> & _ & _ & _ & _ & _ & _ & _ & _
    & _ & _ & _ & _ & Hun & _).
  assert (Hhas : existsSync w0 slotPath && negb (linkedTo w0 slotPath (Index.libDir c)) = has).
  { rewrite Ha. apply andb_true_r. }
  assert (Hrun : Index.process args w =
    (if succeeded res1 then
       (0%Z, w3, pre ++ [link; verifyNotice w3 slotPath lib (Index.libDir c)] ++ rest)
     else if succeeded res3 then
       (0%Z, w5, pre ++ recovery ++ [verifyNotice w5 slotPath lib (Index.libDir c)] ++ rest)
     else
       (1%Z, w5, pre ++ recovery ++ [Error (NFatal (CommandFailed npmExe ["link"; lib] ""))]))).
  { rewrite (process_after_setup _ _ _ _ _ Hsetup), Hun, Hflag.
    subst w2 w1. rewrite <- Hhas in H1.
    rewrite (linkFlow_result c _ _ _ _ _ _ _ _ _ Hsg H1 H2 H3).
    fold slotPath lib g. rewrite Hhas, Ha.
    subst pre recovery rest banner query globalCmd link unlink.
    destruct Hglobal as [Hg | Hok]; [rewrite Hg | rewrite Hok; destruct g]; simpl negb;
      simpl andb; cbv iota;
      destruct (succeeded res1); [|destruct (succeeded res3)| |destruct (succeeded res3)|
                                  |destruct (succeeded res3)]; trace_eq. }
  split; [exact Hrun|].
  intros Hf1 Hf3. rewrite Hrun, Hf1, Hf3. subst pre recovery.
  cbn [snd]. rewrite !commands_app, cleanup_commands.
  destruct g, (succeeded res2); reflexivity.
Qed.

(** A fresh world in which both application-link attempts fail: the run
    exits with 1 after the second attempt. *)
Lemma app_link_single_recovery_witness :
  let w := Sim.fresh "/usr/local/node_modules" [false; false; true; false; true] in
  @Index.process Sim.env ["/work/widgets"] w
    = (1%Z, Sim.after (@Index.process Sim.env ["/work/widgets"] w),
       [Spawned "npm" ["config"; "get"; "prefix"] None;
        Log (NStatus SlotAbsent SlotAbsent);
        Log (NCreatingGlobal "widgets");
        Spawned "npm" ["link"] (Some "/work/widgets");
        Log NGlobalReady;
        Log (NLinking "widgets");
        Spawned "npm" ["link"; "widgets"] (Some "/work/app");
        Warn (NFirstLinkFailed "widgets");
        Spawned "npm" ["unlink"; "widgets"] (Some "/work/app");
        Spawned "npm" ["link"; "widgets"] (Some "/work/app");
        Error (NFatal (CommandFailed "npm" ["link"; "widgets"] ""))]).
Proof.
  cbv zeta.
  edestruct (@app_link_single_recovery Sim.env ["/work/widgets"]
               (Sim.fresh "/usr/local/node_modules" [false; false; true; false; true]))
    as [Hrun _].
  - vm_compute. reflexivity.
  - reflexivity.
  - vm_compute. reflexivity.
  - vm_compute. reflexivity.
  - right. vm_compute. reflexivity.
  - vm_compute. reflexivity.
  - vm_compute. reflexivity.
  - vm_compute. reflexivity.
  - rewrite Hrun. vm_compute. reflexivity.
Defined.

(** The same single recovery cycle in [part_000], where the failure of the
    unlink is swallowed without a warning. *)
Lemma app_link_single_recovery_part000 `{E : Env} (args : list string)
    (w w0 w1 w3 w4 w5 : World) (c : Part000.Ctx) (t0 : list event)
    (resg res1 res2 res3 : SpawnResult) :
  let lib := Part000.libName c in
  let slotPath := Part000.appNodeModulesLib c in
  let has := existsSync w slotPath in
  let link := Spawned npmExe ["link"; lib] (Some (Part000.appDir c)) in
  let unlink := Spawned npmExe ["unlink"; lib] (Some (Part000.appDir c)) in
  let w2 := (cleanup w1 slotPath has).1 in
  let pre :=
    [Log (NStatusApp (slotOf false has)); Log NEnsuringGlobal;
     Spawned npmExe ["link"] (Some (Part000.libDir c))]
    ++ (if succeeded resg then [Log NGlobalReady]
        else [Warn (NGlobalLinkError (CommandFailed npmExe ["link"] ""))])
    ++ (cleanup w1 slotPath has).2 ++ [Log (NLinking lib)] in
  let recovery := [link; Warn (NFirstLinkFailed lib); unlink; link] in
  let rest :=
    peerWarnings (Part000.appPkg c) (Part000.libPkg c)
    ++ watcherEvents (Part000.libDir c) false (Part000.doWatch c) in
  Part000.setup args w = (Ret c, w0, t0) ->
  includes args "--unlink" = false ->
  linkedTo w slotPath (Part000.libDir c) = false ->
  spawnSync npmExe ["link"] (Some (Part000.libDir c)) w = (resg, w1) ->
  spawnSync npmExe ["link"; lib] (Some (Part000.appDir c)) w2 = (res1, w3) ->
  spawnSync npmExe ["unlink"; lib] (Some (Part000.appDir c)) w3 = (res2, w4) ->
  spawnSync npmExe ["link"; lib] (Some (Part000.appDir c)) w4 = (res3, w5) ->
  Part000.process args w =
    if succeeded res1 then
      (0%Z, w3, pre ++ [link; verifyNotice w3 slotPath lib (Part000.libDir c)] ++ rest)
    else if succeeded res3 then
      (0%Z, w5, pre ++ recovery ++ [verifyNotice w5 slotPath lib (Part000.libDir c)] ++ rest)
    else
      (1%Z, w5, pre ++ recovery ++ [Error (NFatal (CommandFailed npmExe ["link"; lib] ""))]).
Proof.
  intros lib slotPath has link unlink w2 pre recovery rest Hsetup Hflag Ha Hsg H1 H2 H3.
  destruct (setup000_inv _ _ _ _ _ Hsetup) as (_ & _ & _ & _ & _ & _ & _ & _ & _ & _ & _ & _
    & _ & Hun & _).
  assert (Hhas : existsSync w slotPath && negb (linkedTo w slotPath (Part000.libDir c)) = has).
  { rewrite Ha. apply andb_true_r. }
  rewrite (process000_after_setup _ _ _ _ _ Hsetup), Hun, Hflag.
  subst w2. rewrite <- Hhas in H1.
  rewrite (linkFlow000_result c _ _ _ _ _ _ _ _ _ Hsg H1 H2 H3).
  fold slotPath lib. rewrite Hhas, Ha.
  subst pre recovery rest link unlink.
  destruct (succeeded res1); [|destruct (succeeded res3)]; trace_eq.
Qed.

(** C6, as the code has it.  In [part_000] a failure of [npm link] in the
    library is a warning, and the run goes on with the application link from
    the world the command left.  In [index.js] the command is run only when
    the global slot is not found linked, and its failure ends the run: the
    process exits with 1 before the application link. *)
Theorem global_link_failure_policy `{E : Env} :
  (forall (args : list string) (w w0 w1 : World) (c : Part000.Ctx) (t0 : list event)
      (resg : SpawnResult),
     let a := linkedTo w (Part000.appNodeModulesLib c) (Part000.libDir c) in
     let has := existsSync w (Part000.appNodeModulesLib c) && negb a in
     Part000.setup args w = (Ret c, w0, t0) ->
     includes args "--unlink" = false ->
     spawnSync npmExe ["link"] (Some (Part000.libDir c)) w = (resg, w1) ->
     succeeded resg = false ->
     Part000.process args w =
       let '(code, w', t) :=
         toplevel (Part000.ensureAppLink c a has ;;
                   warnPeerDeps (Part000.appPkg c) (Part000.libPkg c) ;;
                   Part000.startWatcher c) w1 in
       (code, w',
        [Log (NStatusApp (slotOf a has)); Log NEnsuringGlobal;
         Spawned npmExe ["link"] (Some (Part000.libDir c));
         Warn (NGlobalLinkError (CommandFailed npmExe ["link"] ""))] ++ t))
  /\ (forall (args : list string) (w w0 wg : World) (c : Index.Ctx) (t0 : list event)
        (resg : SpawnResult),
        let a := linkedTo w0 (Index.appNodeModulesLib c) (Index.libDir c) in
        let has := existsSync w0 (Index.appNodeModulesLib c) && negb a in
        Index.setup args w = (Ret c, w0, t0) ->
        includes args "--unlink" = false ->
        linkedTo w0 (Index.globalLinkPath c) (Index.libDir c) = false ->
        spawnSync npmExe ["link"] (Some (Index.libDir c)) w0 = (resg, wg) ->
        succeeded resg = false ->
        Index.process args w =
          (1%Z, wg,
           [Spawned npmExe ["config"; "get"; "prefix"] None;
            Log (NStatus (slotOf false (existsSync w0 (Index.globalLinkPath c)))
                         (slotOf a has));
            Log (NCreatingGlobal (Index.libName c));
            Spawned npmExe ["link"] (Some (Index.libDir c));
            Error (NFatal (CommandFailed npmExe ["link"] ""))])).
Proof.
  split.
  - intros args w w0 w1 c t0 resg a has Hsetup Hflag Hsg Hfail.
    destruct (setup000_inv _ _ _ _ _ Hsetup) as (_ & _ & _ & _ & _ & _ & _ & _ & _ & _ & _ & _
      & _ & Hun & _).
    rewrite (process000_after_setup _ _ _ _ _ Hsetup), Hun, Hflag.
    unfold Part000.linkFlow.
    rewrite (toplevel_bind_Ret _ _ _ _ _ _ (detect000_result c w)).
    fold a has. cbv beta iota.
    rewrite (toplevel_bind_Ret _ _ _ _ _ _ (ensureGlobalLink000_result c _ _ _ Hsg)).
    rewrite Hfail.
    destruct (toplevel _ w1) as [[code w'] t]. reflexivity.
  - intros args w w0 wg c t0 resg a has Hsetup Hflag Hg Hsg Hfail.
    destruct (setup_inv _ _ _ _ _ Hsetup) as (res & _ & _ & -> & _ & _ & _ & _ & _ & _ & _ & _
      & _ & _ & _ & _ & Hun & _).
    rewrite (process_after_setup _ _ _ _ _ Hsetup), Hun, Hflag.
    set (w2 := (cleanup (if linkedTo w0 (Index.globalLinkPath c) (Index.libDir c)
                         then w0 else wg) (Index.appNodeModulesLib c) has).1).
    destruct (spawnSync npmExe ["link"; Index.libName c] (Some (Index.appDir c)) w2)
      as [res1 w3] eqn:H1.
    destruct (spawnSync npmExe ["unlink"; Index.libName c] (Some (Index.appDir c)) w3)
      as [res2 w4] eqn:H2.
    destruct (spawnSync npmExe ["link"; Index.libName c] (Some (Index.appDir c)) w4)
      as [res3 w5] eqn:H3.
    rewrite (linkFlow_result c _ _ _ _ _ _ _ _ _ Hsg H1 H2 H3).
    fold a has. rewrite Hg, Hfail. reflexivity.
Qed.

(** The library cannot be linked globally: [part_000] warns and goes on to
    the application link (which fails here, for want of an alias);
    [index.js] stops at once. *)
Lemma global_link_failure_policy_witness :
  let w000 := Sim.fresh "/usr/local/node_modules" [true] in
  let w := Sim.fresh "/usr/local/node_modules" [false; true] in
  (@Part000.process Sim.env ["/work/app"; "/work/widgets"] w000).2
    = [Log (NStatusApp SlotAbsent); Log NEnsuringGlobal;
       Spawned "npm" ["link"] (Some "/work/widgets");
       Warn (NGlobalLinkError (CommandFailed "npm" ["link"] ""));
       Log (NLinking "widgets");
       Spawned "npm" ["link"; "widgets"] (Some "/work/app");
       Warn (NFirstLinkFailed "widgets");
       Spawned "npm" ["unlink"; "widgets"] (Some "/work/app");
       Spawned "npm" ["link"; "widgets"] (Some "/work/app");
       Error (NFatal (CommandFailed "npm" ["link"; "widgets"] ""))]
  /\ @Index.process Sim.env ["/work/widgets"] w
     = (1%Z, Sim.after (@Index.process Sim.env ["/work/widgets"] w),
        [Spawned "npm" ["config"; "get"; "prefix"] None;
         Log (NStatus SlotAbsent SlotAbsent);
         Log (NCreatingGlobal "widgets");
         Spawned "npm" ["link"] (Some "/work/widgets");
         Error (NFatal (CommandFailed "npm" ["link"] ""))]).
Proof.
  cbv zeta. split.
  - etransitivity.
    + apply (f_equal snd).
      eapply (proj1 (@global_link_failure_policy Sim.env) ["/work/app"; "/work/widgets"]
                (Sim.fresh "/usr/local/node_modules" [true])).
      * vm_compute. reflexivity.
      * reflexivity.
      * vm_compute. reflexivity.
      * vm_compute. reflexivity.
    + vm_compute. reflexivity.
  - etransitivity.
    + eapply (proj2 (@global_link_failure_policy Sim.env) ["/work/widgets"]
                (Sim.fresh "/usr/local/node_modules" [false; true])).
      * vm_compute. reflexivity.
      * reflexivity.
      * vm_compute. reflexivity.
      * vm_compute. reflexivity.
      * vm_compute. reflexivity.
    + vm_compute. reflexivity.
Defined.

(** C6 as stated fails on [index.js]: the package manager answers the
    prefix query and then fails to link the library; the run exits with 1 and
    never reaches the application link. *)
Lemma global_link_failure_is_fatal :
  let w := Sim.fresh "/usr/local/node_modules" [false; true] in
  (@Index.process Sim.env ["/work/widgets"] w).1.1 = 1%Z
  /\ (@Index.process Sim.env ["/work/widgets"] w).2
     = [Spawned "npm" ["config"; "get"; "prefix"] None;
        Log (NStatus SlotAbsent SlotAbsent);
        Log (NCreatingGlobal "widgets");
        Spawned "npm" ["link"] (Some "/work/widgets");
        Error (NFatal (CommandFailed "npm" ["link"] ""))].
Proof. split; vm_compute; reflexivity. Qed.

(** ** The unlink flow *)

(** C8, as the code has it.  With [--unlink] and [--unlink-global], once
    the reinstall has succeeded, [index.js] runs [npm unlink -g <lib>], warns
    if that fails, then removes [<prefix>/node_modules/<lib>] itself if the
    path still exists, warns if the removal fails, and exits with 0.
    [part_000] runs [npm unlink -g <lib>] and warns if that fails; it removes
    nothing itself, and exits with 0. *)
Theorem unlink_global_policy `{E : Env} :
  (forall (args : list string) (w w0 w1 w2 w3 w4 : World) (c : Index.Ctx) (t0 : list event)
      (res1 res2 res3 : SpawnResult) (failure : option exn),
     let lib := Index.libName c in
     let dir := Some (Index.appDir c) in
     let reinstall := restoreArgs (Index.appPkg c) lib in
     let present := existsSync w3 (Index.globalLinkPath c) in
     Index.setup args w = (Ret c, w0, t0) ->
     includes args "--unlink" = true ->
     includes args "--unlink-global" = true ->
     spawnSync npmExe ["unlink"; lib] dir w0 = (res1, w1) ->
     spawnSync npmExe reinstall dir w1 = (res2, w2) ->
     succeeded res2 = true ->
     spawnSync npmExe ["unlink"; "-g"; lib] dir w2 = (res3, w3) ->
     rmSync (Index.globalLinkPath c) w3 = (failure, w4) ->
     Index.process args w =
       (0%Z, if present then w4 else w3,
        [Spawned npmExe ["config"; "get"; "prefix"] None;
         Log (NUnlinking lib); Spawned npmExe ["unlink"; lib] dir]
        ++ (if succeeded res1 then []
            else [Warn (NUnlinkFailed lib (CommandFailed npmExe ["unlink"; lib] ""))])
        ++ [Log NReinstalling; Spawned npmExe reinstall dir; Log NRestored;
            Log (NRemovingGlobal lib); Spawned npmExe ["unlink"; "-g"; lib] dir]
        ++ (if succeeded res3 then []
            else [Warn (NGlobalUnlinkFailed lib
                          (CommandFailed npmExe ["unlink"; "-g"; lib] ""))])
        ++ (if present then
              Removed (Index.globalLinkPath c)
                :: match failure with Some e => [Warn (NCleanupFailed e)] | None => [] end
            else [])
        ++ [Log NGlobalRemoved]))
  /\ (forall (args : list string) (w w0 w1 w2 w3 : World) (c : Part000.Ctx) (t0 : list event)
        (res1 res2 res3 : SpawnResult),
        let lib := Part000.libName c in
        let dir := Some (Part000.appDir c) in
        let reinstall := restoreArgs (Part000.appPkg c) lib in
        Part000.setup args w = (Ret c, w0, t0) ->
        includes args "--unlink" = true ->
        includes args "--unlink-global" = true ->
        spawnSync npmExe ["unlink"; lib] dir w = (res1, w1) ->
        spawnSync npmExe reinstall dir w1 = (res2, w2) ->
        succeeded res2 = true ->
        spawnSync npmExe ["unlink"; "-g"; lib] None w2 = (res3, w3) ->
        Part000.process args w =
          (0%Z, w3,
           [Log (NUnlinking lib); Spawned npmExe ["unlink"; lib] dir]
           ++ (if succeeded res1 then []
               else [Warn (NUnlinkFailed lib (CommandFailed npmExe ["unlink"; lib] ""))])
           ++ [Log NReinstalling; Spawned npmExe reinstall dir; Log NRestored;
               Log (NRemovingGlobal lib); Spawned npmExe ["unlink"; "-g"; lib] None]
           ++ (if succeeded res3 then []
               else [Warn (NGlobalUnlinkFailed lib
                             (CommandFailed npmExe ["unlink"; "-g"; lib] ""))])
           ++ [Log NGlobalRemoved])
        /\ removals (Part000.process args w).2 = []).
Proof.
  split.
  - intros args w w0 w1 w2 w3 w4 c t0 res1 res2 res3 failure lib dir reinstall present
      Hsetup Hflag Hglobal H1 H2 Hok H3 Hrm.
    destruct (setup_inv _ _ _ _ _ Hsetup) as (res & _ & _ & -> & _ & _ & _ & _ & _ & _ & _ & _
      & _ & _ & _ & _ & Hun & Hung).
    rewrite (process_after_setup _ _ _ _ _ Hsetup), Hun, Hflag.
    rewrite (unlinkFlow_result c _ _ _ _ _ _ _ _ _ H1 H2 H3 Hrm).
    rewrite Hok, Hung, Hglobal. fold lib present. trace_eq.
  - intros args w w0 w1 w2 w3 c t0 res1 res2 res3 lib dir reinstall
      Hsetup Hflag Hglobal H1 H2 Hok H3.
    destruct (setup000_inv _ _ _ _ _ Hsetup) as (_ & _ & _ & _ & _ & _ & _ & _ & _ & _ & _ & _
      & _ & Hun & Hung).
    rewrite (process000_after_setup _ _ _ _ _ Hsetup), Hun, Hflag.
    rewrite (unlinkFlow000_result c _ _ _ _ _ _ _ H1 H2 H3).
    rewrite Hok, Hung, Hglobal. fold lib. simpl negb. cbv iota. split.
    + trace_eq.
    + cbn [snd]. rewrite !removals_app.
      destruct (succeeded res1), (succeeded res3); reflexivity.
Qed.

(** A linked world in which [npm unlink -g] fails: [index.js] removes the
    alias itself; [part_000] runs the same three commands and removes
    nothing. *)
Lemma unlink_global_policy_witness :
  let linked :=
    Sim.after (@Index.process Sim.env ["/work/widgets"]
                 (Sim.fresh "/usr/local/node_modules" [])) in
  let w := Sim.failing [false; false; false; true] linked in
  let w000 := Sim.failing [false; false; true] linked in
  @Index.process Sim.env ["/work/widgets"; "--unlink"; "--unlink-global"] w
    = (0%Z,
       Sim.after (@Index.process Sim.env ["/work/widgets"; "--unlink"; "--unlink-global"] w),
       [Spawned "npm" ["config"; "get"; "prefix"] None;
        Log (NUnlinking "widgets");
        Spawned "npm" ["unlink"; "widgets"] (Some "/work/app");
        Log NReinstalling;
        Spawned "npm" ["install"; "--save-prod"; "widgets"] (Some "/work/app");
        Log NRestored;
        Log (NRemovingGlobal "widgets");
        Spawned "npm" ["unlink"; "-g"; "widgets"] (Some "/work/app");
        Warn (NGlobalUnlinkFailed "widgets" (CommandFailed "npm" ["unlink"; "-g"; "widgets"] ""));
        Removed "/usr/local/node_modules/widgets";
        Log NGlobalRemoved])
  /\ removals
       (@Part000.process Sim.env ["/work/app"; "/work/widgets"; "--unlink"; "--unlink-global"]
          w000).2 = [].
Proof.
  cbv zeta. split.
  - etransitivity.
    + eapply (proj1 (@unlink_global_policy Sim.env)
                ["/work/widgets"; "--unlink"; "--unlink-global"]
                (Sim.failing [false; false; false; true]
                   (Sim.after (@Index.process Sim.env ["/work/widgets"]
                                 (Sim.fresh "/usr/local/node_modules" []))))).
      * vm_compute. reflexivity.
      * reflexivity.
      * reflexivity.
      * vm_compute. reflexivity.
      * vm_compute. reflexivity.
      * vm_compute. reflexivity.
      * vm_compute. reflexivity.
      * vm_compute. reflexivity.
    + vm_compute. reflexivity.
  - eapply (proj2 (@unlink_global_policy Sim.env)
              ["/work/app"; "/work/widgets"; "--unlink"; "--unlink-global"]
              (Sim.failing [false; false; true]
                 (Sim.after (@Index.process Sim.env ["/work/widgets"]
                               (Sim.fresh "/usr/local/node_modules" []))))).
    + vm_compute. reflexivity.
    + reflexivity.
    + reflexivity.
    + vm_compute. reflexivity.
    + vm_compute. reflexivity.
    + vm_compute. reflexivity.
    + vm_compute. reflexivity.
Defined.

(** C8 as stated fails on [part_000]: [npm unlink -g] fails, the global
    alias is still in place after the run, and the run has removed
    nothing. *)
Lemma unlink_global_keeps_alias :
  let linked :=
    Sim.after (@Part000.process Sim.env ["/work/app"; "/work/widgets"]
                 (Sim.fresh "/usr/local/lib/node_modules" [])) in
  let run :=
    @Part000.process Sim.env ["/work/app"; "/work/widgets"; "--unlink"; "--unlink-global"]
       (Sim.failing [false; false; true] linked) in
  run.1.1 = 0%Z
  /\ run.2
     = [Log (NUnlinking "widgets");
        Spawned "npm" ["unlink"; "widgets"] (Some "/work/app");
        Log NReinstalling;
        Spawned "npm" ["install"; "--save-prod"; "widgets"] (Some "/work/app");
        Log NRestored;
        Log (NRemovingGlobal "widgets");
        Spawned "npm" ["unlink"; "-g"; "widgets"] None;
        Warn (NGlobalUnlinkFailed "widgets" (CommandFailed "npm" ["unlink"; "-g"; "widgets"] ""));
        Log NGlobalRemoved]
  /\ Sim.fs (Sim.after run) !! "/usr/local/lib/node_modules/widgets"
     = Some (Sim.Link "/work/widgets").
Proof. repeat split; vm_compute; reflexivity. Qed.

(** ** Scenarios *)

(** A fresh application and the library [widgets], no flags: the global
    alias is created, the application slot becomes a link that resolves to
    the library, and the process exits with 0. *)
Example fresh_link_scenario :
  let run := @Index.process Sim.env ["/work/widgets"] (Sim.fresh "/usr/local/node_modules" []) in
  run.1.1 = 0%Z
  /\ Sim.fs (Sim.after run) !! "/usr/local/node_modules/widgets" = Some (Sim.Link "/work/widgets")
  /\ @linkedTo Sim.env (Sim.after run) "/work/app/node_modules/widgets" "/work/widgets" = true
  /\ Sim.sim_realpath (Sim.after run) "/work/app/node_modules/widgets" = inr "/work/widgets".
Proof. repeat split; vm_compute; reflexivity. Qed.

(** A linked application that held the library in [devDependencies] at
    [0.5.0-nightly.5], run with [--unlink]: the link is removed and that
    very version is reinstalled into [devDependencies]. *)
Example unlink_nightly_scenario :
  let appPkg := Sim.app_declaring None (Some {[ "widgets" := "0.5.0-nightly.5" ]}) None in
  let start := Sim.world_of appPkg (Sim.manifest "widgets") "/usr/local/node_modules" [] in
  let linked := Sim.after (@Index.process Sim.env ["/work/widgets"] start) in
  let run := @Index.process Sim.env ["/work/widgets"; "--unlink"] linked in
  run.1.1 = 0%Z
  /\ run.2
     = [Spawned "npm" ["config"; "get"; "prefix"] None;
        Log (NUnlinking "widgets");
        Spawned "npm" ["unlink"; "widgets"] (Some "/work/app");
        Log NReinstalling;
        Spawned "npm" ["install"; "--save-dev"; "widgets@0.5.0-nightly.5"; "--save-exact"]
          (Some "/work/app");
        Log NRestored]
  /\ Sim.fs (Sim.after run) !! "/work/app/node_modules/widgets" = Some Sim.Dir.
Proof. repeat split; vm_compute; reflexivity. Qed.

(** [index.js] looks for the global alias under [<prefix>/node_modules].
    With a package manager that keeps its aliases under
    [<prefix>/lib/node_modules], the run after a successful run does not find
    the alias and links the library globally again. *)
Example rerun_with_aliases_under_lib :
  let first :=
    @Index.process Sim.env ["/work/widgets"] (Sim.fresh "/usr/local/lib/node_modules" []) in
  first.1.1 = 0%Z
  /\ (@Index.process Sim.env ["/work/widgets"] (Sim.after first)).2
     = [Spawned "npm" ["config"; "get"; "prefix"] None;
        Log (NStatus SlotAbsent SlotLinked);
        Log (NCreatingGlobal "widgets");
        Spawned "npm" ["link"] (Some "/work/widgets");
        Log NGlobalReady;
        Log NAppAlreadyLinked].
Proof. split; vm_compute; reflexivity. Qed.

(** * Further properties *)

(** ** The regular expressions of the script *)

Lemma stripTrailingSeps_cons (c : ascii) (s : string) :
  stripTrailingSeps (String c s) =
    if str_nonempty (stripTrailingSeps s) then String c (stripTrailingSeps s)
    else if is_sep c then EmptyString else String c EmptyString.
Proof. simpl. destruct (stripTrailingSeps s); reflexivity. Qed.

(** X1.  [libRel = args[0].replace(/[\\/]+$/, '')]: the argument is cut before
    its trailing run of separators, and only there: what is dropped consists
    of separators, and what is left does not end with one. *)
Theorem stripTrailingSeps_cuts_the_tail (s : string) :
  exists tail,
    s = (stripTrailingSeps s ++ tail)%string
    /\ only_seps tail = true
    /\ ends_with_sep (stripTrailingSeps s) = false.
Proof.
  induction s as [|c s (tail & Hs & Htail & Hend)].
  - exists EmptyString. repeat split.
  - rewrite stripTrailingSeps_cons.
    destruct (stripTrailingSeps s) as [|d r] eqn:Hstrip; simpl str_nonempty; cbv iota.
    + destruct (is_sep c) eqn:Hc.
      * exists (String c tail). simpl in Hs. subst s. simpl. rewrite Hc, Htail. repeat split.
      * exists tail. simpl in Hs. subst s. simpl. rewrite Hc. repeat split; assumption.
    + exists tail. simpl. rewrite Hs at 1. repeat split; assumption.
Qed.





(** X3.  [/-\w+/.test(s)] holds exactly when [s] has a hyphen directly followed
    by a word character. *)
Theorem hyphen_word_occurrence (s : string) :
  hyphen_word s = true <->
  exists before c rest,
    s = (before ++ String "-" (String c rest))%string /\ is_word_char c = true.
Proof.
  induction s as [|a s IH].
  - split; [discriminate|]. intros ([|? ?] & c & rest & Hs & _); discriminate.
  - destruct s as [|d s'].
    + split; [discriminate|].
      intros ([|? [|? ?]] & c & rest & Hs & _); discriminate.
    + change (hyphen_word (String a (String d s')))
        with ((Ascii.eqb a "-" && is_word_char d) || hyphen_word (String d s')).
      rewrite orb_true_iff, andb_true_iff, IH, Ascii.eqb_eq. split.
      * intros [[-> Hd] | (before & c & rest & Hs & Hc)].
        -- exists EmptyString, d, s'. split; [reflexivity|exact Hd].
        -- exists (String a before), c, rest. split; [simpl; rewrite Hs; reflexivity|exact Hc].
      * intros ([|b before] & c & rest & Hs & Hc).
        -- left. simpl in Hs. injection Hs as -> -> _. split; [reflexivity|exact Hc].
        -- right. simpl in Hs. injection Hs as _ Hs. exists before, c, rest.
           split; assumption.
Qed.

Lemma hyphen_word_occurrence_witness :
  hyphen_word "0.5.0-nightly.5" = true.
Proof.
  apply (proj2 (hyphen_word_occurrence "0.5.0-nightly.5")).
  exists "0.5.0", "n"%char, "ightly.5". split; reflexivity.
Defined.

(** ** Captured output *)

Lemma trimStart_cuts (s : string) :
  exists pre,
    s = (pre ++ trimStart s)%string /\ only_spaces pre = true
    /\ starts_with_space (trimStart s) = false.
Proof.
  induction s as [|c s (pre & Hs & Hpre & Hstart)].
  - exists EmptyString. repeat split.
  - simpl trimStart. destruct (is_space c) eqn:Hc.
    + exists (String c pre).
      split; [change (String c s = String c (pre ++ trimStart s)%string); f_equal; exact Hs
             | split; [simpl; rewrite Hc; exact Hpre | exact Hstart]].
    + exists EmptyString. simpl. rewrite Hc. repeat split.
Qed.

Lemma trimEnd_cons (c : ascii) (s : string) :
  trimEnd (String c s) =
    if str_nonempty (trimEnd s) then String c (trimEnd s)
    else if is_space c then EmptyString else String c EmptyString.
Proof. simpl. destruct (trimEnd s); reflexivity. Qed.

Lemma trimEnd_cuts (s : string) :
  exists post,
    s = (trimEnd s ++ post)%string /\ only_spaces post = true
    /\ ends_with_space (trimEnd s) = false
    /\ (starts_with_space s = false -> starts_with_space (trimEnd s) = false).
Proof.
  induction s as [|c s (post & Hs & Hpost & Hend & _)].
  - exists EmptyString. repeat split.
  - rewrite trimEnd_cons.
    destruct (trimEnd s) as [|d r] eqn:Htrim; simpl str_nonempty; cbv iota.
    + destruct (is_space c) eqn:Hc.
      * exists (String c post). simpl in Hs. subst s. simpl. rewrite Hc, Hpost.
        repeat split.
      * exists post. simpl in Hs. subst s. simpl. rewrite Hc.
        repeat split; assumption.
    + exists post. simpl. rewrite Hs at 1.
      repeat split; try assumption. intros Hstart. exact Hstart.
Qed.

(** [runCapture] hands back the output without the white space around it. *)
Lemma trim_cuts (s : string) :
  exists pre post,
    s = (pre ++ trim s ++ post)%string
    /\ only_spaces pre = true /\ only_spaces post = true
    /\ starts_with_space (trim s) = false /\ ends_with_space (trim s) = false.
Proof.
  unfold trim.
  destruct (trimStart_cuts s) as (pre & Hs & Hpre & Hstart).
  destruct (trimEnd_cuts (trimStart s)) as (post & Ht & Hpost & Hend & Hkeep).
  exists pre, post. rewrite <- Ht. repeat split; auto.
Qed.

(** X4.  [npmRootGlobal]: when the prefix query succeeds, the global root is
    [<p>/node_modules] for the printed prefix [p] stripped of the white
    space around it (the line end the package manager prints does not end up
    in the path); when the query fails, the error carries what the command
    wrote to standard error, or to standard output if that is empty. *)
Theorem npmRootGlobal_trims_prefix `{E : Env} (w w' : World) (res : SpawnResult) :
  spawnSync npmExe ["config"; "get"; "prefix"] None w = (res, w') ->
  (succeeded res = true ->
   exists p pre post,
     stdout res = (pre ++ p ++ post)%string
     /\ only_spaces pre = true /\ only_spaces post = true
     /\ starts_with_space p = false /\ ends_with_space p = false
     /\ npmRootGlobal w =
          (Ret (path_join [p; "node_modules"]), w',
           [Spawned npmExe ["config"; "get"; "prefix"] None]))
  /\ (succeeded res = false ->
      npmRootGlobal w =
        (Throw (CommandFailed npmExe ["config"; "get"; "prefix"]
                  (if str_nonempty (stderr res) then stderr res else stdout res)),
         w', [Spawned npmExe ["config"; "get"; "prefix"] None])).
Proof.
  intros Hs. rewrite (npmRootGlobal_result _ _ _ Hs). split.
  - intros ->. destruct (trim_cuts (stdout res)) as (pre & post & Hout & Hpre & Hpost & H1 & H2).
    exists (trim (stdout res)), pre, post. repeat split; assumption.
  - intros ->. reflexivity.
Qed.

Lemma npmRootGlobal_trims_prefix_witness :
  let w := Sim.fresh "/usr/local/node_modules" [] in
  exists p pre post,
    ("/usr/local" ++ Sim.newline)%string = (pre ++ p ++ post)%string
    /\ only_spaces pre = true /\ only_spaces post = true
    /\ starts_with_space p = false /\ ends_with_space p = false
    /\ @npmRootGlobal Sim.env w
       = (Ret (Sim.sim_join [p; "node_modules"]), w,
          [Spawned "npm" ["config"; "get"; "prefix"] None]).
Proof.
  cbv zeta.
  refine (proj1 (@npmRootGlobal_trims_prefix Sim.env
                   (Sim.fresh "/usr/local/node_modules" [])
                   (Sim.fresh "/usr/local/node_modules" [])
                   (Sim.ok ("/usr/local" ++ Sim.newline)) _) _); reflexivity.
Defined.

(** ** Real paths *)

(** X5.  [realEquals] never raises and reads only.  As a relation on paths it
    is symmetric and transitive, and it relates a path to itself exactly when
    the path can be resolved. *)
Theorem realEquals_partial_equivalence `{E : Env} (a b c : string) (w : World) :
  (exists r, realEquals a b w = (Ret r, w, []) /\ realEquals b a w = (Ret r, w, []))
  /\ (realEquals a b w = (Ret true, w, []) -> realEquals b c w = (Ret true, w, []) ->
      realEquals a c w = (Ret true, w, []))
  /\ (realEquals a a w = (Ret true, w, []) <-> exists real, realpathSync w a = inr real).
Proof.
  destruct (realEquals_total a b w) as (rab & Hab & Iab).
  destruct (realEquals_total b a w) as (rba & Hba & Iba).
  destruct (realEquals_total b c w) as (rbc & Hbc & Ibc).
  destruct (realEquals_total a c w) as (rac & Hac & Iac).
  destruct (realEquals_total a a w) as (raa & Haa & Iaa).
  split; [|split].
  - exists rab. split; [exact Hab|]. rewrite Hba. do 3 f_equal.
    destruct rab, rba; try reflexivity.
    + apply Iba. destruct (proj1 Iab eq_refl) as (real & ? & ?). exists real. auto.
    + symmetry. apply Iab. destruct (proj1 Iba eq_refl) as (real & ? & ?). exists real. auto.
  - rewrite Hab, Hbc, Hac. intros H1 H2.
    injection H1 as ->. injection H2 as ->.
    destruct (proj1 Iab eq_refl) as (r1 & Ha & Hb).
    destruct (proj1 Ibc eq_refl) as (r2 & Hb' & Hc).
    do 3 f_equal. apply Iac. exists r1. split; [exact Ha|]. congruence.
  - rewrite Haa. split.
    + intros H. injection H as ->. destruct (proj1 Iaa eq_refl) as (real & Hr & _).
      exists real. exact Hr.
    + intros (real & Hr). do 3 f_equal. apply Iaa. exists real. auto.
Qed.

Lemma realEquals_partial_equivalence_witness :
  let w :=
    Sim.after (@Index.process Sim.env ["/work/widgets"]
                 (Sim.fresh "/usr/local/node_modules" [])) in
  @realEquals Sim.env "/work/app/node_modules/widgets" "/work/widgets" w = (Ret true, w, []).
Proof.
  cbv zeta.
  apply (proj1 (proj2 (@realEquals_partial_equivalence Sim.env
                         "/work/app/node_modules/widgets" "/usr/local/node_modules/widgets"
                         "/work/widgets" _))); vm_compute; reflexivity.
Defined.

(** X6.  [isSymlinkTo] looks at the expected target only through its real
    path: two targets with the same [realpathSync] answer get the same
    verdict, and a target that cannot be resolved gets [false]. *)
Theorem isSymlinkTo_target_by_real_path `{E : Env} (linkPath t1 t2 : string) (w : World) :
  (realpathSync w t1 = realpathSync w t2 ->
   isSymlinkTo linkPath t1 w = isSymlinkTo linkPath t2 w)
  /\ (forall e, realpathSync w t1 = inl e -> isSymlinkTo linkPath t1 w = (Ret false, w, [])).
Proof.
  split.
  - intros Hreal.
    assert (Heq : forall r, realEquals r t1 w = realEquals r t2 w).
    { intros r. unfold realEquals, try_catch, bind, read_or_throw, ret.
      destruct (realpathSync w r) as [e|real]; [reflexivity|]. simpl.
      rewrite Hreal. reflexivity. }
    unfold isSymlinkTo, try_catch, bind, read_or_throw, ret.
    destruct (lstatSync w linkPath) as [e|st]; [reflexivity|].
    destruct (isSymbolicLink st); simpl; [|reflexivity].
    destruct (readlinkSync w linkPath) as [e|link]; [reflexivity|].
    rewrite Heq. reflexivity.
  - intros e He. destruct (isSymlinkTo_total linkPath t1 w) as (r & -> & Hiff).
    destruct r; [|reflexivity].
    destruct (proj1 Hiff eq_refl) as (? & ? & ? & _ & _ & _ & _ & Hr). congruence.
Qed.

Lemma isSymlinkTo_target_by_real_path_witness :
  let w :=
    Sim.after (@Index.process Sim.env ["/work/widgets"]
                 (Sim.fresh "/usr/local/node_modules" [])) in
  @isSymlinkTo Sim.env "/work/app/node_modules/widgets" "/work/widgets" w
    = @isSymlinkTo Sim.env "/work/app/node_modules/widgets" "/usr/local/node_modules/widgets" w
  /\ @isSymlinkTo Sim.env "/work/app/node_modules/widgets" "/work/gone" w = (Ret false, w, []).
Proof.
  cbv zeta. split.
  - apply (proj1 (@isSymlinkTo_target_by_real_path Sim.env "/work/app/node_modules/widgets"
                    "/work/widgets" "/usr/local/node_modules/widgets" _)).
    vm_compute. reflexivity.
  - apply (proj2 (@isSymlinkTo_target_by_real_path Sim.env "/work/app/node_modules/widgets"
                    "/work/gone" "/work/gone" _) (FsError "ENOENT")).
    vm_compute. reflexivity.
Defined.

(** ** Before the flows *)

Section Setup.
Context `{E : Env}.

(** [setup] of [index.js], by what it reads. *)
Lemma index_setup_closed_form (args : list string) (w : World) :
  let libDir := path_resolve [cwd; stripTrailingSeps (nth 0 args "")] in
  let appPkgPath := path_join [cwd; "package.json"] in
  let libPkgPath := path_join [libDir; "package.json"] in
  let query := ["config"; "get"; "prefix"] in
  Index.setup args w =
    if (length args <? 1)%nat then (Halt 1%Z, w, [Log NUsage])
    else if negb (existsSync w appPkgPath) then (Throw (NoAppManifest cwd), w, [])
    else if negb (existsSync w libPkgPath) then (Throw (NoLibManifest libDir), w, [])
    else
      match readFileJson w appPkgPath with
      | inl e => (Throw e, w, [])
      | inr appPkg =>
          match readFileJson w libPkgPath with
          | inl e => (Throw e, w, [])
          | inr libPkg =>
              match name libPkg with
              | None => (Throw (NoLibName libPkgPath), w, [])
              | Some lib =>
                  if negb (str_nonempty lib) then (Throw (NoLibName libPkgPath), w, [])
                  else
                    let '(res, w') := spawnSync npmExe query None w in
                    if succeeded res then
                      (Ret {| Index.appDir := cwd; Index.libDir := libDir;
                              Index.appPkg := appPkg; Index.libPkg := libPkg;
                              Index.libName := lib;
                              Index.appNodeModulesLib :=
                                path_join [cwd; "node_modules"; lib];
                              Index.globalLinkPath :=
                                path_join [path_join [trim (stdout res); "node_modules"]; lib];
                              Index.doWatch := includes args "--watch";
                              Index.doUnlink := includes args "--unlink";
                              Index.doUnlinkGlobal := includes args "--unlink-global" |},
                       w', [Spawned npmExe query None])
                    else
                      (Throw (CommandFailed npmExe query
                                (if str_nonempty (stderr res) then stderr res
                                 else stdout res)),
                       w', [Spawned npmExe query None])
              end
          end
      end.
Proof.
  intros libDir appPkgPath libPkgPath query.
  unfold Index.setup, Index.usageAndExit, when, bind, read, readJson, read_or_throw, throw,
    ret, exit, log, emit.
  fold libDir appPkgPath libPkgPath.
  destruct (length args <? 1)%nat; simpl; [reflexivity|].
  destruct (existsSync w appPkgPath); simpl; [|reflexivity].
  destruct (existsSync w libPkgPath); simpl; [|reflexivity].
  destruct (readFileJson w appPkgPath) as [e|appPkg]; simpl; [reflexivity|].
  destruct (readFileJson w libPkgPath) as [e|libPkg]; simpl; [reflexivity|].
  destruct (name libPkg) as [lib|]; simpl; [|reflexivity].
  destruct (str_nonempty lib); simpl; [|reflexivity].
  destruct (spawnSync npmExe query None w) as [res w'] eqn:Hq.
  rewrite (npmRootGlobal_result _ _ _ Hq).
  destruct (succeeded res); reflexivity.
Qed.

(** [setup] of [part_000], by what it reads. *)
Lemma part000_setup_closed_form (args : list string) (w : World) :
  let appDir := path_resolve [cwd; nth 0 args ""] in
  let libDir := path_resolve [cwd; nth 1 args ""] in
  let appPkgPath := path_join [appDir; "package.json"] in
  let libPkgPath := path_join [libDir; "package.json"] in
  Part000.setup args w =
    if (length args <? 2)%nat then (Halt 1%Z, w, [Log NUsage])
    else if negb (existsSync w appPkgPath) then (Throw (NoAppManifest appDir), w, [])
    else if negb (existsSync w libPkgPath) then (Throw (NoLibManifest libDir), w, [])
    else
      match readFileJson w appPkgPath with
      | inl e => (Throw e, w, [])
      | inr appPkg =>
          match readFileJson w libPkgPath with
          | inl e => (Throw e, w, [])
          | inr libPkg =>
              match name libPkg with
              | None => (Throw (NoLibName libPkgPath), w, [])
              | Some lib =>
                  if negb (str_nonempty lib) then (Throw (NoLibName libPkgPath), w, [])
                  else
                    (Ret {| Part000.appDir := appDir; Part000.libDir := libDir;
                            Part000.appPkg := appPkg; Part000.libPkg := libPkg;
                            Part000.libName := lib;
                            Part000.appNodeModulesLib :=
                              path_join [appDir; "node_modules"; lib];
                            Part000.doWatch := includes args "--watch";
                            Part000.doUnlink := includes args "--unlink";
                            Part000.doUnlinkGlobal := includes args "--unlink-global" |},
                     w, [])
              end
          end
      end.
Proof.
  intros appDir libDir appPkgPath libPkgPath.
  unfold Part000.setup, Part000.usageAndExit, when, bind, read, readJson, read_or_throw,
    throw, ret, exit, log, emit.
  fold appDir libDir appPkgPath libPkgPath.
  destruct (length args <? 2)%nat; simpl; [reflexivity|].
  destruct (existsSync w appPkgPath); simpl; [|reflexivity].
  destruct (existsSync w libPkgPath); simpl; [|reflexivity].
  destruct (readFileJson w appPkgPath) as [e|appPkg]; simpl; [reflexivity|].
  destruct (readFileJson w libPkgPath) as [e|libPkg]; simpl; [reflexivity|].
  destruct (name libPkg) as [lib|]; simpl; [|reflexivity].
  destruct (str_nonempty lib); reflexivity.
Qed.

Lemma index_process_of_setup (args : list string) (w : World) :
  Index.process args w =
    match Index.setup args w with
    | (Ret c, w0, t0) =>
        let '(code, w', t) :=
          toplevel (if Index.doUnlink c then Index.unlinkFlow c else Index.linkFlow c) w0 in
        (code, w', t0 ++ t)
    | (Throw e, w0, t0) => (1%Z, w0, t0 ++ [Error (NFatal e)])
    | (Halt code, w0, t0) => (code, w0, t0)
    end.
Proof.
  unfold Index.process, Index.main, toplevel, bind.
  destruct (Index.setup args w) as [[[c|e|code] w0] t0]; try reflexivity.
  destruct ((if Index.doUnlink c then Index.unlinkFlow c else Index.linkFlow c) w0)
    as [[[u|e|code] w'] t]; try reflexivity.
  rewrite app_assoc. reflexivity.
Qed.

Lemma part000_process_of_setup (args : list string) (w : World) :
  Part000.process args w =
    match Part000.setup args w with
    | (Ret c, w0, t0) =>
        let '(code, w', t) :=
          toplevel (if Part000.doUnlink c then Part000.unlinkFlow c else Part000.linkFlow c)
                   w0 in
        (code, w', t0 ++ t)
    | (Throw e, w0, t0) => (1%Z, w0, t0 ++ [Error (NFatal e)])
    | (Halt code, w0, t0) => (code, w0, t0)
    end.
Proof.
  unfold Part000.process, Part000.main, toplevel, bind.
  destruct (Part000.setup args w) as [[[c|e|code] w0] t0]; try reflexivity.
  destruct ((if Part000.doUnlink c then Part000.unlinkFlow c else Part000.linkFlow c) w0)
    as [[[u|e|code] w'] t]; try reflexivity.
  rewrite app_assoc. reflexivity.
Qed.

End Setup.

(** X7.  [index.js] fails fast: without an argument it prints the usage and
    exits with 1; a missing application manifest, then a missing library
    manifest, then an unreadable manifest, then a library manifest without a
    non-empty [name] each end the run with exit code 1 and that error, before
    any command is run and without a change of the world. *)
Theorem index_fails_before_any_command `{E : Env} (args : list string) (w : World) :
  let libDir := path_resolve [cwd; stripTrailingSeps (nth 0 args "")] in
  let appPkgPath := path_join [cwd; "package.json"] in
  let libPkgPath := path_join [libDir; "package.json"] in
  (args = [] -> Index.process args w = (1%Z, w, [Log NUsage]))
  /\ (args <> [] -> existsSync w appPkgPath = false ->
      Index.process args w = (1%Z, w, [Error (NFatal (NoAppManifest cwd))]))
  /\ (args <> [] -> existsSync w appPkgPath = true -> existsSync w libPkgPath = false ->
      Index.process args w = (1%Z, w, [Error (NFatal (NoLibManifest libDir))]))
  /\ (forall e,
        args <> [] -> existsSync w appPkgPath = true -> existsSync w libPkgPath = true ->
        readFileJson w appPkgPath = inl e ->
        Index.process args w = (1%Z, w, [Error (NFatal e)]))
  /\ (forall appPkg e,
        args <> [] -> existsSync w appPkgPath = true -> existsSync w libPkgPath = true ->
        readFileJson w appPkgPath = inr appPkg -> readFileJson w libPkgPath = inl e ->
        Index.process args w = (1%Z, w, [Error (NFatal e)]))
  /\ (forall appPkg libPkg,
        args <> [] -> existsSync w appPkgPath = true -> existsSync w libPkgPath = true ->
        readFileJson w appPkgPath = inr appPkg -> readFileJson w libPkgPath = inr libPkg ->
        name libPkg = None \/ name libPkg = Some "" ->
        Index.process args w = (1%Z, w, [Error (NFatal (NoLibName libPkgPath))])).
Proof.
  intros libDir appPkgPath libPkgPath.
  assert (Hlen : args <> [] -> (length args <? 1)%nat = false).
  { destruct args; [congruence|reflexivity]. }
  rewrite index_process_of_setup, index_setup_closed_form.
  fold libDir appPkgPath libPkgPath.
  repeat split.
  - intros ->. reflexivity.
  - intros Hne Ha. rewrite (Hlen Hne), Ha. reflexivity.
  - intros Hne Ha Hl. rewrite (Hlen Hne), Ha, Hl. reflexivity.
  - intros e Hne Ha Hl Hr. rewrite (Hlen Hne), Ha, Hl, Hr. reflexivity.
  - intros appPkg e Hne Ha Hl Hr Hrl. rewrite (Hlen Hne), Ha, Hl, Hr, Hrl. reflexivity.
  - intros appPkg libPkg Hne Ha Hl Hr Hrl Hname.
    rewrite (Hlen Hne), Ha, Hl, Hr, Hrl.
    destruct Hname as [-> | ->]; reflexivity.
Qed.

(** No argument; an empty file system; an application without the library
    next to it. *)
Lemma index_fails_before_any_command_witness :
  let empty := Sim.with_fs (Sim.fresh "/usr/local/node_modules" []) ∅ in
  let lonely := Sim.put "/work/app/package.json" (Sim.File (Some (Sim.manifest "app"))) empty in
  @Index.process Sim.env [] empty = (1%Z, empty, [Log NUsage])
  /\ @Index.process Sim.env ["/work/widgets"] empty
     = (1%Z, empty, [Error (NFatal (NoAppManifest "/work/app"))])
  /\ @Index.process Sim.env ["/work/widgets"] lonely
     = (1%Z, lonely, [Error (NFatal (NoLibManifest "/work/widgets"))]).
Proof.
  cbv zeta. split; [|split].
  - apply (proj1 (@index_fails_before_any_command Sim.env [] _)). reflexivity.
  - apply (proj1 (proj2 (@index_fails_before_any_command Sim.env ["/work/widgets"] _))).
    + discriminate.
    + vm_compute. reflexivity.
  - apply (proj1 (proj2 (proj2 (@index_fails_before_any_command Sim.env ["/work/widgets"] _)))).
    + discriminate.
    + vm_compute. reflexivity.
    + vm_compute. reflexivity.
Defined.

(** X8.  [part_000] fails fast in the same order, from two arguments on. *)
Theorem part000_fails_before_any_command `{E : Env} (args : list string) (w : World) :
  let appDir := path_resolve [cwd; nth 0 args ""] in
  let libDir := path_resolve [cwd; nth 1 args ""] in
  let appPkgPath := path_join [appDir; "package.json"] in
  let libPkgPath := path_join [libDir; "package.json"] in
  ((length args < 2)%nat -> Part000.process args w = (1%Z, w, [Log NUsage]))
  /\ ((2 <= length args)%nat -> existsSync w appPkgPath = false ->
      Part000.process args w = (1%Z, w, [Error (NFatal (NoAppManifest appDir))]))
  /\ ((2 <= length args)%nat -> existsSync w appPkgPath = true ->
      existsSync w libPkgPath = false ->
      Part000.process args w = (1%Z, w, [Error (NFatal (NoLibManifest libDir))]))
  /\ (forall e,
        (2 <= length args)%nat -> existsSync w appPkgPath = true ->
        existsSync w libPkgPath = true ->
        readFileJson w appPkgPath = inl e ->
        Part000.process args w = (1%Z, w, [Error (NFatal e)]))
  /\ (forall appPkg e,
        (2 <= length args)%nat -> existsSync w appPkgPath = true ->
        existsSync w libPkgPath = true ->
        readFileJson w appPkgPath = inr appPkg -> readFileJson w libPkgPath = inl e ->
        Part000.process args w = (1%Z, w, [Error (NFatal e)]))
  /\ (forall appPkg libPkg,
        (2 <= length args)%nat -> existsSync w appPkgPath = true ->
        existsSync w libPkgPath = true ->
        readFileJson w appPkgPath = inr appPkg -> readFileJson w libPkgPath = inr libPkg ->
        name libPkg = None \/ name libPkg = Some "" ->
        Part000.process args w = (1%Z, w, [Error (NFatal (NoLibName libPkgPath))])).
Proof.
  intros appDir libDir appPkgPath libPkgPath.
  assert (Hlen : (2 <= length args)%nat -> (length args <? 2)%nat = false).
  { intros H. apply Nat.ltb_ge. exact H. }
  rewrite part000_process_of_setup, part000_setup_closed_form.
  fold appDir libDir appPkgPath libPkgPath.
  repeat split.
  - intros H. apply Nat.ltb_lt in H. rewrite H. reflexivity.
  - intros Hne Ha. rewrite (Hlen Hne), Ha. reflexivity.
  - intros Hne Ha Hl. rewrite (Hlen Hne), Ha, Hl. reflexivity.
  - intros e Hne Ha Hl Hr. rewrite (Hlen Hne), Ha, Hl, Hr. reflexivity.
  - intros appPkg e Hne Ha Hl Hr Hrl. rewrite (Hlen Hne), Ha, Hl, Hr, Hrl. reflexivity.
  - intros appPkg libPkg Hne Ha Hl Hr Hrl Hname.
    rewrite (Hlen Hne), Ha, Hl, Hr, Hrl.
    destruct Hname as [-> | ->]; reflexivity.
Qed.

(** One argument only; a library whose manifest has no name. *)
Lemma part000_fails_before_any_command_witness :
  let w := Sim.fresh "/usr/local/node_modules" [] in
  let nameless :=
    Sim.put "/work/widgets/package.json"
      (Sim.File (Some {| name := None; dependencies := None; devDependencies := None;
                         optionalDependencies := None; peerDependencies := None |})) w in
  @Part000.process Sim.env ["/work/widgets"] w = (1%Z, w, [Log NUsage])
  /\ @Part000.process Sim.env ["/work/app"; "/work/widgets"] nameless
     = (1%Z, nameless, [Error (NFatal (NoLibName "/work/widgets/package.json"))]).
Proof.
  cbv zeta. split.
  - apply (proj1 (@part000_fails_before_any_command Sim.env ["/work/widgets"] _)).
    simpl. lia.
  - eapply (proj2 (proj2 (proj2 (proj2 (proj2
              (@part000_fails_before_any_command Sim.env ["/work/app"; "/work/widgets"] _)))))).
    + simpl. lia.
    + vm_compute. reflexivity.
    + vm_compute. reflexivity.
    + vm_compute. reflexivity.
    + vm_compute. reflexivity.
    + left. reflexivity.
Defined.

(** X9.  In [index.js] the prefix query comes before the choice of the flow:
    when it fails, a run with valid manifests exits with 1 right after it,
    whatever the flags, so also a run with [--unlink], whose reinstall does
    not need the global root. *)
Theorem index_prefix_query_is_fatal `{E : Env} (args : list string) (w w' : World)
    (appPkg libPkg : Manifest) (lib : string) (res : SpawnResult) :
  let libDir := path_resolve [cwd; stripTrailingSeps (nth 0 args "")] in
  let appPkgPath := path_join [cwd; "package.json"] in
  let libPkgPath := path_join [libDir; "package.json"] in
  args <> [] ->
  existsSync w appPkgPath = true -> existsSync w libPkgPath = true ->
  readFileJson w appPkgPath = inr appPkg -> readFileJson w libPkgPath = inr libPkg ->
  name libPkg = Some lib -> str_nonempty lib = true ->
  spawnSync npmExe ["config"; "get"; "prefix"] None w = (res, w') ->
  succeeded res = false ->
  Index.process args w =
    (1%Z, w',
     [Spawned npmExe ["config"; "get"; "prefix"] None;
      Error (NFatal (CommandFailed npmExe ["config"; "get"; "prefix"]
                       (if str_nonempty (stderr res) then stderr res else stdout res)))]).
Proof.
  intros libDir appPkgPath libPkgPath Hne Ha Hl Hra Hrl Hname Hlib Hq Hfail.
  rewrite index_process_of_setup, index_setup_closed_form.
  fold libDir appPkgPath libPkgPath.
  destruct args as [|a rest]; [congruence|].
  change (length (a :: rest) <? 1)%nat with false.
  cbv iota. rewrite Ha, Hl, Hra, Hrl, Hname, Hlib, Hq, Hfail. reflexivity.
Qed.

Lemma index_prefix_query_is_fatal_witness :
  let w := Sim.fresh "/usr/local/node_modules" [true] in
  @Index.process Sim.env ["/work/widgets"; "--unlink"] w
    = (1%Z, Sim.after (@Index.process Sim.env ["/work/widgets"; "--unlink"] w),
       [Spawned "npm" ["config"; "get"; "prefix"] None;
        Error (NFatal (CommandFailed "npm" ["config"; "get"; "prefix"] "npm error"))]).
Proof.
  cbv zeta. etransitivity.
  - eapply (@index_prefix_query_is_fatal Sim.env ["/work/widgets"; "--unlink"]
              (Sim.fresh "/usr/local/node_modules" [true])).
    + discriminate.
    + vm_compute. reflexivity.
    + vm_compute. reflexivity.
    + vm_compute. reflexivity.
    + vm_compute. reflexivity.
    + reflexivity.
    + reflexivity.
    + vm_compute. reflexivity.
    + reflexivity.
  - vm_compute. reflexivity.
Defined.

(** ** What a run can do *)

Section Behaviour.
Context `{E : Env}.

Lemma behaves_ret {A} (P : event -> Prop) (a : A) : behaves P (ret a).
Proof. intros w. split; [constructor|discriminate]. Qed.

Lemma behaves_throw {A} (P : event -> Prop) (e : exn) : behaves P (@throw _ A e).
Proof. intros w. split; [constructor|discriminate]. Qed.

Lemma behaves_read {A} (P : event -> Prop) (f : World -> A) : behaves P (read f).
Proof. intros w. split; [constructor|discriminate]. Qed.

Lemma behaves_read_or_throw {A} (P : event -> Prop) (f : World -> exn + A) :
  behaves P (read_or_throw f).
Proof.
  intros w. unfold read_or_throw. destruct (f w); split; try constructor; discriminate.
Qed.

Lemma behaves_emit (P : event -> Prop) (ev : event) : P ev -> behaves P (emit ev).
Proof. intros Hev w. split; [repeat constructor; exact Hev|discriminate]. Qed.

Lemma behaves_spawn_sync (P : event -> Prop) (cmd : string) (args : list string)
    (dir : option string) :
  P (Spawned cmd args dir) -> behaves P (spawn_sync cmd args dir).
Proof.
  intros Hev w. unfold spawn_sync. destruct (spawnSync cmd args dir w).
  split; [repeat constructor; exact Hev|discriminate].
Qed.

Lemma behaves_rm (P : event -> Prop) (p : string) : P (Removed p) -> behaves P (rm p).
Proof.
  intros Hev w. unfold rm. destruct (rmSync p w) as [[e|] w'];
    (split; [repeat constructor; exact Hev|discriminate]).
Qed.

Lemma behaves_bind {A B} (P : event -> Prop) (m : M A) (k : A -> M B) :
  behaves P m -> (forall a, behaves P (k a)) -> behaves P (bind m k).
Proof.
  intros Hm Hk w. unfold bind. destruct (Hm w) as [Ht Hh].
  destruct (m w) as [[[a|e|code] w1] t1]; simpl in *.
  - destruct (Hk a w1) as [Ht2 Hh2]. destruct (k a w1) as [[r w2] t2]; simpl in *.
    split; [apply Forall_app; split; assumption|exact Hh2].
  - split; [exact Ht|discriminate].
  - exfalso. apply (Hh code). reflexivity.
Qed.

(** The continuation has to behave on the values that are returned only. *)
Lemma behaves_bind_returned {A B} (P : event -> Prop) (m : M A) (k : A -> M B) :
  behaves P m ->
  (forall w a w1 t1, m w = (Ret a, w1, t1) -> behaves P (k a)) ->
  behaves P (bind m k).
Proof.
  intros Hm Hk w. unfold bind. destruct (Hm w) as [Ht Hh].
  destruct (m w) as [[[a|e|code] w1] t1] eqn:Hrun; simpl in *.
  - destruct (Hk w a w1 t1 Hrun w1) as [Ht2 Hh2].
    destruct (k a w1) as [[r w2] t2]; simpl in *.
    split; [apply Forall_app; split; assumption|exact Hh2].
  - split; [exact Ht|discriminate].
  - exfalso. apply (Hh code). reflexivity.
Qed.

Lemma behaves_try_catch {A} (P : event -> Prop) (body : M A) (handler : exn -> M A) :
  behaves P body -> (forall e, behaves P (handler e)) -> behaves P (try_catch body handler).
Proof.
  intros Hm Hk w. unfold try_catch. destruct (Hm w) as [Ht Hh].
  destruct (body w) as [[[a|e|code] w1] t1]; simpl in *.
  - split; [exact Ht|discriminate].
  - destruct (Hk e w1) as [Ht2 Hh2]. destruct (handler e w1) as [[r w2] t2]; simpl in *.
    split; [apply Forall_app; split; assumption|exact Hh2].
  - exfalso. apply (Hh code). reflexivity.
Qed.


Lemma behaves_run (P : event -> Prop) (cmd : string) (args : list string)
    (dir : option string) :
  P (Spawned cmd args dir) -> behaves P (run cmd args dir).
Proof.
  intros Hev. unfold run. apply behaves_bind; [apply behaves_spawn_sync; exact Hev|].
  intros res. destruct (succeeded res); [apply behaves_ret|apply behaves_throw].
Qed.

Lemma behaves_isSymlinkTo (P : event -> Prop) (p t : string) : behaves P (isSymlinkTo p t).
Proof.
  intros w. rewrite isSymlinkTo_linkedTo. split; [constructor|discriminate].
Qed.

Lemma behaves_warnPeerDeps (P : event -> Prop) (appPkg libPkg : Manifest) :
  (forall n, P (Warn n)) -> behaves P (warnPeerDeps appPkg libPkg).
Proof.
  intros HW w. rewrite warnPeerDeps_warnings. split; [|discriminate]. simpl.
  unfold peerWarnings. destruct (peerDependencies libPkg) as [entries|]; [|constructor].
  apply Forall_app. split.
  - destruct (nonempty _); repeat constructor. apply HW.
  - destruct (nonempty _); repeat constructor. apply HW.
Qed.

End Behaviour.

(** Steps through a computation built from the combinators of the script. *)
Ltac behave :=
  repeat first
    [ apply behaves_ret
    | apply behaves_throw
    | apply behaves_read
    | apply behaves_read_or_throw
    | apply behaves_isSymlinkTo
    | apply behaves_warnPeerDeps; [intros ?]
    | apply behaves_run
    | apply behaves_rm
    | apply behaves_emit
    | apply behaves_try_catch; [|intros ?]
    | apply behaves_bind; [|intros ?]
    | match goal with
      | |- behaves _ (if ?b then _ else _) => destruct b
      | |- behaves _ (let '(_, _) := ?d in _) => destruct d
      | |- behaves _ (match ?d with _ => _ end) => destruct d
      end ].

Section FlowAlphabets.
Context `{E : Env}.

Lemma index_linkFlow_behaves (c : Index.Ctx) :
  behaves (link_event (Index.libName c) (Index.appDir c) (Index.libDir c)
             (Index.appNodeModulesLib c) true)
          (Index.linkFlow c).
Proof.
  unfold Index.linkFlow, Index.detect, Index.ensureGlobalLink, Index.ensureAppLink,
    Index.startWatcher, when, log, warn, spawn.
  behave; simpl; auto 10.
Qed.

Lemma part000_linkFlow_behaves (c : Part000.Ctx) :
  behaves (link_event (Part000.libName c) (Part000.appDir c) (Part000.libDir c)
             (Part000.appNodeModulesLib c) false)
          (Part000.linkFlow c).
Proof.
  unfold Part000.linkFlow, Part000.detect, Part000.ensureGlobalLink, Part000.ensureAppLink,
    Part000.startWatcher, when, log, warn, spawn.
  behave; simpl; auto 10.
Qed.

Lemma installArgs_returned (appPkg : Manifest) (lib : string) (w w1 : World)
    (args : list string) (t1 : list event) :
  read_or_throw (fun _ : World => installArgs appPkg lib) w = (Ret args, w1, t1) ->
  args = restoreArgs appPkg lib.
Proof.
  unfold read_or_throw. rewrite installArgs_closed_form. intros H. injection H as <- _ _.
  reflexivity.
Qed.

Lemma index_unlinkFlow_behaves (c : Index.Ctx) :
  behaves (unlink_event (Index.libName c) (Index.appDir c)
             (restoreArgs (Index.appPkg c) (Index.libName c))
             (Some (Index.appDir c)) (Some (Index.globalLinkPath c)))
          (Index.unlinkFlow c).
Proof.
  unfold Index.unlinkFlow, Index.unlinkGlobal, when, log, warn.
  apply behaves_bind; [behave; exact I|intros _].
  apply behaves_bind; [behave; simpl; auto 10|intros _].
  apply behaves_bind_returned; [behave|].
  intros w args w1 t1 Hargs. apply installArgs_returned in Hargs. subst args.
  behave; simpl; auto 10.
Qed.

Lemma part000_unlinkFlow_behaves (c : Part000.Ctx) :
  behaves (unlink_event (Part000.libName c) (Part000.appDir c)
             (restoreArgs (Part000.appPkg c) (Part000.libName c)) None None)
          (Part000.unlinkFlow c).
Proof.
  unfold Part000.unlinkFlow, Part000.unlinkGlobal, when, log, warn.
  apply behaves_bind; [behave; exact I|intros _].
  apply behaves_bind; [behave; simpl; auto 10|intros _].
  apply behaves_bind_returned; [behave|].
  intros w args w1 t1 Hargs. apply installArgs_returned in Hargs. subst args.
  behave; simpl; auto 10.
Qed.

End FlowAlphabets.

Section Outcome.
Context `{E : Env}.

Lemma toplevel_behaves (P : event -> Prop) (m : M unit) (w : World) :
  behaves P m ->
  exists w' t,
    Forall P t
    /\ (toplevel m w = (0%Z, w', t)
        \/ exists e, toplevel m w = (1%Z, w', t ++ [Error (NFatal e)])).
Proof.
  intros Hm. destruct (Hm w) as [Ht Hh]. unfold toplevel.
  destruct (m w) as [[[u|e|code] w'] t]; simpl in *.
  - exists w', t. split; [exact Ht|left; reflexivity].
  - exists w', t. split; [exact Ht|right; exists e; reflexivity].
  - exfalso. apply (Hh code). reflexivity.
Qed.





End Outcome.


(** X11.  A run without [--unlink] never leaves the link flow's own ground: after
    the prefix query of [index.js], every event but a closing fatal error is
    a message, [npm link] in the library, [npm link <lib>] or
    [npm unlink <lib>] in the application, the removal of the application
    slot, or the launch of the watcher in the library.  So such a run never
    installs anything, never touches the global alias by itself and never
    removes another path. *)
Theorem link_run_stays_in_bounds `{E : Env} :
  (forall (args : list string) (w w0 : World) (c : Index.Ctx) (t0 : list event),
     Index.setup args w = (Ret c, w0, t0) ->
     includes args "--unlink" = false ->
     exists t,
       Forall (link_event (Index.libName c) (Index.appDir c) (Index.libDir c)
                 (Index.appNodeModulesLib c) true) t
       /\ ((Index.process args w).2 = Spawned npmExe ["config"; "get"; "prefix"] None :: t
           \/ exists e,
               (Index.process args w).2
               = Spawned npmExe ["config"; "get"; "prefix"] None :: t ++ [Error (NFatal e)]))
  /\ (forall (args : list string) (w w0 : World) (c : Part000.Ctx) (t0 : list event),
        Part000.setup args w = (Ret c, w0, t0) ->
        includes args "--unlink" = false ->
        exists t,
          Forall (link_event (Part000.libName c) (Part000.appDir c) (Part000.libDir c)
                    (Part000.appNodeModulesLib c) false) t
          /\ ((Part000.process args w).2 = t
              \/ exists e, (Part000.process args w).2 = t ++ [Error (NFatal e)])).
Proof.
  split.
  - intros args w w0 c t0 Hsetup Hflag.
    destruct (setup_inv _ _ _ _ _ Hsetup) as (res & _ & _ & -> & _ & _ & _ & _ & _ & _ & _ & _
      & _ & _ & _ & _ & Hun & _).
    rewrite (process_after_setup _ _ _ _ _ Hsetup), Hun, Hflag.
    destruct (toplevel_behaves _ _ w0 (index_linkFlow_behaves c)) as (w' & t & Ht & Hend).
    exists t. split; [exact Ht|].
    destruct Hend as [-> | [e ->]]; [left; reflexivity|right; exists e; reflexivity].
  - intros args w w0 c t0 Hsetup Hflag.
    destruct (setup000_inv _ _ _ _ _ Hsetup) as (_ & _ & _ & _ & _ & _ & _ & _ & _ & _ & _ & _
      & _ & Hun & _).
    rewrite (process000_after_setup _ _ _ _ _ Hsetup), Hun, Hflag.
    destruct (toplevel_behaves _ _ w (part000_linkFlow_behaves c)) as (w' & t & Ht & Hend).
    exists t. split; [exact Ht|].
    destruct Hend as [-> | [e ->]]; [left; reflexivity|right; exists e; reflexivity].
Qed.

Lemma link_run_stays_in_bounds_witness :
  exists t,
    Forall (@link_event Sim.env "widgets" "/work/app" "/work/widgets"
              "/work/app/node_modules/widgets" true) t
    /\ ((@Index.process Sim.env ["/work/widgets"; "--watch"]
           (Sim.fresh "/usr/local/node_modules" [])).2
        = Spawned "npm" ["config"; "get"; "prefix"] None :: t
        \/ exists e,
            (@Index.process Sim.env ["/work/widgets"; "--watch"]
               (Sim.fresh "/usr/local/node_modules" [])).2
            = Spawned "npm" ["config"; "get"; "prefix"] None :: t ++ [Error (NFatal e)]).
Proof.
  eapply (proj1 (@link_run_stays_in_bounds Sim.env) ["/work/widgets"; "--watch"]
            (Sim.fresh "/usr/local/node_modules" [])
            (Sim.fresh "/usr/local/node_modules" [])
            {| Index.appDir := "/work/app"; Index.libDir := "/work/widgets";
               Index.appPkg := Sim.manifest "app"; Index.libPkg := Sim.manifest "widgets";
               Index.libName := "widgets";
               Index.appNodeModulesLib := "/work/app/node_modules/widgets";
               Index.globalLinkPath := "/usr/local/node_modules/widgets";
               Index.doWatch := true; Index.doUnlink := false;
               Index.doUnlinkGlobal := false |}).
  - vm_compute. reflexivity.
  - reflexivity.
Defined.

(** X12.  A run with [--unlink] never leaves the unlink flow's own ground: every
    event but a closing fatal error (and the prefix query of [index.js]) is a
    progress message, a warning about a failed unlink or cleanup,
    [npm unlink <lib>], the reinstall or [npm unlink -g <lib>], or, in
    [index.js] only, the removal of the global alias path.  So such a run
    never runs [npm link], never starts the watcher and never prints peer
    warnings, whatever other flags it is given. *)
Theorem unlink_run_stays_in_bounds `{E : Env} :
  (forall (args : list string) (w w0 : World) (c : Index.Ctx) (t0 : list event),
     Index.setup args w = (Ret c, w0, t0) ->
     includes args "--unlink" = true ->
     exists t,
       Forall (unlink_event (Index.libName c) (Index.appDir c)
                 (restoreArgs (Index.appPkg c) (Index.libName c))
                 (Some (Index.appDir c)) (Some (Index.globalLinkPath c))) t
       /\ ((Index.process args w).2 = Spawned npmExe ["config"; "get"; "prefix"] None :: t
           \/ exists e,
               (Index.process args w).2
               = Spawned npmExe ["config"; "get"; "prefix"] None :: t ++ [Error (NFatal e)]))
  /\ (forall (args : list string) (w w0 : World) (c : Part000.Ctx) (t0 : list event),
        Part000.setup args w = (Ret c, w0, t0) ->
        includes args "--unlink" = true ->
        exists t,
          Forall (unlink_event (Part000.libName c) (Part000.appDir c)
                    (restoreArgs (Part000.appPkg c) (Part000.libName c)) None None) t
          /\ ((Part000.process args w).2 = t
              \/ exists e, (Part000.process args w).2 = t ++ [Error (NFatal e)])).
Proof.
  split.
  - intros args w w0 c t0 Hsetup Hflag.
    destruct (setup_inv _ _ _ _ _ Hsetup) as (res & _ & _ & -> & _ & _ & _ & _ & _ & _ & _ & _
      & _ & _ & _ & _ & Hun & _).
    rewrite (process_after_setup _ _ _ _ _ Hsetup), Hun, Hflag.
    destruct (toplevel_behaves _ _ w0 (index_unlinkFlow_behaves c)) as (w' & t & Ht & Hend).
    exists t. split; [exact Ht|].
    destruct Hend as [-> | [e ->]]; [left; reflexivity|right; exists e; reflexivity].
  - intros args w w0 c t0 Hsetup Hflag.
    destruct (setup000_inv _ _ _ _ _ Hsetup) as (_ & _ & _ & _ & _ & _ & _ & _ & _ & _ & _ & _
      & _ & Hun & _).
    rewrite (process000_after_setup _ _ _ _ _ Hsetup), Hun, Hflag.
    destruct (toplevel_behaves _ _ w (part000_unlinkFlow_behaves c)) as (w' & t & Ht & Hend).
    exists t. split; [exact Ht|].
    destruct Hend as [-> | [e ->]]; [left; reflexivity|right; exists e; reflexivity].
Qed.

Lemma unlink_run_stays_in_bounds_witness :
  exists t,
    Forall (@unlink_event Sim.env "widgets" "/work/app"
              (@restoreArgs Sim.env (Sim.manifest "app") "widgets") None None) t
    /\ ((@Part000.process Sim.env ["/work/app"; "/work/widgets"; "--unlink"; "--watch"]
           (Sim.fresh "/usr/local/node_modules" [])).2 = t
        \/ exists e,
            (@Part000.process Sim.env ["/work/app"; "/work/widgets"; "--unlink"; "--watch"]
               (Sim.fresh "/usr/local/node_modules" [])).2 = t ++ [Error (NFatal e)]).
Proof.
  eapply (proj2 (@unlink_run_stays_in_bounds Sim.env)
            ["/work/app"; "/work/widgets"; "--unlink"; "--watch"]
            (Sim.fresh "/usr/local/node_modules" [])
            (Sim.fresh "/usr/local/node_modules" [])
            {| Part000.appDir := "/work/app"; Part000.libDir := "/work/widgets";
               Part000.appPkg := Sim.manifest "app"; Part000.libPkg := Sim.manifest "widgets";
               Part000.libName := "widgets";
               Part000.appNodeModulesLib := "/work/app/node_modules/widgets";
               Part000.doWatch := true; Part000.doUnlink := true;
               Part000.doUnlinkGlobal := false |}).
  - vm_compute. reflexivity.
  - reflexivity.
Defined.

(** ** The link flow, summed up *)

Section Summaries.
Context `{E : Env}.

Lemma watchers_app (t1 t2 : list event) : watchers (t1 ++ t2) = watchers t1 ++ watchers t2.
Proof. apply List.filter_app. Qed.

Lemma cleanup_removals (w : World) (slotPath : string) (has : bool) :
  removals (cleanup w slotPath has).2 = (if has then [Removed slotPath] else [])
  /\ watchers (cleanup w slotPath has).2 = [].
Proof.
  unfold cleanup. destruct has; [|split; reflexivity].
  destruct (rmSync slotPath w) as [[e|] w']; split; reflexivity.
Qed.

Lemma peerWarnings_no_watcher (appPkg libPkg : Manifest) :
  watchers (peerWarnings appPkg libPkg) = [].
Proof.
  unfold peerWarnings. destruct (peerDependencies libPkg) as [entries|]; [|reflexivity].
  destruct (nonempty (missingLines appPkg entries)),
    (nonempty (outOfRangeLines appPkg entries)); reflexivity.
Qed.

Lemma watcherEvents_watchers (lib : string) (shell watch : bool) :
  watchers (watcherEvents lib shell watch) =
    if watch then [Watcher npmExe ["run"; "build"; "--"; "--watch"] lib shell] else [].
Proof. destruct watch; reflexivity. Qed.

Lemma verifyNotice_plain (w : World) (slotPath lib dir : string) :
  removals [verifyNotice w slotPath lib dir] = []
  /\ watchers [verifyNotice w slotPath lib dir] = [].
Proof. unfold verifyNotice. destruct (linkedTo w slotPath dir); split; reflexivity. Qed.

End Summaries.

(** Rewrites the removals or watcher launches of an explicit trace. *)
Ltac sift :=
  repeat first
    [ rewrite removals_app | rewrite watchers_app
    | rewrite (proj1 (cleanup_removals _ _ _)) | rewrite (proj2 (cleanup_removals _ _ _))
    | rewrite (proj2 (peerWarnings_quiet _ _)) | rewrite peerWarnings_no_watcher
    | rewrite (proj2 (watcherEvents_quiet _ _ _)) | rewrite watcherEvents_watchers
    | rewrite (proj1 (verifyNotice_plain _ _ _ _))
    | rewrite (proj2 (verifyNotice_plain _ _ _ _)) ].

(** X13.  The exit code of a link run of [index.js] is decided by the package
    manager alone: it is 1 when the global link was due and failed, or when
    the application link failed twice, and 0 otherwise; neither a failed
    cleanup, nor a failed verification, nor a peer warning changes it.  The
    watcher is started exactly when [--watch] is given and the exit code is
    0. *)
Theorem index_link_exit_code `{E : Env} (args : list string) (w w0 wg w3 w4 w5 : World)
    (c : Index.Ctx) (t0 : list event) (resg res1 res2 res3 : SpawnResult) :
  let lib := Index.libName c in
  let slotPath := Index.appNodeModulesLib c in
  let g := linkedTo w0 (Index.globalLinkPath c) (Index.libDir c) in
  let a := linkedTo w0 slotPath (Index.libDir c) in
  let has := existsSync w0 slotPath && negb a in
  let w2 := (cleanup (if g then w0 else wg) slotPath has).1 in
  let code :=
    if negb g && negb (succeeded resg) then 1%Z
    else if a || succeeded res1 || succeeded res3 then 0%Z else 1%Z in
  Index.setup args w = (Ret c, w0, t0) ->
  includes args "--unlink" = false ->
  spawnSync npmExe ["link"] (Some (Index.libDir c)) w0 = (resg, wg) ->
  spawnSync npmExe ["link"; lib] (Some (Index.appDir c)) w2 = (res1, w3) ->
  spawnSync npmExe ["unlink"; lib] (Some (Index.appDir c)) w3 = (res2, w4) ->
  spawnSync npmExe ["link"; lib] (Some (Index.appDir c)) w4 = (res3, w5) ->
  (Index.process args w).1.1 = code
  /\ watchers (Index.process args w).2 =
       (if (code =? 0)%Z && includes args "--watch"
        then [Watcher npmExe ["run"; "build"; "--"; "--watch"] (Index.libDir c) true]
        else []).
Proof.
  intros lib slotPath g a has w2 code Hsetup Hflag Hsg H1 H2 H3.
  destruct (setup_inv _ _ _ _ _ Hsetup) as (res & _ & _ & -> & _ & _ & _ & _ & _ & _ & _ & _
    & _ & _ & _ & Hwatch & Hun & _).
  rewrite (process_after_setup _ _ _ _ _ Hsetup), Hun, Hflag.
  rewrite (linkFlow_result c _ _ _ _ _ _ _ _ _ Hsg H1 H2 H3).
  fold lib slotPath g a has. subst code. rewrite <- Hwatch. unfold verifyNotice.
  destruct g, (succeeded resg), a, (succeeded res1), (succeeded res3); simpl;
    (split; [reflexivity|]); sift; try reflexivity;
    destruct (linkedTo w3 slotPath (Index.libDir c)), (linkedTo w5 slotPath (Index.libDir c)),
      (succeeded res2); simpl; sift; destruct (Index.doWatch c); reflexivity.
Qed.

(** The application is not linked yet and the first link attempt fails, the
    retry succeeds, with [--watch]: exit code 0 and one watcher. *)
Lemma index_link_exit_code_witness :
  let w := Sim.fresh "/usr/local/node_modules" [false; false; true; false; false] in
  (@Index.process Sim.env ["/work/widgets"; "--watch"] w).1.1 = 0%Z
  /\ watchers (@Index.process Sim.env ["/work/widgets"; "--watch"] w).2
     = [Watcher "npm" ["run"; "build"; "--"; "--watch"] "/work/widgets" true].
Proof.
  cbv zeta.
  edestruct (@index_link_exit_code Sim.env ["/work/widgets"; "--watch"]
               (Sim.fresh "/usr/local/node_modules" [false; false; true; false; false]))
    as [Hcode Hwatch].
  - vm_compute. reflexivity.
  - reflexivity.
  - vm_compute. reflexivity.
  - vm_compute. reflexivity.
  - vm_compute. reflexivity.
  - vm_compute. reflexivity.
  - rewrite Hcode, Hwatch. split; vm_compute; reflexivity.
Defined.



(** X15.  What a link run removes by itself: the application slot, once, when the
    slot exists without being linked to the library and the run gets as far
    as the application link; nothing otherwise.  In particular a slot that is
    linked to the library is never removed. *)
Theorem link_run_removals `{E : Env} :
  (forall (args : list string) (w w0 wg : World) (c : Index.Ctx) (t0 : list event)
      (resg : SpawnResult),
     let g := linkedTo w0 (Index.globalLinkPath c) (Index.libDir c) in
     let a := linkedTo w0 (Index.appNodeModulesLib c) (Index.libDir c) in
     Index.setup args w = (Ret c, w0, t0) ->
     includes args "--unlink" = false ->
     spawnSync npmExe ["link"] (Some (Index.libDir c)) w0 = (resg, wg) ->
     removals (Index.process args w).2 =
       if (g || succeeded resg) && negb a && existsSync w0 (Index.appNodeModulesLib c)
       then [Removed (Index.appNodeModulesLib c)] else [])
  /\ (forall (args : list string) (w w0 : World) (c : Part000.Ctx) (t0 : list event),
        let a := linkedTo w (Part000.appNodeModulesLib c) (Part000.libDir c) in
        Part000.setup args w = (Ret c, w0, t0) ->
        includes args "--unlink" = false ->
        removals (Part000.process args w).2 =
          if negb a && existsSync w (Part000.appNodeModulesLib c)
          then [Removed (Part000.appNodeModulesLib c)] else []).
Proof.
  split.
  - intros args w w0 wg c t0 resg g a Hsetup Hflag Hsg.
    destruct (setup_inv _ _ _ _ _ Hsetup) as (res & _ & _ & -> & _ & _ & _ & _ & _ & _ & _ & _
      & _ & _ & _ & _ & Hun & _).
    rewrite (process_after_setup _ _ _ _ _ Hsetup), Hun, Hflag.
    set (has := existsSync w0 (Index.appNodeModulesLib c) && negb a).
    set (w2 := (cleanup (if g then w0 else wg) (Index.appNodeModulesLib c) has).1).
    destruct (spawnSync npmExe ["link"; Index.libName c] (Some (Index.appDir c)) w2)
      as [res1 w3] eqn:H1.
    destruct (spawnSync npmExe ["unlink"; Index.libName c] (Some (Index.appDir c)) w3)
      as [res2 w4] eqn:H2.
    destruct (spawnSync npmExe ["link"; Index.libName c] (Some (Index.appDir c)) w4)
      as [res3 w5] eqn:H3.
    rewrite (linkFlow_result c _ _ _ _ _ _ _ _ _ Hsg H1 H2 H3).
    fold g a has. unfold verifyNotice. subst has.
    destruct g, (succeeded resg), a, (succeeded res1), (succeeded res3); simpl;
      sift; try reflexivity;
      destruct (linkedTo w3 (Index.appNodeModulesLib c) (Index.libDir c)),
        (linkedTo w5 (Index.appNodeModulesLib c) (Index.libDir c)), (succeeded res2),
        (existsSync w0 (Index.appNodeModulesLib c)); simpl; sift; reflexivity.
  - intros args w w0 c t0 a Hsetup Hflag.
    destruct (setup000_inv _ _ _ _ _ Hsetup) as (_ & _ & _ & _ & _ & _ & _ & _ & _ & _ & _ & _
      & _ & Hun & _).
    rewrite (process000_after_setup _ _ _ _ _ Hsetup), Hun, Hflag.
    destruct (spawnSync npmExe ["link"] (Some (Part000.libDir c)) w) as [resg w1] eqn:Hsg.
    set (has := existsSync w (Part000.appNodeModulesLib c) && negb a).
    set (w2 := (cleanup w1 (Part000.appNodeModulesLib c) has).1).
    destruct (spawnSync npmExe ["link"; Part000.libName c] (Some (Part000.appDir c)) w2)
      as [res1 w3] eqn:H1.
    destruct (spawnSync npmExe ["unlink"; Part000.libName c] (Some (Part000.appDir c)) w3)
      as [res2 w4] eqn:H2.
    destruct (spawnSync npmExe ["link"; Part000.libName c] (Some (Part000.appDir c)) w4)
      as [res3 w5] eqn:H3.
    rewrite (linkFlow000_result c _ _ _ _ _ _ _ _ _ Hsg H1 H2 H3).
    fold a has. unfold verifyNotice. subst has.
    destruct a, (succeeded res1), (succeeded res3); simpl;
      sift; try reflexivity;
      destruct (linkedTo w3 (Part000.appNodeModulesLib c) (Part000.libDir c)),
        (linkedTo w5 (Part000.appNodeModulesLib c) (Part000.libDir c)), (succeeded resg),
        (existsSync w (Part000.appNodeModulesLib c)); simpl; sift; reflexivity.
Qed.

(** An installed copy in the slot is removed before the link; the slot of
    a linked application is left alone. *)
Lemma link_run_removals_witness :
  let installed :=
    Sim.put "/work/app/node_modules/widgets" Sim.Dir (Sim.fresh "/usr/local/node_modules" []) in
  let linked :=
    Sim.after (@Index.process Sim.env ["/work/widgets"]
                 (Sim.fresh "/usr/local/node_modules" [])) in
  removals (@Index.process Sim.env ["/work/widgets"] installed).2
    = [Removed "/work/app/node_modules/widgets"]
  /\ removals (@Part000.process Sim.env ["/work/app"; "/work/widgets"] linked).2 = [].
Proof.
  cbv zeta. split.
  - etransitivity.
    + eapply (proj1 (@link_run_removals Sim.env) ["/work/widgets"]
                (Sim.put "/work/app/node_modules/widgets" Sim.Dir
                   (Sim.fresh "/usr/local/node_modules" []))).
      * vm_compute. reflexivity.
      * reflexivity.
      * vm_compute. reflexivity.
    + vm_compute. reflexivity.
  - etransitivity.
    + eapply (proj2 (@link_run_removals Sim.env) ["/work/app"; "/work/widgets"]
                (Sim.after (@Index.process Sim.env ["/work/widgets"]
                              (Sim.fresh "/usr/local/node_modules" [])))).
      * vm_compute. reflexivity.
      * reflexivity.
    + vm_compute. reflexivity.
Defined.

(** ** The unlink flow, summed up *)



(** ** Arguments that make no difference *)

Section IgnoredFields.
Context `{E : Env}.

Lemma index_linkFlow_fields (appDir libDir : string) (appPkg libPkg : Manifest)
    (lib slotPath globalPath : string) (watch u u' ug ug' : bool) :
  Index.linkFlow
    {| Index.appDir := appDir; Index.libDir := libDir; Index.appPkg := appPkg;
       Index.libPkg := libPkg; Index.libName := lib; Index.appNodeModulesLib := slotPath;
       Index.globalLinkPath := globalPath; Index.doWatch := watch; Index.doUnlink := u;
       Index.doUnlinkGlobal := ug |}
  = Index.linkFlow
      {| Index.appDir := appDir; Index.libDir := libDir; Index.appPkg := appPkg;
         Index.libPkg := libPkg; Index.libName := lib; Index.appNodeModulesLib := slotPath;
         Index.globalLinkPath := globalPath; Index.doWatch := watch; Index.doUnlink := u';
         Index.doUnlinkGlobal := ug' |}.
Proof. reflexivity. Qed.

Lemma index_unlinkFlow_fields (appDir libDir : string) (appPkg libPkg : Manifest)
    (lib slotPath globalPath : string) (watch watch' u u' ug : bool) :
  Index.unlinkFlow
    {| Index.appDir := appDir; Index.libDir := libDir; Index.appPkg := appPkg;
       Index.libPkg := libPkg; Index.libName := lib; Index.appNodeModulesLib := slotPath;
       Index.globalLinkPath := globalPath; Index.doWatch := watch; Index.doUnlink := u;
       Index.doUnlinkGlobal := ug |}
  = Index.unlinkFlow
      {| Index.appDir := appDir; Index.libDir := libDir; Index.appPkg := appPkg;
         Index.libPkg := libPkg; Index.libName := lib; Index.appNodeModulesLib := slotPath;
         Index.globalLinkPath := globalPath; Index.doWatch := watch'; Index.doUnlink := u';
         Index.doUnlinkGlobal := ug |}.
Proof. reflexivity. Qed.

Lemma part000_linkFlow_fields (appDir libDir : string) (appPkg libPkg : Manifest)
    (lib slotPath : string) (watch u u' ug ug' : bool) :
  Part000.linkFlow
    {| Part000.appDir := appDir; Part000.libDir := libDir; Part000.appPkg := appPkg;
       Part000.libPkg := libPkg; Part000.libName := lib;
       Part000.appNodeModulesLib := slotPath; Part000.doWatch := watch;
       Part000.doUnlink := u; Part000.doUnlinkGlobal := ug |}
  = Part000.linkFlow
      {| Part000.appDir := appDir; Part000.libDir := libDir; Part000.appPkg := appPkg;
         Part000.libPkg := libPkg; Part000.libName := lib;
         Part000.appNodeModulesLib := slotPath; Part000.doWatch := watch;
         Part000.doUnlink := u'; Part000.doUnlinkGlobal := ug' |}.
Proof. reflexivity. Qed.

Lemma part000_unlinkFlow_fields (appDir libDir : string) (appPkg libPkg : Manifest)
    (lib slotPath : string) (watch watch' u u' ug : bool) :
  Part000.unlinkFlow
    {| Part000.appDir := appDir; Part000.libDir := libDir; Part000.appPkg := appPkg;
       Part000.libPkg := libPkg; Part000.libName := lib;
       Part000.appNodeModulesLib := slotPath; Part000.doWatch := watch;
       Part000.doUnlink := u; Part000.doUnlinkGlobal := ug |}
  = Part000.unlinkFlow
      {| Part000.appDir := appDir; Part000.libDir := libDir; Part000.appPkg := appPkg;
         Part000.libPkg := libPkg; Part000.libName := lib;
         Part000.appNodeModulesLib := slotPath; Part000.doWatch := watch';
         Part000.doUnlink := u'; Part000.doUnlinkGlobal := ug |}.
Proof. reflexivity. Qed.

End IgnoredFields.

(** X17.  Two command lines of [index.js] that name the same library up to
    trailing separators and agree on [--unlink] run alike when, without
    [--unlink], they agree on [--watch], and when, with [--unlink], they
    agree on [--unlink-global].  So [--unlink-global] without [--unlink],
    [--watch] with [--unlink], unknown flags and further arguments change
    nothing. *)
Theorem index_ignored_arguments `{E : Env} (args args' : list string) (w : World) :
  args <> [] -> args' <> [] ->
  stripTrailingSeps (nth 0 args "") = stripTrailingSeps (nth 0 args' "") ->
  includes args "--unlink" = includes args' "--unlink" ->
  (if includes args "--unlink"
   then includes args "--unlink-global" = includes args' "--unlink-global"
   else includes args "--watch" = includes args' "--watch") ->
  Index.process args w = Index.process args' w.
Proof.
  intros Hne Hne' Hlib Hun Hrest.
  rewrite !index_process_of_setup, !index_setup_closed_form.
  destruct args as [|a rest]; [congruence|]. destruct args' as [|a' rest']; [congruence|].
  change (length (a :: rest) <? 1)%nat with false.
  change (length (a' :: rest') <? 1)%nat with false.
  cbv iota. rewrite <- Hlib, <- Hun.
  repeat match goal with
         | |- context [if negb ?b then _ else _] => destruct b; simpl negb; cbv iota
         | |- context [match ?x with inl _ => _ | inr _ => _ end] => destruct x
         | |- context [match name ?x with _ => _ end] => destruct (name x)
         end; try reflexivity.
  destruct (spawnSync npmExe ["config"; "get"; "prefix"] None w) as [res w'].
  destruct (succeeded res); [|reflexivity].
  cbn [Index.doUnlink].
  destruct (includes (a :: rest) "--unlink").
  - rewrite <- Hrest.
    rewrite (index_unlinkFlow_fields _ _ _ _ _ _ _ _ (includes (a' :: rest') "--watch")
               _ true _).
    reflexivity.
  - rewrite <- Hrest.
    rewrite (index_linkFlow_fields _ _ _ _ _ _ _ _ _ false _
               (includes (a' :: rest') "--unlink-global")).
    reflexivity.
Qed.

Lemma index_ignored_arguments_witness :
  let w := Sim.fresh "/usr/local/node_modules" [] in
  @Index.process Sim.env ["/work/widgets//"; "--unlink-global"; "--verbose"] w
    = @Index.process Sim.env ["/work/widgets"] w.
Proof.
  cbv zeta.
  apply (@index_ignored_arguments Sim.env); try discriminate; reflexivity.
Defined.

(** X18.  The same for [part_000], whose two paths are taken as they are. *)
Theorem part000_ignored_arguments `{E : Env} (args args' : list string) (w : World) :
  (2 <= length args)%nat -> (2 <= length args')%nat ->
  nth 0 args "" = nth 0 args' "" -> nth 1 args "" = nth 1 args' "" ->
  includes args "--unlink" = includes args' "--unlink" ->
  (if includes args "--unlink"
   then includes args "--unlink-global" = includes args' "--unlink-global"
   else includes args "--watch" = includes args' "--watch") ->
  Part000.process args w = Part000.process args' w.
Proof.
  intros Hlen Hlen' Happ Hlib Hun Hrest.
  rewrite !part000_process_of_setup, !part000_setup_closed_form.
  apply Nat.ltb_ge in Hlen, Hlen'. rewrite Hlen, Hlen'.
  rewrite <- Happ, <- Hlib, <- Hun.
  repeat match goal with
         | |- context [if negb ?b then _ else _] => destruct b; simpl negb; cbv iota
         | |- context [match ?x with inl _ => _ | inr _ => _ end] => destruct x
         | |- context [match name ?x with _ => _ end] => destruct (name x)
         end; try reflexivity.
  cbn [Part000.doUnlink].
  destruct (includes args "--unlink").
  - rewrite <- Hrest.
    rewrite (part000_unlinkFlow_fields _ _ _ _ _ _ _ (includes args' "--watch") _ true _).
    reflexivity.
  - rewrite <- Hrest.
    rewrite (part000_linkFlow_fields _ _ _ _ _ _ _ _ false _
               (includes args' "--unlink-global")).
    reflexivity.
Qed.

Lemma part000_ignored_arguments_witness :
  let w := Sim.fresh "/usr/local/node_modules" [] in
  @Part000.process Sim.env ["/work/app"; "/work/widgets"; "--unlink"; "--watch"] w
    = @Part000.process Sim.env ["/work/app"; "/work/widgets"; "--unlink"] w.
Proof.
  cbv zeta.
  apply (@part000_ignored_arguments Sim.env); try (simpl; lia); reflexivity.
Defined.

(** ** More on the reinstall array and the peer check *)



Section PeerBounds.
Context `{E : Env}.

Lemma peer_lines_bounded (appPkg : Manifest) (entries : list (string * string)) :
  (length (missingLines appPkg entries) + length (outOfRangeLines appPkg entries)
   <= length entries)%nat.
Proof.
  unfold missingLines, outOfRangeLines.
  induction entries as [|[pkg range] rest IH]; [simpl; lia|].
  unfold omap in *. simpl.
  destruct (peerVerdict (installedFor appPkg pkg) range);
    destruct (installedFor appPkg pkg); simpl; lia.
Qed.

Lemma no_element_nil {A} (l : list A) : (forall x, x ∉ l) -> l = [].
Proof.
  destruct l as [|a l]; [reflexivity|]. intros H. exfalso. apply (H a). left.
Qed.

End PeerBounds.

(** X20.  Each peer entry of the library yields at most one line, so the two
    lists together are no longer than the peer list, and the check prints at
    most two warnings.  When the application declares every peer with a
    non-empty string that is unparseable, faces an unparseable range, or
    intersects the range, the check prints nothing. *)
Theorem peer_check_bounded `{E : Env} (appPkg libPkg : Manifest)
    (entries : list (string * string)) (w : World) :
  peerDependencies libPkg = Some entries ->
  (length (missingLines appPkg entries) + length (outOfRangeLines appPkg entries)
   <= length entries)%nat
  /\ (length (warnPeerDeps appPkg libPkg w).2 <= 2)%nat
  /\ ((forall pkg range,
         (pkg, range) ∈ entries ->
         exists inst,
           installedFor appPkg pkg = Some inst /\ inst <> ""
           /\ (semver_validRange range = false \/ semver_validRange inst = false
               \/ semver_intersects range inst = true)) ->
      warnPeerDeps appPkg libPkg w = (Ret tt, w, [])).
Proof.
  intros Hpeers. split; [apply peer_lines_bounded|]. split.
  - rewrite warnPeerDeps_warnings. unfold peerWarnings. rewrite Hpeers. cbn [snd].
    destruct (nonempty (missingLines appPkg entries)),
      (nonempty (outOfRangeLines appPkg entries)); simpl; lia.
  - intros Hok. rewrite warnPeerDeps_warnings. unfold peerWarnings. rewrite Hpeers.
    assert (Hm : missingLines appPkg entries = []).
    { apply no_element_nil. intros line Hin.
      apply missingLines_elem in Hin as (pkg & range & Hentry & _ & Hcase).
      destruct (Hok pkg range Hentry) as (inst & Hinst & Hne & _).
      destruct Hcase as [Hc | Hc]; rewrite Hc in Hinst; congruence. }
    assert (Ho : outOfRangeLines appPkg entries = []).
    { apply no_element_nil. intros line Hin.
      apply outOfRangeLines_elem in Hin
        as (pkg & range & inst & Hentry & Hinst & _ & Hr & Hi & Hx & _).
      destruct (Hok pkg range Hentry) as (inst' & Hinst' & _ & Hcase).
      rewrite Hinst in Hinst'. injection Hinst' as <-.
      destruct Hcase as [Hc | [Hc | Hc]]; congruence. }
    rewrite Hm, Ho. reflexivity.
Qed.

(** Two peers, both declared with ranges that meet the library's. *)
Lemma peer_check_bounded_witness :
  let appPkg :=
    Sim.app_declaring (Some {[ "left-pad" := "^1.2.0" ]}) (Some {[ "vue" := "3.4.0" ]}) None in
  let libPkg := Sim.lib_expecting [("left-pad", "^1.0.0"); ("vue", "^3.0.0")] in
  let w := Sim.fresh "/usr/local/node_modules" [] in
  @warnPeerDeps Sim.env appPkg libPkg w = (Ret tt, w, []).
Proof.
  cbv zeta.
  refine (proj2 (proj2 (@peer_check_bounded Sim.env _ _
                          [("left-pad", "^1.0.0"); ("vue", "^3.0.0")] _ _)) _);
    [reflexivity|].
  intros pkg range Hin.
  apply list_elem_of_In in Hin. simpl in Hin.
  destruct Hin as [Heq | [Heq | []]]; injection Heq as <- <-.
  - exists "^1.2.0". repeat split; [discriminate|right; right; reflexivity].
  - exists "3.4.0". repeat split; [discriminate|right; right; reflexivity].
Defined.

(** ** The commands of a run, in order *)

(** Rewrites the commands of an explicit trace. *)
Ltac sift_commands :=
  repeat first
    [ rewrite commands_app
    | rewrite cleanup_commands
    | rewrite (proj1 (peerWarnings_quiet _ _))
    | rewrite (proj1 (watcherEvents_quiet _ _ _)) ].

(** X21.  The commands of a link run, in order.  [index.js]: the prefix query;
    [npm link] in the library unless the global slot is found linked; then,
    unless that failed or the application slot is found linked,
    [npm link <lib>] in the application, followed by [npm unlink <lib>] and a
    second [npm link <lib>] only if the first failed.  [part_000]: [npm link]
    in the library always, then the same application commands unless the slot
    is found linked. *)
Theorem link_run_commands `{E : Env} :
  (forall (args : list string) (w w0 wg w3 w4 w5 : World) (c : Index.Ctx) (t0 : list event)
      (resg res1 res2 res3 : SpawnResult),
     let lib := Index.libName c in
     let slotPath := Index.appNodeModulesLib c in
     let g := linkedTo w0 (Index.globalLinkPath c) (Index.libDir c) in
     let a := linkedTo w0 slotPath (Index.libDir c) in
     let has := existsSync w0 slotPath && negb a in
     let w2 := (cleanup (if g then w0 else wg) slotPath has).1 in
     let link := Spawned npmExe ["link"; lib] (Some (Index.appDir c)) in
     let unlink := Spawned npmExe ["unlink"; lib] (Some (Index.appDir c)) in
     Index.setup args w = (Ret c, w0, t0) ->
     includes args "--unlink" = false ->
     spawnSync npmExe ["link"] (Some (Index.libDir c)) w0 = (resg, wg) ->
     spawnSync npmExe ["link"; lib] (Some (Index.appDir c)) w2 = (res1, w3) ->
     spawnSync npmExe ["unlink"; lib] (Some (Index.appDir c)) w3 = (res2, w4) ->
     spawnSync npmExe ["link"; lib] (Some (Index.appDir c)) w4 = (res3, w5) ->
     commands (Index.process args w).2 =
       [Spawned npmExe ["config"; "get"; "prefix"] None]
       ++ (if g then [] else [Spawned npmExe ["link"] (Some (Index.libDir c))])
       ++ (if (negb g && negb (succeeded resg)) || a then []
           else if succeeded res1 then [link] else [link; unlink; link]))
  /\ (forall (args : list string) (w w0 w1 w3 w4 w5 : World) (c : Part000.Ctx)
        (t0 : list event) (resg res1 res2 res3 : SpawnResult),
        let lib := Part000.libName c in
        let slotPath := Part000.appNodeModulesLib c in
        let a := linkedTo w slotPath (Part000.libDir c) in
        let has := existsSync w slotPath && negb a in
        let w2 := (cleanup w1 slotPath has).1 in
        let link := Spawned npmExe ["link"; lib] (Some (Part000.appDir c)) in
        let unlink := Spawned npmExe ["unlink"; lib] (Some (Part000.appDir c)) in
        Part000.setup args w = (Ret c, w0, t0) ->
        includes args "--unlink" = false ->
        spawnSync npmExe ["link"] (Some (Part000.libDir c)) w = (resg, w1) ->
        spawnSync npmExe ["link"; lib] (Some (Part000.appDir c)) w2 = (res1, w3) ->
        spawnSync npmExe ["unlink"; lib] (Some (Part000.appDir c)) w3 = (res2, w4) ->
        spawnSync npmExe ["link"; lib] (Some (Part000.appDir c)) w4 = (res3, w5) ->
        commands (Part000.process args w).2 =
          [Spawned npmExe ["link"] (Some (Part000.libDir c))]
          ++ (if a then []
              else if succeeded res1 then [link] else [link; unlink; link])).
Proof.
  split.
  - intros args w w0 wg w3 w4 w5 c t0 resg res1 res2 res3 lib slotPath g a has w2 link unlink
      Hsetup Hflag Hsg H1 H2 H3.
    destruct (setup_inv _ _ _ _ _ Hsetup) as (res & _ & _ & -> & _ & _ & _ & _ & _ & _ & _ & _
      & _ & _ & _ & _ & Hun & _).
    rewrite (process_after_setup _ _ _ _ _ Hsetup), Hun, Hflag.
    rewrite (linkFlow_result c _ _ _ _ _ _ _ _ _ Hsg H1 H2 H3).
    fold lib slotPath g a has. unfold verifyNotice. subst link unlink.
    destruct g, (succeeded resg), a, (succeeded res1), (succeeded res3); simpl;
      sift_commands; try reflexivity;
      destruct (linkedTo w3 slotPath (Index.libDir c)),
        (linkedTo w5 slotPath (Index.libDir c)), (succeeded res2); simpl; sift_commands;
      reflexivity.
  - intros args w w0 w1 w3 w4 w5 c t0 resg res1 res2 res3 lib slotPath a has w2 link unlink
      Hsetup Hflag Hsg H1 H2 H3.
    destruct (setup000_inv _ _ _ _ _ Hsetup) as (_ & _ & _ & _ & _ & _ & _ & _ & _ & _ & _ & _
      & _ & Hun & _).
    rewrite (process000_after_setup _ _ _ _ _ Hsetup), Hun, Hflag.
    rewrite (linkFlow000_result c _ _ _ _ _ _ _ _ _ Hsg H1 H2 H3).
    fold lib slotPath a has. unfold verifyNotice. subst link unlink.
    destruct a, (succeeded res1), (succeeded res3); simpl;
      sift_commands; try reflexivity;
      destruct (linkedTo w3 slotPath (Part000.libDir c)),
        (linkedTo w5 slotPath (Part000.libDir c)), (succeeded resg); simpl; sift_commands;
      reflexivity.
Qed.

(** A fresh world where everything succeeds, in both variants. *)
Lemma link_run_commands_witness :
  commands (@Index.process Sim.env ["/work/widgets"]
              (Sim.fresh "/usr/local/node_modules" [])).2
    = [Spawned "npm" ["config"; "get"; "prefix"] None;
       Spawned "npm" ["link"] (Some "/work/widgets");
       Spawned "npm" ["link"; "widgets"] (Some "/work/app")]
  /\ commands (@Part000.process Sim.env ["/work/app"; "/work/widgets"]
                 (Sim.fresh "/usr/local/node_modules" [])).2
     = [Spawned "npm" ["link"] (Some "/work/widgets");
        Spawned "npm" ["link"; "widgets"] (Some "/work/app")].
Proof.
  split.
  - etransitivity.
    + eapply (proj1 (@link_run_commands Sim.env) ["/work/widgets"]
                (Sim.fresh "/usr/local/node_modules" [])).
      * vm_compute. reflexivity.
      * reflexivity.
      * vm_compute. reflexivity.
      * vm_compute. reflexivity.
      * vm_compute. reflexivity.
      * vm_compute. reflexivity.
    + vm_compute. reflexivity.
  - etransitivity.
    + eapply (proj2 (@link_run_commands Sim.env) ["/work/app"; "/work/widgets"]
                (Sim.fresh "/usr/local/node_modules" [])).
      * vm_compute. reflexivity.
      * reflexivity.
      * vm_compute. reflexivity.
      * vm_compute. reflexivity.
      * vm_compute. reflexivity.
      * vm_compute. reflexivity.
    + vm_compute. reflexivity.
Defined.


